(** * ds-payment-backend: payment matching, order status and alias rotation

    A shallow embedding of the payment core of the repository:
    - [services/rotation.js]        (alias rotation selector),
    - [services/payment-checker.js] (notification parser, matching engine,
                                     disposition),
    - [services/scheduler.js]       (time-based cleanup),
    - [routes/orders.js], [routes/webhooks.js] (order creation and the
                                     payment-confirmed webhook),
    - [config/database.js]          (the two query helpers, as a store monad).

    JavaScript numbers are IEEE binary64 values; they are represented by the
    rational they denote ([Q]) and every inexact operation goes through [fl],
    round-to-nearest-even on a 53 bit significand.  Integer columns are [Z]. *)

From Stdlib Require Import ZArith QArith Qround Qabs Qcanon Bool Ascii String List Lia Arith.
Import ListNotations.

Local Open Scope Z_scope.

(* ===================================================================== *)
(** ** JavaScript numbers                                                 *)
(* ===================================================================== *)

Module JsNum.

(** Significand of a positive rational [a/d] at exponent [e]:
    the quotient and the remainder data of [a / (d * 2^e)]. *)
Definition scaled_num (a : Z) (e : Z) : Z := if 0 <=? e then a else a * 2 ^ (- e).
Definition scaled_den (d : Z) (e : Z) : Z := if 0 <=? e then d * 2 ^ e else d.

(** The exponent of the unit in the last place of a normal number: the [e]
    with [2^52 <= a/d / 2^e < 2^53]. *)
Definition ulp_exp (a d : Z) : Z :=
  let e0 := Z.log2 a - Z.log2 d - 52 in
  if scaled_num a e0 / scaled_den d e0 <? 2 ^ 52 then e0 - 1 else e0.

(** Below [2^-1022] the numbers are subnormal: multiples of [2^-1074]. *)
Definition exponent (a d : Z) : Z := Z.max (ulp_exp a d) (- 1074).

(** Round to nearest, ties to even, of [n / d] (with [0 <= n], [0 < d]). *)
Definition round_half_even (n d : Z) : Z :=
  let m := n / d in
  let r := n mod d in
  if (d <? 2 * r) || ((d =? 2 * r) && Z.odd m) then m + 1 else m.

Definition pow2Q (e : Z) : Q :=
  if 0 <=? e then inject_Z (2 ^ e) else 1 # Z.to_pos (2 ^ (- e)).

(** [fl q]: the binary64 value nearest to [q], ties to even; a number too
    small is rounded to a subnormal number or to zero.  A result of magnitude
    [2^1024] or more stands for what is [Infinity] in JavaScript, which the
    numbers of this model do not have: the amounts of this program are far
    below. *)
Definition fl (q : Q) : Q :=
  let n := Qnum (Qred q) in
  let d := Zpos (Qden (Qred q)) in
  if n =? 0 then 0%Q
  else
    let a := Z.abs n in
    let e := exponent a d in
    let m := round_half_even (scaled_num a e) (scaled_den d e) in
    Qred (inject_Z (Z.sgn n * m) * pow2Q e).

(** Arithmetic on numbers: the exact result, rounded. *)
Definition mul (x y : Q) : Q := fl (x * y).
Definition sub (x y : Q) : Q := fl (x - y).

(** [Math.round]: nearest integer, ties towards plus infinity. *)
Definition Math_round (x : Q) : Z := Qfloor (x + (1 # 2)).

(** [Math.abs]. *)
Definition Math_abs (x : Q) : Q := Qabs x.

(** Truncation towards zero: the integer part. *)
Definition trunc (x : Q) : Z := Z.quot (Qnum x) (Zpos (Qden x)).

(** The decimal constant [0.01] of the source, as the double it denotes. *)
Definition c_0_01 : Q := fl (1 # 100).

(** [Number.MAX_SAFE_INTEGER = 2^53 - 1]: integers below are exact. *)
Definition safe_integer (z : Z) : Prop := Z.abs z < 2 ^ 53.

End JsNum.

Import JsNum.

(** Values a field of a JavaScript object holds in this program:
    [null], the number [NaN], or a proper value. *)
Inductive jsval (A : Type) : Type :=
| Null
| NaN
| Val (a : A).
Arguments Null {A}.
Arguments NaN {A}.
Arguments Val {A} a.

(** Truthiness of a numeric field: [null], [NaN] and [0] are falsy. *)
Definition truthy_num (v : jsval Z) : bool :=
  match v with
  | Val z => negb (z =? 0)
  | _ => false
  end.

(** Truthiness of a string field: [null] and the empty string are falsy. *)
Definition truthy_str (v : option string) : bool :=
  match v with
  | Some s => negb (String.eqb s EmptyString)
  | None => false
  end.

(* ===================================================================== *)
(** ** Regular expressions, with the backtracking semantics of ECMAScript  *)
(* ===================================================================== *)

(** A text is a sequence of characters below 256 (the code units of the
    Latin-1 range).  The constructors cover what
    the literals of the source use: classes, concatenation, alternation,
    greedy and lazy bounded repetition and one capture group; the [i] flag
    is applied to the classes, the [g] flag to the way a pattern is run. *)

Module Regex.

Inductive regex : Type :=
| Eps
| Cls (p : ascii -> bool)                             (* one character *)
| Cat (r1 r2 : regex)
| Alt (r1 r2 : regex)
| Rep (greedy : bool) (lo : nat) (hi : option nat) (r : regex)
| Grp (r : regex).                                    (* capture group 1 *)

Definition capture := option (list ascii).

Definition below (i : nat) (hi : option nat) : bool :=
  match hi with
  | Some h => (i <? h)%nat
  | None => true
  end.

(** [exec r s c k]: match [r] at the head of [s], then run the continuation
    [k] on the rest; alternatives are tried in priority order and the first
    success wins.  An iteration of a quantifier that consumes nothing once
    the lower bound is reached fails (RepeatMatcher, step 2.b). *)
Fixpoint exec {R : Type} (r : regex) (s : list ascii) (c : capture)
         (k : list ascii -> capture -> option R) {struct r} : option R :=
  match r with
  | Eps => k s c
  | Cls p =>
      match s with
      | a :: s' => if p a then k s' c else None
      | [] => None
      end
  | Cat r1 r2 => exec r1 s c (fun s1 c1 => exec r2 s1 c1 k)
  | Alt r1 r2 =>
      match exec r1 s c k with
      | Some x => Some x
      | None => exec r2 s c k
      end
  | Grp r1 =>
      exec r1 s c (fun s1 _ => k s1 (Some (firstn (length s - length s1) s)))
  | Rep g lo hi r1 =>
      (fix loop (fuel i : nat) (s : list ascii) (c : capture) {struct fuel}
         : option R :=
         match fuel with
         | O => None
         | S fuel' =>
             let more (_ : unit) :=
               if below i hi then
                 exec r1 s c
                   (fun s1 c1 =>
                      if (lo <=? i)%nat && (length s1 =? length s)%nat
                      then None
                      else loop fuel' (S i) s1 c1)
               else None in
             let stop (_ : unit) := if (lo <=? i)%nat then k s c else None in
             if g then
               match more tt with Some x => Some x | None => stop tt end
             else
               match stop tt with Some x => Some x | None => more tt end
         end) (S (lo + length s)) O s c
  end.

(** The result of a successful match: the matched text, group 1, and the
    text that follows the match. *)
Record match_result : Type := MkMatch {
  m0 : list ascii;
  m1 : capture;
  m_rest : list ascii
}.

Definition match_here (r : regex) (s : list ascii) : option match_result :=
  exec r s None
    (fun rest c => Some (MkMatch (firstn (length s - length rest) s) c rest)).

(** [String.prototype.match] without the [g] flag, and [RegExp.prototype.test]:
    the leftmost match. *)
Fixpoint search (r : regex) (s : list ascii) : option match_result :=
  match match_here r s with
  | Some m => Some m
  | None =>
      match s with
      | [] => None
      | _ :: s' => search r s'
      end
  end.

Definition test (r : regex) (s : list ascii) : bool :=
  match search r s with Some _ => true | None => false end.

(** [String.prototype.match] with the [g] flag: the texts of all successive
    matches (an empty match advances by one character). *)
Fixpoint match_all (fuel : nat) (r : regex) (s : list ascii) : list (list ascii) :=
  match fuel with
  | O => []
  | S fuel' =>
      match search r s with
      | None => []
      | Some m =>
          match m0 m, m_rest m with
          | [], [] => [[]]
          | [], _ :: rest' => [] :: match_all fuel' r rest'
          | _ :: _, rest => m0 m :: match_all fuel' r rest
          end
      end
  end.

(** *** Character classes (ASCII) *)

Definition in_range (lo hi : nat) (a : ascii) : bool :=
  let n := nat_of_ascii a in ((lo <=? n) && (n <=? hi))%nat.

Definition is_digit : ascii -> bool := in_range 48 57.
Definition is_upper : ascii -> bool := in_range 65 90.
Definition is_lower : ascii -> bool := in_range 97 122.
Definition is_alpha (a : ascii) : bool := is_upper a || is_lower a.

(** [\s] on the characters below 256: TAB, LF, VT, FF, CR, SPACE and
    NO-BREAK SPACE (the other white space of JavaScript lies above 255). *)
Definition is_space (a : ascii) : bool :=
  in_range 9 13 a || (nat_of_ascii a =? 32)%nat || (nat_of_ascii a =? 160)%nat.

(** [.]: anything but a line terminator. *)
Definition is_dot (a : ascii) : bool :=
  negb ((nat_of_ascii a =? 10)%nat || (nat_of_ascii a =? 13)%nat).

Definition upper (a : ascii) : ascii :=
  if is_lower a then ascii_of_nat (nat_of_ascii a - 32) else a.
Definition lower (a : ascii) : ascii :=
  if is_upper a then ascii_of_nat (nat_of_ascii a + 32) else a.

Definition is_char (c : ascii) (a : ascii) : bool := Ascii.eqb a c.
Definition one_of (cs : string) (a : ascii) : bool :=
  existsb (Ascii.eqb a) (list_ascii_of_string cs).

(** The [i] flag: a character matches when its canonical form does. *)
Definition ci (p : ascii -> bool) (a : ascii) : bool := p (upper a) || p (lower a).

(** *** Abbreviations for the syntax of the source's literals *)

Definition chr (c : ascii) : regex := Cls (is_char c).
Definition chri (c : ascii) : regex := Cls (ci (is_char c)).
Fixpoint liti (s : string) : regex :=
  match s with
  | EmptyString => Eps
  | String a EmptyString => chri a
  | String a s' => Cat (chri a) (liti s')
  end.
Definition star (r : regex) : regex := Rep true 0 None r.
Definition lazy_star (r : regex) : regex := Rep false 0 None r.
Definition plus (r : regex) : regex := Rep true 1 None r.
Definition opt (r : regex) : regex := Rep true 0 (Some 1%nat) r.
Definition times (lo hi : nat) (r : regex) : regex := Rep true lo (Some hi) r.
Definition at_least (lo : nat) (r : regex) : regex := Rep true lo None r.
Definition seq (rs : list regex) : regex := fold_right Cat Eps rs.
Definition alts (r : regex) (rs : list regex) : regex := fold_left Alt rs r.

End Regex.

Import Regex.

Definition str (s : string) : list ascii := list_ascii_of_string s.

(* ===================================================================== *)
(** ** Notification parser  (services/payment-checker.js, parseInteracEmail) *)
(* ===================================================================== *)

(** The object the parser returns and the matching engine consumes. *)
Record PaymentData : Type := MkPaymentData {
  amount : jsval Q;
  amountCents : jsval Z;
  senderEmail : option string;
  senderName : option string;
  referenceCode : option string;
  transactionId : option string;
  isInterac : bool
}.

Module Parser.

(** *** String helpers *)

Definition digit_val (a : ascii) : Z := Z.of_nat (nat_of_ascii a - 48).

(** Longest prefix of decimal digits: its value, its length, the rest. *)
Fixpoint read_digits (acc : Z) (n : nat) (s : list ascii) : Z * nat * list ascii :=
  match s with
  | a :: s' =>
      if is_digit a then read_digits (10 * acc + digit_val a) (S n) s'
      else (acc, n, s)
  | [] => (acc, n, s)
  end.

(** [parseFloat] on an unsigned decimal numeral without exponent (the only
    shape the amount patterns capture): the double nearest to the numeral
    read from the longest valid prefix, [None] for [NaN]. *)
Definition parseFloat (s : list ascii) : option Q :=
  let '(ip, n1, rest) := read_digits 0 0%nat s in
  let '(fp, n2) :=
    match rest with
    | a :: rest' =>
        if is_char "." a then
          let '(fp, n2, _) := read_digits 0 0%nat rest' in (fp, n2)
        else (0, 0%nat)
    | [] => (0, 0%nat)
    end in
  if (n1 + n2 =? 0)%nat then None
  else Some (fl (Qred ((ip * 10 ^ Z.of_nat n2 + fp) # Z.to_pos (10 ^ Z.of_nat n2)))).

(** [s.replace(/,/g, '')] *)
Definition remove_commas (s : list ascii) : list ascii :=
  filter (fun a => negb (is_char "," a)) s.

Definition toLowerCase (s : list ascii) : list ascii := map lower s.

Fixpoint trim_left (s : list ascii) : list ascii :=
  match s with
  | a :: s' => if is_space a then trim_left s' else s
  | [] => []
  end.
Definition trim (s : list ascii) : list ascii :=
  rev (trim_left (rev (trim_left s))).

(** First element of a priority list for which [f] answers. *)
Fixpoint first_some {A B : Type} (f : A -> option B) (l : list A) : option B :=
  match l with
  | [] => None
  | x :: l' =>
      match f x with
      | Some y => Some y
      | None => first_some f l'
      end
  end.

(** *** The patterns, as written in the source (all carry the [i] flag) *)

Definition d : regex := Cls is_digit.
Definition s_ : regex := Cls is_space.
Definition dot : regex := Cls is_dot.
Definition colon_or_space : regex := Cls (fun a => is_char ":" a || is_space a).
Definition colon_space_hash : regex :=
  Cls (fun a => is_char ":" a || is_space a || is_char "#" a).
Definition AZ09 : regex := Cls (ci (fun a => is_upper a || is_digit a)).
Definition AZ09dash : regex :=
  Cls (ci (fun a => is_upper a || is_digit a || is_char "-" a)).
Definition letter : regex := Cls (ci is_alpha).

Definition interacPatterns : list regex :=
  [ seq [liti "interac"; star dot; liti "e-transfer"];
    seq [liti "INTERAC"; star dot; liti "deposit"];
    seq [liti "e-transfer"; star dot; liti "deposit"];
    seq [liti "sent"; star dot; liti "money"; star dot; liti "interac"];
    seq [liti "auto"; star dot; liti "deposit"; star dot; liti "complete"] ].

(** [\d{1,3}(?:,\d{3})*(?:\.\d{2})?] *)
Definition numeral : regex :=
  seq [ times 1 3 d;
        star (seq [chr ","; times 3 3 d]);
        opt (seq [chr "."; times 2 2 d]) ].

Definition amountPatterns : list regex :=
  [ (* /\$\s*(\d{1,3}(?:,\d{3})*(?:\.\d{2})?)\s*(?:CAD|CDN)?/i *)
    seq [chr "$"; star s_; Grp numeral; star s_;
         opt (Alt (liti "CAD") (liti "CDN"))];
    (* /(\d{1,3}(?:,\d{3})*(?:\.\d{2})?)\s*(?:CAD|CDN|dollars?)/i *)
    seq [Grp numeral; star s_;
         alts (liti "CAD") [liti "CDN"; seq [liti "dollar"; opt (chri "s")]]];
    (* /amount[:\s]+\$?\s*(\d{1,3}(?:,\d{3})*(?:\.\d{2})?)/i *)
    seq [liti "amount"; plus colon_or_space; opt (chr "$"); star s_; Grp numeral];
    (* /deposited[:\s]+\$?\s*(\d{1,3}(?:,\d{3})*(?:\.\d{2})?)/i *)
    seq [liti "deposited"; plus colon_or_space; opt (chr "$"); star s_; Grp numeral] ].

(** [/(?:from|sender)[:\s]+([a-zA-Z0-9._%+-]+@[a-zA-Z0-9.-]+\.[a-zA-Z]{2,})/i] *)
Definition emailPattern : regex :=
  seq [ Alt (liti "from") (liti "sender"); plus colon_or_space;
        Grp (seq [ plus (Cls (ci (fun a => is_alpha a || is_digit a || one_of "._%+-" a)));
                   chr "@";
                   plus (Cls (ci (fun a => is_alpha a || is_digit a || one_of ".-" a)));
                   chr ".";
                   at_least 2 letter ]) ].

Definition namePatterns : list regex :=
  [ (* /(?:from|sent by)[:\s]+([A-Za-z]+ [A-Za-z]+)/i *)
    seq [ Alt (liti "from") (liti "sent by"); plus colon_or_space;
          Grp (seq [plus letter; chr " "; plus letter]) ];
    (* /([A-Za-z]+ [A-Za-z]+)\s+(?:has sent|sent you)/i *)
    seq [ Grp (seq [plus letter; chr " "; plus letter]); plus s_;
          Alt (liti "has sent") (liti "sent you") ] ].

(** The reference patterns; the first one carries the [g] flag. *)
Definition refPatterns : list (bool * regex) :=
  [ (true,  seq [liti "ORD-"; plus AZ09]);                         (* /ORD-[A-Z0-9]+/gi *)
    (false, seq [liti "order"; plus colon_space_hash; Grp (plus AZ09dash)]);
    (false, seq [liti "reference"; plus colon_space_hash; Grp (plus AZ09dash)]);
    (false, seq [liti "message"; plus colon_or_space; lazy_star dot;
                 Grp (seq [liti "ORD-"; plus AZ09])]) ].

(** [/(?:reference|confirmation|transaction)[:\s#]+([A-Z0-9]{10,})/i] *)
Definition txIdPattern : regex :=
  seq [ alts (liti "reference") [liti "confirmation"; liti "transaction"];
        plus colon_space_hash; Grp (at_least 10 AZ09) ].

(** [match[1] || match[0]] for the array [String.prototype.match] returns:
    with the [g] flag the array holds the successive matches, so index 1 is
    the second match; without it, index 1 is capture group 1. *)
Definition match_1_or_0 (global : bool) (r : regex) (s : list ascii)
  : option (list ascii) :=
  if global then
    match match_all (S (length s)) r s with
    | [] => None
    | x0 :: [] => Some x0
    | x0 :: x1 :: _ => Some (match x1 with [] => x0 | _ => x1 end)
    end
  else
    match search r s with
    | None => None
    | Some m =>
        Some (match m1 m with
              | Some (a :: g1) => a :: g1
              | _ => m0 m
              end)
    end.

Definition group1 (m : match_result) : list ascii :=
  match m1 m with Some g => g | None => [] end.

(** *** parseInteracEmail *)

Definition empty_result : PaymentData :=
  MkPaymentData Null Null None None None None false.

Definition parseInteracEmail (emailBody : string) : PaymentData :=
  let bodyText := str emailBody in
  let isInterac := existsb (fun pattern => test pattern bodyText) interacPatterns in
  if negb isInterac then empty_result
  else
    (* amount: the first pattern that matches *)
    let '(amount, amountCents) :=
      match first_some (fun pattern => search pattern bodyText) amountPatterns with
      | Some m =>
          match parseFloat (remove_commas (group1 m)) with
          | Some a => (Val a, Val (Math_round (mul a 100)))
          | None => (NaN, NaN)
          end
      | None => (Null, Null)
      end in
    let senderEmail :=
      match search emailPattern bodyText with
      | Some m => Some (string_of_list_ascii (toLowerCase (group1 m)))
      | None => None
      end in
    let senderName :=
      first_some
        (fun pattern =>
           match search pattern bodyText with
           | Some m =>
               if (length (group1 m) <? 50)%nat
               then Some (string_of_list_ascii (trim (group1 m)))
               else None
           | None => None
           end) namePatterns in
    let referenceCode :=
      first_some
        (fun '(g, pattern) =>
           option_map string_of_list_ascii (match_1_or_0 g pattern bodyText))
        refPatterns in
    let transactionId :=
      match search txIdPattern bodyText with
      | Some m => Some (string_of_list_ascii (group1 m))
      | None => None
      end in
    MkPaymentData amount amountCents senderEmail senderName referenceCode
                  transactionId true.

End Parser.
(* ===================================================================== *)
(** ** The store  (config/database.js and its tables)                      *)
(* ===================================================================== *)

(** Values of the [status] column. *)
Inductive order_status : Type :=
| pending | awaiting_payment | processing | paid | completed | cancelled | refunded.

Definition status_eqb (a b : order_status) : bool :=
  match a, b with
  | pending, pending | awaiting_payment, awaiting_payment
  | processing, processing | paid, paid | completed, completed
  | cancelled, cancelled | refunded, refunded => true
  | _, _ => false
  end.

(** [status IN ('pending', 'awaiting_payment')] *)
Definition is_open (s : order_status) : bool :=
  match s with
  | pending | awaiting_payment => true
  | _ => false
  end.

(** A row of [orders].  Timestamps are instants in milliseconds; how a store
    compares [created_at] with a bound is [created_before] and
    [created_since] below.  The columns [payment_instructions] and [metadata]
    hold JSON text and are left out: no statement here is about them. *)
Record Order : Type := MkOrder {
  o_id : Z;
  reference_number : string;
  woo_order_id : option string;
  customer_email : option string;
  customer_name : option string;
  customer_phone : option string;
  amount_cents : Z;
  currency : string;
  status : order_status;
  payment_email : option string;
  created_at : Z;
  updated_at : Z;
  paid_at : option Z;
  expires_at : option Z
}.

Definition set_status (o : Order) (s : order_status) (upd : Z) (p : option Z) : Order :=
  MkOrder (o_id o) (reference_number o) (woo_order_id o) (customer_email o)
          (customer_name o) (customer_phone o) (amount_cents o) (currency o)
          s (payment_email o) (created_at o) upd p (expires_at o).

(** A row of [email_aliases]. *)
Record Alias : Type := MkAlias {
  a_id : Z;
  alias_email : string;
  bank_name : option string;
  bank_slug : option string;
  active : bool;
  daily_cap_cents : Z;
  daily_total_cents : Z;
  weight : Z;
  last_used_at : option Z
}.

Definition set_last_used (a : Alias) (t : Z) : Alias :=
  MkAlias (a_id a) (alias_email a) (bank_name a) (bank_slug a) (active a)
          (daily_cap_cents a) (daily_total_cents a) (weight a) (Some t).

(** The row [id = 1] of [rotation_state]. *)
Record RotationState : Type := MkRotationState {
  current_alias_id : option Z;
  order_count : option Z;
  total_orders : Z;
  rs_updated_at : Z
}.

(** The match tiers. *)
Inductive match_type : Type :=
| reference_and_amount | email_and_amount | amount_and_time
| multiple_matches | amount_only | no_match.

(** The JSON payload of a [payment_events] row. *)
Inductive event_data : Type :=
| EvMatch (confidence : Z) (matchType : match_type) (paymentData : PaymentData)
| EvConfirmed (sender_email sender_name transaction_id : option string)
| EvCreated (source : string).

Inductive event_type : Type :=
| payment_auto_matched | payment_needs_review | payment_confirmed | order_created.

Record PaymentEvent : Type := MkEvent {
  ev_order_id : option Z;
  ev_type : event_type;
  ev_data : event_data
}.

(** The [reason] column of [unmatched_payments]. *)
Inductive unmatched_reason : Type :=
| ReasonTier (t : match_type)
| ReasonOrderNotFound.

Record UnmatchedPayment : Type := MkUnmatched {
  u_amount_cents : jsval Z;
  u_sender_email : option string;
  u_sender_name : option string;
  u_reference_code : option string;
  u_reason : unmatched_reason
}.

Record Db : Type := MkDb {
  orders : list Order;
  orders_seq : Z;                     (* last id given by AUTOINCREMENT / SERIAL *)
  payment_events : list PaymentEvent;
  email_aliases : list Alias;
  unmatched_payments : list UnmatchedPayment;
  rotation_state : option RotationState
}.

Definition with_orders (d : Db) (os : list Order) : Db :=
  MkDb os (orders_seq d) (payment_events d) (email_aliases d)
       (unmatched_payments d) (rotation_state d).
Definition with_new_order (d : Db) (o : Order) : Db :=
  MkDb (orders d ++ [o]) (o_id o) (payment_events d) (email_aliases d)
       (unmatched_payments d) (rotation_state d).
Definition with_event (d : Db) (e : PaymentEvent) : Db :=
  MkDb (orders d) (orders_seq d) (payment_events d ++ [e]) (email_aliases d)
       (unmatched_payments d) (rotation_state d).
Definition with_aliases (d : Db) (al : list Alias) : Db :=
  MkDb (orders d) (orders_seq d) (payment_events d) al
       (unmatched_payments d) (rotation_state d).
Definition with_unmatched (d : Db) (u : UnmatchedPayment) : Db :=
  MkDb (orders d) (orders_seq d) (payment_events d) (email_aliases d)
       (unmatched_payments d ++ [u]) (rotation_state d).
Definition with_rotation (d : Db) (r : option RotationState) : Db :=
  MkDb (orders d) (orders_seq d) (payment_events d) (email_aliases d)
       (unmatched_payments d) r.

(** [process.env] and the module constant [isProduction]. *)
Record Env : Type := MkEnv {
  DEFAULT_PAYMENT_EMAIL : option string;
  RECIPIENT_NAME : option string;
  EMAIL_ENABLED : bool;               (* process.env.EMAIL_ENABLED === 'true' *)
  ADMIN_EMAIL : option string;
  WEBHOOK_SECRET : option string;
  isProduction : bool
}.

(** What the notification service was asked to do. *)
Inductive alert_type : Type := alert_warning | alert_error | alert_info.
Inductive alert_title : Type := PaymentNeedsReview | UnmatchedPaymentAlert.
Record AdminAlert : Type := MkAlert {
  al_type : alert_type;
  al_title : alert_title
}.
Inductive mail_template : Type := orderConfirmation | paymentConfirmation | adminAlert.
Record Mail : Type := MkMail {
  mail_to : string;
  mail_template_ : mail_template
}.

(** Everything an operation can read or change.  [fuse = Some n] lets [n]
    store calls succeed and makes the next one reject; [None] never fails.
    [alerts] logs the calls of [sendAdminAlert], [outbox] the mails handed to
    the transport.

    The store is SQLite, or PostgreSQL when [isProduction].  Where the two
    answer a statement of the program differently, the operations below say
    so: the listing of the active aliases ([active = 1] on a BOOLEAN column),
    the comparison of [created_at] with an ISO bound, the type of
    [COUNT( * )], the fields [changes] and [insertId] of a result, and the
    foreign key of [payment_events].  A rejection for any other cause (a text
    longer than its column, an integer outside the 32-bit INTEGER of the
    production store, a lost connection) is a store failure like any other:
    it is what the [fuse] stands for, and [fuse = None] excludes it. *)
Record World : Type := MkWorld {
  db : Db;
  now : Z;
  env : Env;
  fuse : option nat;
  alerts : list AdminAlert;
  outbox : list Mail
}.

Definition with_db (w : World) (d : Db) (f : option nat) : World :=
  MkWorld d (now w) (env w) f (alerts w) (outbox w).
Definition with_alert (w : World) (a : AdminAlert) : World :=
  MkWorld (db w) (now w) (env w) (fuse w) (alerts w ++ [a]) (outbox w).
Definition with_mail (w : World) (m : Mail) : World :=
  MkWorld (db w) (now w) (env w) (fuse w) (alerts w) (outbox w ++ [m]).

(** *** The monad of asynchronous operations: state and exceptions *)

Inductive error : Type :=
| StoreError          (* the promise of a store call was rejected *)
| TypeError.          (* property access on undefined *)

Inductive outcome (A : Type) : Type :=
| Ok (a : A)
| Throw (e : error).
Arguments Ok {A} a.
Arguments Throw {A} e.

Definition M (A : Type) : Type := World -> outcome A * World.

Definition ret {A : Type} (a : A) : M A := fun w => (Ok a, w).
Definition throw {A : Type} (e : error) : M A := fun w => (Throw e, w).
Definition bind {A B : Type} (m : M A) (k : A -> M B) : M B :=
  fun w =>
    match m w with
    | (Ok a, w') => k a w'
    | (Throw e, w') => (Throw e, w')
    end.
Definition try_catch {A : Type} (m : M A) (handler : error -> M A) : M A :=
  fun w =>
    match m w with
    | (Ok a, w') => (Ok a, w')
    | (Throw e, w') => handler e w'
    end.

Declare Scope m_scope.
Delimit Scope m_scope with m.
Notation "x <- m ;; k" := (bind m (fun x => k))
  (at level 61, m at next level, right associativity) : m_scope.
Notation "m ;;; k" := (bind m (fun _ => k))
  (at level 61, right associativity) : m_scope.
Local Open Scope m_scope.

(** One call of [db.query] / [db.get]: rejected when the fuse is spent or
    when the statement violates a constraint ([op] answers [None]); the
    tables are then left as they were. *)
Definition store {A : Type} (op : Z -> Db -> option (A * Db)) : M A :=
  fun w =>
    match fuse w with
    | Some O => (Throw StoreError, w)
    | f =>
        match op (now w) (db w) with
        | Some (a, d') => (Ok a, with_db w d' (option_map Nat.pred f))
        | None => (Throw StoreError, with_db w (db w) (option_map Nat.pred f))
        end
    end.

(** A [SELECT]. *)
Definition select {A : Type} (q : Db -> A) : M A :=
  store (fun _ d => Some (q d, d)).

Definition read_env : M Env := fun w => (Ok (env w), w).
Definition Date_now : M Z := fun w => (Ok (now w), w).

(** *** Comparing [created_at] with a bound

    The bound is bound to the statement as the text of [toISOString()],
    ['YYYY-MM-DDTHH:MM:SS.sssZ'].  The production store (PostgreSQL, its
    session in UTC) reads it as a timestamp and compares instants.  The
    SQLite store holds
    [created_at] as the text of [CURRENT_TIMESTAMP], ['YYYY-MM-DD HH:MM:SS']
    (UTC), and compares the two texts byte by byte: the dates decide, and on
    the same date the blank after the date is below the ['T'] of the bound,
    so the column is below the bound whatever the times are (years of four
    digits). *)

(** The UTC calendar day of an instant in milliseconds. *)
Definition day (t : Z) : Z := t / 86400000.

(** [created_at < ?] *)
Definition created_before (e : Env) (created bound : Z) : bool :=
  if isProduction e then created <? bound else day created <=? day bound.

(** [created_at >= ?] *)
Definition created_since (e : Env) (created bound : Z) : bool :=
  if isProduction e then bound <=? created else day bound <? day created.

(** *** services/notifications.js *)

Definition sendEmail (to : string) (template : mail_template) : M unit :=
  fun w =>
    if EMAIL_ENABLED (env w) then (Ok tt, with_mail w (MkMail to template))
    else (Ok tt, w).

Definition sendPaymentConfirmation (to : string) : M unit :=
  sendEmail to paymentConfirmation.
Definition sendOrderConfirmation (to : string) : M unit :=
  sendEmail to orderConfirmation.

Definition sendAdminAlert (a : AdminAlert) : M unit :=
  fun w =>
    let w1 := with_alert w a in
    if truthy_str (ADMIN_EMAIL (env w)) then
      match ADMIN_EMAIL (env w) with
      | Some adminEmail => sendEmail adminEmail adminAlert w1
      | None => (Ok tt, w1)
      end
    else (Ok tt, w1).

(* ===================================================================== *)
(** ** Alias rotation selector  (services/rotation.js)                     *)
(* ===================================================================== *)

Module Rotation.

Definition ORDERS_PER_ROTATION : Z := 20.

(** The object [getNextPaymentEmail] resolves to. *)
Record Assignment : Type := MkAssignment {
  email : option string;
  name : option string;
  alias_id : option Z;
  asg_bank_slug : option string;
  orders_until_rotation : option Z
}.

Definition default_assignment (e : Env) : Assignment :=
  MkAssignment (DEFAULT_PAYMENT_EMAIL e) (RECIPIENT_NAME e) None None None.

(** [ORDER BY id ASC] *)
Fixpoint insert_by_id (a : Alias) (l : list Alias) : list Alias :=
  match l with
  | [] => [a]
  | b :: l' => if a_id a <? a_id b then a :: l else b :: insert_by_id a l'
  end.
Definition sort_by_id (l : list Alias) : list Alias :=
  fold_right insert_by_id [] l.

(** The active aliases in id order: the rows of
    [SELECT * FROM email_aliases WHERE active = 1 ORDER BY id ASC] on the
    SQLite store, where [active] is an INTEGER column. *)
Definition active_ring (d : Db) : list Alias :=
  sort_by_id (filter active (email_aliases d)).

(** The query itself.  On the production store [active] is a BOOLEAN column
    and PostgreSQL rejects the comparison [active = 1] (there is no operator
    for boolean = integer): the call fails, whatever the table holds. *)
Definition select_active_ring : M (list Alias) :=
  e <- read_env ;;
  store (fun _ d => if isProduction e then None else Some (active_ring d, d)).

(** The same query with [LIMIT 1]. *)
Definition select_first_active : M (option Alias) :=
  e <- read_env ;;
  store (fun _ d => if isProduction e then None
                    else Some (hd_error (active_ring d), d)).

(** [Array.prototype.findIndex]: the index of the first hit, or [-1]. *)
Fixpoint findIndex_from {A : Type} (p : A -> bool) (l : list A) (i : Z) : Z :=
  match l with
  | [] => -1
  | x :: l' => if p x then i else findIndex_from p l' (i + 1)
  end.
Definition findIndex {A : Type} (p : A -> bool) (l : list A) : Z :=
  findIndex_from p l 0.

(** [UPDATE rotation_state SET current_alias_id = ?, order_count = ?,
     updated_at = CURRENT_TIMESTAMP WHERE id = 1] *)
Definition update_rotation_state (aliasId : Z) (orderCount : Z) : M unit :=
  store (fun t d =>
    Some (tt, with_rotation d
      (option_map (fun r => MkRotationState (Some aliasId) (Some orderCount)
                                            (total_orders r) t)
                  (rotation_state d)))).

(** [INSERT INTO rotation_state (id, current_alias_id, order_count)
     VALUES (1, NULL, 0)]: the primary key rejects a second row. *)
Definition insert_rotation_state : M unit :=
  store (fun t d =>
    match rotation_state d with
    | Some _ => None
    | None => Some (tt, with_rotation d (Some (MkRotationState None (Some 0) 0 t)))
    end).

(** [UPDATE email_aliases SET last_used_at = CURRENT_TIMESTAMP WHERE id = ?] *)
Definition touch_alias (aliasId : Z) : M unit :=
  store (fun t d =>
    Some (tt, with_aliases d
      (map (fun a => if a_id a =? aliasId then set_last_used a t else a)
           (email_aliases d)))).

(** The [try] block of [getNextPaymentEmail]. *)
Definition getNextPaymentEmail_try : M Assignment :=
    ((* Get rotation state; initialize if doesn't exist *)
     row <- select rotation_state ;;
     state <- match row with
              | Some r => ret (current_alias_id r, order_count r)
              | None => insert_rotation_state ;;; ret (None, Some 0)
              end ;;
     (* Get all active aliases ordered by ID *)
     aliases <- select_active_ring ;;
     e <- read_env ;;
     match aliases with
     | [] => ret (default_assignment e)
     | first :: _ =>
         (* state.order_count || 0 *)
         let orderCount := match snd state with Some n => n | None => 0 end in
         (* If no current alias, start with first one *)
         let currentAliasId :=
           match fst state with
           | Some c => if c =? 0 then a_id first else c
           | None => a_id first
           end in
         (* Check if we need to rotate (every 20 orders) *)
         rotated <-
           (if ORDERS_PER_ROTATION <=? orderCount then
              let currentIndex := findIndex (fun a => a_id a =? currentAliasId) aliases in
              let nextIndex := Z.rem (currentIndex + 1) (Z.of_nat (length aliases)) in
              match nth_error aliases (Z.to_nat nextIndex) with
              | Some a => ret (a_id a, 0)
              | None => throw TypeError
              end
            else ret (currentAliasId, orderCount)) ;;
         (* If current alias not found (was disabled), get first active one *)
         let '(currentAlias, currentAliasId, orderCount) :=
           match find (fun a => a_id a =? fst rotated) aliases with
           | Some a => (a, fst rotated, snd rotated)
           | None => (first, a_id first, 0)
           end in
         (* Increment order count *)
         let orderCount := orderCount + 1 in
         update_rotation_state currentAliasId orderCount ;;;
         touch_alias currentAliasId ;;;
         ret (MkAssignment
                (Some (alias_email currentAlias))
                (if truthy_str (bank_name currentAlias) then bank_name currentAlias
                 else RECIPIENT_NAME e)
                (Some (a_id currentAlias))
                (bank_slug currentAlias)
                (Some (ORDERS_PER_ROTATION - orderCount)))
     end).

Definition getNextPaymentEmail : M Assignment :=
  try_catch getNextPaymentEmail_try
    (* Fallback to default *)
    (fun _ => e <- read_env ;; ret (default_assignment e)).

End Rotation.

(* ===================================================================== *)
(** ** Matching engine and disposition  (services/payment-checker.js)      *)
(* ===================================================================== *)

Module Matching.

(** The object [matchPaymentToOrder] resolves to. *)
Record MatchResult : Type := MkMatchResult {
  order : option Order;
  confidence : Z;
  matchType : match_type;
  count : option Z
}.

(** A column of type INTEGER read into a JavaScript number. *)
Definition to_number (z : Z) : Q := fl (inject_Z z).

(** [amount_cents = $1] with a JavaScript value bound to [$1]. *)
Definition amount_is (v : jsval Z) (o : Order) : bool :=
  match v with
  | Val n => amount_cents o =? n
  | _ => false
  end.

Definition email_is (v : option string) (o : Order) : bool :=
  match v, customer_email o with
  | Some s, Some s' => String.eqb s' s
  | _, _ => false
  end.

(** [ORDER BY created_at DESC LIMIT 1]; among rows of equal [created_at] the
    one stored first is taken. *)
Fixpoint most_recent (l : list Order) : option Order :=
  match l with
  | [] => None
  | o :: l' =>
      match most_recent l' with
      | Some o' => if created_at o <? created_at o' then Some o' else Some o
      | None => Some o
      end
  end.

(** [WHERE reference_number = $1 AND status IN ($2, $3)] *)
Definition by_reference (ref : string) (o : Order) : bool :=
  String.eqb (reference_number o) ref && is_open (status o).

(** [WHERE amount_cents = $1 AND customer_email = $2 AND status IN ($3, $4)] *)
Definition by_email_amount (a : jsval Z) (e : option string) (o : Order) : bool :=
  amount_is a o && email_is e o && is_open (status o).

(** [WHERE amount_cents = $1 AND status IN ($2, $3) AND created_at >= $4] *)
Definition by_amount_recent (e : Env) (a : jsval Z) (since : Z) (o : Order) : bool :=
  amount_is a o && is_open (status o) && created_since e (created_at o) since.

(** [WHERE amount_cents = $1 AND status IN ($2, $3)] *)
Definition by_amount (a : jsval Z) (o : Order) : bool :=
  amount_is a o && is_open (status o).

(** [Math.abs(orderByRef.amount_cents - amountCents) <= tolerance] with
    [tolerance = orderByRef.amount_cents * 0.01]; [null] converts to [0] and
    a comparison with [NaN] is false. *)
Definition within_tolerance (order_amount : Z) (amountCents : jsval Z) : bool :=
  let tolerance := mul (to_number order_amount) c_0_01 in
  match amountCents with
  | Val n => Qle_bool (Math_abs (sub (to_number order_amount) (to_number n))) tolerance
  | Null => Qle_bool (Math_abs (sub (to_number order_amount) 0)) tolerance
  | NaN => false
  end.

Definition matchPaymentToOrder (paymentData : PaymentData) : M MatchResult :=
  e <- read_env ;;
  let amountCents := amountCents paymentData in
  let senderEmail := senderEmail paymentData in
  let referenceCode := referenceCode paymentData in
  (* Priority 1: Match by reference code + amount (100% confidence) *)
  hit1 <-
    (if truthy_str referenceCode then
       orderByRef <- select (fun d =>
         match referenceCode with
         | Some ref => find (by_reference ref) (orders d)
         | None => None
         end) ;;
       match orderByRef with
       | Some o =>
           if within_tolerance (amount_cents o) amountCents
           then ret (Some (MkMatchResult (Some o) 100 reference_and_amount None))
           else ret None
       | None => ret None
       end
     else ret None) ;;
  match hit1 with
  | Some r => ret r
  | None =>
  (* Priority 2: Match by amount + sender email (90% confidence) *)
  hit2 <-
    (if truthy_str senderEmail && truthy_num amountCents then
       orderByEmailAmount <- select (fun d =>
         most_recent (filter (by_email_amount amountCents senderEmail) (orders d))) ;;
       match orderByEmailAmount with
       | Some o => ret (Some (MkMatchResult (Some o) 90 email_and_amount None))
       | None => ret None
       end
     else ret None) ;;
  match hit2 with
  | Some r => ret r
  | None =>
  (* Priority 3: Match by amount + recent time (70% confidence) *)
  hit3 <-
    (if truthy_num amountCents then
       t <- Date_now ;;
       let thirtyMinutesAgo := t - 30 * 60 * 1000 in
       orderByAmountRecent <- select (fun d =>
         most_recent (filter (by_amount_recent e amountCents thirtyMinutesAgo)
                             (orders d))) ;;
       match orderByAmountRecent with
       | Some o =>
           (* Check if there are multiple orders with same amount *)
           cnt <- select (fun d =>
             Z.of_nat (length (filter (by_amount_recent e amountCents thirtyMinutesAgo)
                                      (orders d)))) ;;
           (* count.count === 1: the driver of the production store hands the
              bigint of COUNT over as a string, which is never === 1 *)
           if negb (isProduction e) && (cnt =? 1)
           then ret (Some (MkMatchResult (Some o) 70 amount_and_time None))
           else ret (Some (MkMatchResult None 50 multiple_matches (Some cnt)))
       | None => ret None
       end
     else ret None) ;;
  match hit3 with
  | Some r => ret r
  | None =>
  (* Priority 4: Amount only match (50% confidence - needs review) *)
  hit4 <-
    (if truthy_num amountCents then
       orderByAmountOnly <- select (fun d =>
         most_recent (filter (by_amount amountCents) (orders d))) ;;
       match orderByAmountOnly with
       | Some o => ret (Some (MkMatchResult (Some o) 50 amount_only None))
       | None => ret None
       end
     else ret None) ;;
  match hit4 with
  | Some r => ret r
  | None =>
  (* No match found *)
  ret (MkMatchResult None 0 no_match None)
  end end end end.

(** [UPDATE orders SET status = 'paid', paid_at = CURRENT_TIMESTAMP,
     updated_at = CURRENT_TIMESTAMP WHERE id = ?] *)
Definition mark_paid (id : Z) (paidAt : option Z) : M unit :=
  store (fun t d =>
    Some (tt, with_orders d
      (map (fun o =>
              if o_id o =? id
              then set_status o paid t (Some (match paidAt with Some p => p | None => t end))
              else o)
           (orders d)))).

(** [INSERT INTO payment_events (order_id, event_type, event_data)] *)
Definition insert_event (e : PaymentEvent) : M unit :=
  store (fun _ d => Some (tt, with_event d e)).

(** [INSERT INTO unmatched_payments (...)]: the column [amount_cents] is
    NOT NULL, and a [NaN] is bound as NULL by the SQLite driver and is no
    integer for the production store. *)
Definition insert_unmatched (u : UnmatchedPayment) : M unit :=
  store (fun _ d =>
    match u_amount_cents u with
    | Val _ => Some (tt, with_unmatched d u)
    | _ => None
    end).

(** What [processPayment] resolves to. *)
Inductive ProcessResult : Type :=
| AutoConfirmed (o : Order) (matchResult : MatchResult)  (* success: true *)
| NeedsReview (matchResult : MatchResult)                (* needsReview: true *)
| Unmatched (paymentData : PaymentData).                 (* unmatched: true *)

Definition processPayment (paymentData : PaymentData) : M ProcessResult :=
  matchResult <- matchPaymentToOrder paymentData ;;
  match order matchResult with
  | Some o =>
      if 70 <=? confidence matchResult then
        (* High confidence match - auto-confirm *)
        mark_paid (o_id o) None ;;;
        insert_event (MkEvent (Some (o_id o)) payment_auto_matched
                        (EvMatch (confidence matchResult) (matchType matchResult)
                                 paymentData)) ;;;
        e <- read_env ;;
        (if EMAIL_ENABLED e && truthy_str (customer_email o) then
           match customer_email o with
           | Some to => sendPaymentConfirmation to
           | None => ret tt
           end
         else ret tt) ;;;
        ret (AutoConfirmed o matchResult)
      else if 50 <=? confidence matchResult then
        (* Low confidence - flag for review but don't auto-confirm *)
        insert_event (MkEvent (Some (o_id o)) payment_needs_review
                        (EvMatch (confidence matchResult) (matchType matchResult)
                                 paymentData)) ;;;
        sendAdminAlert (MkAlert alert_warning PaymentNeedsReview) ;;;
        ret (NeedsReview matchResult)
      else
        insert_unmatched (MkUnmatched (amountCents paymentData)
                            (senderEmail paymentData) (senderName paymentData)
                            (referenceCode paymentData)
                            (ReasonTier (matchType matchResult))) ;;;
        sendAdminAlert (MkAlert alert_error UnmatchedPaymentAlert) ;;;
        ret (Unmatched paymentData)
  | None =>
      (* No match - log as unmatched *)
      insert_unmatched (MkUnmatched (amountCents paymentData)
                          (senderEmail paymentData) (senderName paymentData)
                          (referenceCode paymentData)
                          (ReasonTier (matchType matchResult))) ;;;
      sendAdminAlert (MkAlert alert_error UnmatchedPaymentAlert) ;;;
      ret (Unmatched paymentData)
  end.

End Matching.

(* ===================================================================== *)
(** ** Scheduler  (services/scheduler.js)                                  *)
(* ===================================================================== *)

Module Scheduler.

(** [WHERE status = 'pending' AND created_at < ?] *)
Definition expired (e : Env) (oneDayAgo : Z) (o : Order) : bool :=
  status_eqb (status o) pending && created_before e (created_at o) oneDayAgo.

(** [UPDATE orders SET status = 'cancelled', updated_at = CURRENT_TIMESTAMP
     WHERE status = 'pending' AND created_at < ?]; resolves to the number of
    rows changed. *)
Definition cancel_expired (e : Env) (oneDayAgo : Z) : M Z :=
  store (fun t d =>
    Some (Z.of_nat (length (filter (expired e oneDayAgo) (orders d))),
          with_orders d
            (map (fun o => if expired e oneDayAgo o
                           then set_status o cancelled t (paid_at o)
                           else o)
                 (orders d)))).

Definition cleanupExpiredOrders : M Z :=
  try_catch
    (e <- read_env ;;
     t <- Date_now ;;
     let oneDayAgo := t - 24 * 60 * 60 * 1000 in
     changes <- cancel_expired e oneDayAgo ;;
     (* result?.changes || 0: in production db.query resolves to the rows of
        the statement, which carry no [changes] *)
     ret (if isProduction e then 0 else changes))
    (fun _ => ret 0).

End Scheduler.

(* ===================================================================== *)
(** ** Webhooks  (routes/webhooks.js, POST /payment-confirmed)             *)
(* ===================================================================== *)

Module Webhooks.

(** Headers and body of the request. *)
Record ConfirmRequest : Type := MkConfirmRequest {
  x_webhook_secret : option string;
  req_reference_number : option string;
  req_order_id : option Z;
  req_amount : option Q;
  sender_email : option string;
  sender_name : option string;
  transaction_id : option string;
  confirmed_at : option Z
}.

Inductive Response : Type :=
| Unauthorized401
| NotFound404
| Ok200 (id : Z) (reference : string) (st : order_status)
| Error500.

(** [secret === process.env.WEBHOOK_SECRET] *)
Definition verifyWebhookSecret (e : Env) (req : ConfirmRequest) : bool :=
  match x_webhook_secret req, WEBHOOK_SECRET e with
  | Some s, Some s' => String.eqb s s'
  | None, None => true
  | _, _ => false
  end.

(** [x || null] on a text of the request. *)
Definition or_null (x : option string) : option string :=
  if truthy_str x then x else None.

(** The handler.  The UPDATE of a confirmed order also rewrites the column
    [metadata], from [JSON.parse(order.metadata || '{}')]; that column is not
    part of the model, and the answer 200 stands for the case in which the
    parse returns, as it does on the SQLite store for the JSON text this
    program writes (on the production store the driver hands the JSONB value
    over already parsed, and parsing an object again throws, which ends in
    the answer 500 with nothing written). *)
Definition payment_confirmed_handler (req : ConfirmRequest) : M Response :=
  try_catch
    (e <- read_env ;;
     (* Verify webhook secret *)
     if truthy_str (WEBHOOK_SECRET e) && negb (verifyWebhookSecret e req)
     then ret Unauthorized401
     else
       (* Find order by reference or ID *)
       found <-
         (if truthy_str (req_reference_number req) then
            select (fun d =>
              match req_reference_number req with
              | Some ref => find (fun o => String.eqb (reference_number o) ref) (orders d)
              | None => None
              end)
          else
            match req_order_id req with
            | Some i => if i =? 0 then ret None
                        else select (fun d => find (fun o => o_id o =? i) (orders d))
            | None => ret None
            end) ;;
       match found with
       | None =>
           (* Log as unmatched payment *)
           Matching.insert_unmatched
             (MkUnmatched
                (match req_amount req with
                 | Some a => if Qeq_bool (fl a) 0 then Val 0
                             else Val (Math_round (mul (fl a) 100))
                 | None => Val 0
                 end)
                (or_null (sender_email req)) (or_null (sender_name req))
                (or_null (req_reference_number req))
                ReasonOrderNotFound) ;;;
           ret NotFound404
       | Some o =>
           (* Update order status *)
           Matching.mark_paid (o_id o) (confirmed_at req) ;;;
           (* Log event *)
           Matching.insert_event
             (MkEvent (Some (o_id o)) payment_confirmed
                (EvConfirmed (sender_email req) (sender_name req) (transaction_id req))) ;;;
           (* Send confirmation email *)
           (if EMAIL_ENABLED e && truthy_str (customer_email o) then
              match customer_email o with
              | Some to => sendPaymentConfirmation to
              | None => ret tt
              end
            else ret tt) ;;;
           (* updateWooCommerceOrder: a request to another server, not
              awaited, which touches nothing of this store *)
           ret (Ok200 (o_id o) (reference_number o) paid)
       end)
    (fun _ => ret Error500).

End Webhooks.

(* ===================================================================== *)
(** ** Order creation  (routes/orders.js, POST /api/orders)                *)
(* ===================================================================== *)

Module Orders.

(** The body of the request; [amount] is a JSON number. *)
Record CreateRequest : Type := MkCreateRequest {
  body_woo_order_id : option string;
  body_customer_email : option string;
  body_customer_name : option string;
  body_customer_phone : option string;
  body_amount : option Q;
  body_currency : option string;
  body_payment_email : option string
}.

Inductive Response : Type :=
| BadRequest400
| Created201 (id : option Z) (reference : string) (amountCents : Z)
| Error500.

(** [parseInt] of a number whose decimal form is plain (no exponent, i.e.
    zero or [1e-6 <= |x| < 1e21]): its integer part. *)
Definition parseInt (x : Q) : Z := trunc x.

(** The numbers whose decimal form is plain. *)
Definition plain_decimal (x : Q) : Prop :=
  (x == 0 \/ ((1 # 1000000) <= Qabs x /\ Qabs x < inject_Z (10 ^ 21)))%Q.

(** [Number.prototype.toString(36)] of a non-negative integer, upper-cased. *)
Definition digit36 (n : Z) : ascii :=
  if n <? 10 then ascii_of_nat (Z.to_nat (48 + n))
  else ascii_of_nat (Z.to_nat (55 + n)).
Fixpoint base36_digits (fuel : nat) (n : Z) (acc : list ascii) : list ascii :=
  match fuel with
  | O => acc
  | S fuel' =>
      if n <? 36 then digit36 n :: acc
      else base36_digits fuel' (n / 36) (digit36 (n mod 36) :: acc)
  end.
Definition toString36 (n : Z) : string :=
  string_of_list_ascii (base36_digits (S (Z.to_nat (Z.log2 n))) n []).

(** [generateReferenceNumber]; [random] is the text drawn from
    [Math.random]. *)
Definition generateReferenceNumber (t : Z) (random : string) : string :=
  ("ORD-" ++ toString36 t ++ random)%string.

(** The conversion of the request's amount to cents. *)
Definition amount_to_cents (amount : Q) : Z :=
  let amountCents := parseInt amount in
  if amountCents <? 100 then
    (* Assume it's in dollars, convert to cents *)
    Math_round (mul amount 100)
  else amountCents.

(** [INSERT INTO orders (...)]: [id] from the sequence, timestamps by
    default, [reference_number] unique. *)
Definition insert_order (ref : string) (req : CreateRequest) (cents : Z)
           (paymentEmail : option string) (expiresAt : Z) : M Order :=
  store (fun t d =>
    if existsb (fun o => String.eqb (reference_number o) ref) (orders d) then None
    else
      let o := MkOrder (orders_seq d + 1) ref (body_woo_order_id req)
                       (body_customer_email req) (body_customer_name req)
                       (body_customer_phone req) cents
                       (match body_currency req with Some c => c | None => "CAD"%string end)
                       pending paymentEmail t t None (Some expiresAt) in
      Some (o, with_new_order d o)).

Definition create_order_handler (random : string) (req : CreateRequest) : M Response :=
  try_catch
    (match body_amount req with
     | None => ret BadRequest400
     | Some amount0 =>
         (* JSON.parse reads the numeral into a double *)
         let amount := fl amount0 in
         (* Validate required fields *)
         if negb (truthy_str (body_customer_email req)) || Qeq_bool amount 0
         then ret BadRequest400
         else
           (* Convert amount to cents if needed *)
           let amountCents := amount_to_cents amount in
           t <- Date_now ;;
           let referenceNumber := generateReferenceNumber t random in
           let expiresAt := t + 15 * 60 * 1000 in
           (* Get payment email from rotation system (or use provided) *)
           paymentEmailToUse <-
             (if truthy_str (body_payment_email req) then ret (body_payment_email req)
              else
                rotationInfo <- Rotation.getNextPaymentEmail ;;
                ret (Rotation.email rotationInfo)) ;;
           o <- insert_order referenceNumber req amountCents paymentEmailToUse expiresAt ;;
           e <- read_env ;;
           (* result.insertId || result[0]?.id: the rows of an INSERT are
              empty in production *)
           let orderId := if isProduction e then None else Some (o_id o) in
           Matching.insert_event (MkEvent orderId order_created (EvCreated "api")) ;;;
           (if EMAIL_ENABLED e then
              match body_customer_email req with
              | Some to => sendOrderConfirmation to
              | None => ret tt
              end
            else ret tt) ;;;
           ret (Created201 orderId referenceNumber amountCents)
     end)
    (fun _ => ret Error500).

End Orders.

From Stdlib Require Import DecimalString.

(* ===================================================================== *)
(** ** Query helpers  (config/database.js, the placeholders of [query] and [get]) *)
(* ===================================================================== *)

Module Database.

(** [pgSql.includes('?')] *)
Definition includes_qmark (s : list ascii) : bool := existsb (is_char "?") s.

(** [pgSql.replace('?', r)]: the first occurrence only.  The replacement
    text ["$" + n] stands for itself, there being no capture to refer to. *)
Fixpoint replace_first (r : list ascii) (s : list ascii) : list ascii :=
  match s with
  | [] => []
  | a :: s' => if is_char "?" a then r ++ s' else a :: replace_first r s'
  end.

(** ['$' + paramIndex] *)
Definition dollar (paramIndex : nat) : list ascii :=
  "$"%char :: list_ascii_of_string (NilEmpty.string_of_uint (Nat.to_uint paramIndex)).

(** [while (pgSql.includes('?')) { pgSql = pgSql.replace('?', '$' + paramIndex);
     paramIndex++; }] *)
Fixpoint placeholders_loop (fuel : nat) (pgSql : list ascii) (paramIndex : nat)
  : list ascii :=
  match fuel with
  | O => pgSql
  | S fuel' =>
      if includes_qmark pgSql
      then placeholders_loop fuel' (replace_first (dollar paramIndex) pgSql)
                             (S paramIndex)
      else pgSql
  end.

(** The loop started as in the source: [pgSql = sql], [paramIndex = 1]. *)
Definition to_pg (sql : list ascii) : list ascii :=
  placeholders_loop (length sql) sql 1.

End Database.

(* ===================================================================== *)
(** ** Rotation status and administration  (services/rotation.js)          *)
(* ===================================================================== *)

Module RotationAdmin.

Import Rotation.

(** One entry of [rotation_order]. *)
Record RingEntry : Type := MkRingEntry {
  position : Z;
  entry_email : string;
  entry_bank : option string;
  is_current : bool
}.

(** What [getRotationStatus] resolves to. *)
Inductive RotationStatus : Type :=
| StatusInactive                        (* active: false, 'No aliases configured' *)
| StatusError                           (* active: false, error *)
| StatusActive (current_email : option string)     (* [None]: 'None' *)
               (current_bank : option string)      (* [None]: 'Unknown' *)
               (orders_on_current : option Z)
               (orders_until_rotation : Z)
               (total_aliases : Z)
               (active_aliases : Z)
               (rotation_order : list RingEntry).

(** [a.id === state.current_alias_id] *)
Definition is_alias (cur : option Z) (a : Alias) : bool :=
  match cur with
  | Some c => a_id a =? c
  | None => false
  end.

Fixpoint ring_entries (cur : option Z) (i : Z) (l : list Alias) : list RingEntry :=
  match l with
  | [] => []
  | a :: l' =>
      MkRingEntry (i + 1) (alias_email a) (bank_name a) (is_alias cur a)
      :: ring_entries cur (i + 1) l'
  end.

Definition getRotationStatus : M RotationStatus :=
  try_catch
    (state <- select rotation_state ;;
     aliases <- select_active_ring ;;
     totalAliases <- select (fun d => Z.of_nat (length (email_aliases d))) ;;
     match state, aliases with
     | None, _ | _, [] => ret StatusInactive
     | Some st, _ :: _ =>
         let currentAlias := find (is_alias (current_alias_id st)) aliases in
         ret (StatusActive
                (match currentAlias with
                 | Some a => if truthy_str (Some (alias_email a))
                             then Some (alias_email a) else None
                 | None => None
                 end)
                (match currentAlias with
                 | Some a => if truthy_str (bank_name a) then bank_name a else None
                 | None => None
                 end)
                (order_count st)
                (ORDERS_PER_ROTATION
                 - match order_count st with Some n => n | None => 0 end)
                totalAliases
                (Z.of_nat (length aliases))
                (ring_entries (current_alias_id st) 0 aliases))
     end)
    (fun _ => ret StatusError).

(** What [forceRotate] and [resetRotation] resolve to. *)
Inductive AdminResult : Type :=
| NoActiveAliases                         (* success: false, 'No active aliases' *)
| AdminError                              (* success: false, error *)
| Rotated (new_email : string) (new_bank : option string)
| ResetDone (current_email : option string).     (* [None]: 'None' *)

(** [UPDATE rotation_state SET current_alias_id = ?, order_count = 0,
     updated_at = CURRENT_TIMESTAMP WHERE id = 1] *)
Definition restart_rotation (aliasId : option Z) : M unit :=
  store (fun t d =>
    Some (tt, with_rotation d
      (option_map (fun r => MkRotationState aliasId (Some 0) (total_orders r) t)
                  (rotation_state d)))).

Definition forceRotate : M AdminResult :=
  try_catch
    (aliases <- select_active_ring ;;
     match aliases with
     | [] => ret NoActiveAliases
     | _ :: _ =>
         state <- select rotation_state ;;
         (* state?.current_alias_id *)
         let cur := match state with Some st => current_alias_id st | None => None end in
         let currentIndex := findIndex (is_alias cur) aliases in
         let nextIndex := Z.rem (currentIndex + 1) (Z.of_nat (length aliases)) in
         match nth_error aliases (Z.to_nat nextIndex) with
         | Some nextAlias =>
             restart_rotation (Some (a_id nextAlias)) ;;;
             ret (Rotated (alias_email nextAlias) (bank_name nextAlias))
         | None => throw TypeError
         end
     end)
    (fun _ => ret AdminError).

Definition resetRotation : M AdminResult :=
  try_catch
    (* SELECT * FROM email_aliases WHERE active = 1 ORDER BY id ASC LIMIT 1 *)
    (firstAlias <- select_first_active ;;
     (* firstAlias?.id || null *)
     restart_rotation
       (match firstAlias with
        | Some a => if a_id a =? 0 then None else Some (a_id a)
        | None => None
        end) ;;;
     ret (ResetDone (match firstAlias with
                     | Some a => if truthy_str (Some (alias_email a))
                                 then Some (alias_email a) else None
                     | None => None
                     end)))
    (fun _ => ret AdminError).

End RotationAdmin.

(* ===================================================================== *)
(** ** Daily limits  (services/scheduler.js, resetDailyLimits)             *)
(* ===================================================================== *)

Module DailyLimits.

Definition clear_total (a : Alias) : Alias :=
  MkAlias (a_id a) (alias_email a) (bank_name a) (bank_slug a) (active a)
          (daily_cap_cents a) 0 (weight a) (last_used_at a).

(** [UPDATE email_aliases SET daily_total_cents = 0]; an error is logged and
    dropped. *)
Definition resetDailyLimits : M unit :=
  try_catch
    (store (fun _ d => Some (tt, with_aliases d (map clear_total (email_aliases d)))))
    (fun _ => ret tt).

End DailyLimits.

(* ===================================================================== *)
(** ** Order routes  (routes/orders.js: formatAmount and DELETE /:id)      *)
(* ===================================================================== *)

Module OrderRoutes.

(** Decimal digits of a natural number. *)
Definition decimal (n : N) : string := NilZero.string_of_uint (N.to_uint n).

(** [Number.prototype.toFixed(2)] of a number below [1e21]: with [n] the
    integer for which [n / 100 - x] is closest to zero (the larger one of
    two), the digits of [n], at least three of them, with a point before the
    last two; a minus sign in front of a negative number. *)
Definition toFixed2 (x : Q) : string :=
  let ax := Qabs x in
  let n := Z.to_N (Qfloor (ax * 100 + (1 # 2))) in
  let cents := (n mod 100)%N in
  ((if Qlt_le_dec x 0 then "-" else "")
   ++ decimal (n / 100)%N ++ "."
   ++ (if (cents <? 10)%N then "0" else "") ++ decimal cents)%string.

(** [(cents / 100).toFixed(2)] *)
Definition formatAmount (cents : Z) : string :=
  toFixed2 (fl (fl (inject_Z cents) / 100)).

Inductive Response : Type :=
| Deleted200                      (* 'Order deleted successfully' *)
| NotFound404
| NotDeletable400                 (* 'Can only delete pending or cancelled orders' *)
| Error500.

(** [DELETE FROM orders WHERE id = ?].  [payment_events.order_id REFERENCES
    orders(id)]: the production store (PostgreSQL) rejects the deletion of an
    order that an event refers to; the SQLite store, opened without
    [PRAGMA foreign_keys], does not check the reference. *)
Definition referenced (id : Z) (d : Db) : bool :=
  existsb (fun ev => match ev_order_id ev with
                     | Some i => i =? id
                     | None => false
                     end)
          (payment_events d).

Definition delete_order (id : Z) : M unit :=
  e <- read_env ;;
  store (fun _ d =>
    if isProduction e && referenced id d then None
    else Some (tt, with_orders d (filter (fun o => negb (o_id o =? id)) (orders d)))).

(** [DELETE /api/orders/:id] *)
Definition delete_order_handler (id : Z) : M Response :=
  try_catch
    ((* Check if order exists *)
     found <- select (fun d => find (fun o => o_id o =? id) (orders d)) ;;
     match found with
     | None => ret NotFound404
     | Some o =>
         (* Only allow deletion of pending orders *)
         if negb (status_eqb (status o) pending)
            && negb (status_eqb (status o) cancelled)
         then ret NotDeletable400
         else delete_order id ;;; ret Deleted200
     end)
    (fun _ => ret Error500).

End OrderRoutes.

(* ===================================================================== *)
(** ** Vocabulary of the properties                                        *)
(* ===================================================================== *)

Module Vocabulary.

Import Rotation.

(** The row update of [touch_alias]:
    [UPDATE email_aliases SET last_used_at = CURRENT_TIMESTAMP WHERE id = ?]. *)
Definition stamp (id t : Z) (a : Alias) : Alias :=
  if a_id a =? id then set_last_used a t else a.

(** The row update of [mark_paid] without a given [paid_at]. *)
Definition pay (id t : Z) (x : Order) : Order :=
  if o_id x =? id then set_status x paid t (Some t) else x.

(** The rotation state after [p + 1] selections from a fresh start, over a
    ring with the ids [ids], on the SQLite store. *)
Definition on_schedule (ids : list Z) (p : nat) (w : World) : Prop :=
  fuse w = None /\
  isProduction (env w) = false /\
  map a_id (active_ring (db w)) = ids /\
  exists r,
    rotation_state (db w) = Some r /\
    current_alias_id r = nth_error ids ((p / 20) mod length ids) /\
    order_count r = Some (Z.of_nat (p mod 20) + 1).

(** Successive selections, one per created order: the alias ids they
    return ([None] for the default assignment) and the final world. *)
Fixpoint select_many (n : nat) (w : World) : list (option Z) * World :=
  match n with
  | O => ([], w)
  | S n' =>
      let '(r, w1) := getNextPaymentEmail w in
      let '(ids, w2) := select_many n' w1 in
      (match r with Ok a => alias_id a | Throw _ => None end :: ids, w2)
  end.

(** Numbering the placeholders in one pass: the [k]-th [?] of a statement
    becomes [$k], counting from [k0]. *)
Fixpoint number_placeholders (s : list ascii) (k0 : nat) : list ascii :=
  match s with
  | [] => []
  | a :: s' =>
      if is_char "?" a then Database.dollar k0 ++ number_placeholders s' (S k0)
      else a :: number_placeholders s' k0
  end.

(** Two versions of a row of [orders] with the same identity: the id, the
    reference, the WooCommerce id, the customer, the amount, the currency,
    the payment e-mail, [created_at] and [expires_at] are equal.  Nothing is
    said of the other columns. *)
Definition same_identity (o o' : Order) : Prop :=
  o_id o' = o_id o /\
  reference_number o' = reference_number o /\
  woo_order_id o' = woo_order_id o /\
  customer_email o' = customer_email o /\
  customer_name o' = customer_name o /\
  customer_phone o' = customer_phone o /\
  amount_cents o' = amount_cents o /\
  currency o' = currency o /\
  payment_email o' = payment_email o /\
  created_at o' = created_at o /\
  expires_at o' = expires_at o.

End Vocabulary.

(* ===================================================================== *)
(** ** Sample data                                                         *)
(* ===================================================================== *)

Module Scenario.

Definition alias (i : Z) (mail : string) (on : bool) : Alias :=
  MkAlias i mail None None on 500000 0 1 None.

Definition A : Alias := alias 1 "payments-td@yourstore.com" true.
Definition B : Alias := alias 2 "payments-rbc@yourstore.com" true.
Definition C : Alias := alias 3 "payments-bmo@yourstore.com" true.
Definition D : Alias := alias 4 "payments-old@yourstore.com" false.

Definition env0 : Env :=
  MkEnv (Some "payments@yourstore.com"%string) (Some "DS Payment"%string)
        false (Some "admin@yourstore.com"%string) None false.

Definition T0 : Z := 1700000000000.

(** The ring [A; B; C] with rotation state [{currentAlias: cur, count: n}]. *)
Definition db_rotation (cur : Z) (n : Z) : Db :=
  MkDb [] 0 [] [A; B; C; D] []
       (Some (MkRotationState (Some cur) (Some n) 0 0)).

Definition world (d : Db) (f : option nat) : World :=
  MkWorld d T0 env0 f [] [].

Definition order_row (i : Z) (ref : string) (mail : string) (cents : Z)
           (st : order_status) (created : Z) : Order :=
  MkOrder i ref None (Some mail) None None cents "CAD" st None created created
          None (Some (created + 900000)).

Definition db_orders (os : list Order) : Db :=
  MkDb os (Z.of_nat (length os)) [] [A; B; C; D] [] None.

Definition notification (cents : Z) (mail ref : option string) : PaymentData :=
  MkPaymentData (Val (inject_Z cents / 100)%Q) (Val cents) mail None ref None true.

(** Orders of the ledger used in the examples. *)
Definition o1 : Order :=
  order_row 1 "ORD-AB12CD" "alice@example.com" 300000 pending (T0 - 600000).
Definition o2 : Order :=
  order_row 2 "ORD-LX01" "bob@example.com" 500000 pending (T0 - 300000).
Definition o3 : Order :=
  order_row 3 "ORD-LX02" "carol@example.com" 500000 awaiting_payment (T0 - 600000).
Definition o4 : Order :=
  order_row 4 "ORD-LX03" "dave@example.com" 500000 cancelled (T0 - 600000).
(** Open, but two hours old. *)
Definition o5 : Order :=
  order_row 5 "ORD-LX04" "erin@example.com" 700000 pending (T0 - 7200000).
(** Pending for 25 hours; awaiting payment for 48 hours. *)
Definition o6 : Order :=
  order_row 6 "ORD-LX05" "frank@example.com" 120000 pending (T0 - 90000000).
Definition o7 : Order :=
  order_row 7 "ORD-LX06" "grace@example.com" 120000 awaiting_payment (T0 - 172800000).

Definition confirm_by_reference (ref : string) : Webhooks.ConfirmRequest :=
  Webhooks.MkConfirmRequest None (Some ref) None None
    (Some "dave@example.com"%string) None None None.

Definition create_request (amount : Q) : Orders.CreateRequest :=
  Orders.MkCreateRequest None (Some "alice@example.com"%string) None None
    (Some amount) None None.

End Scenario.

(** More sample data. *)
Module Samples.

Import Scenario.

(** A store whose aliases are all disabled, without a rotation state row. *)
Definition db_no_ring : Db :=
  MkDb [] 0 [] [D] [] None.

(** The environment of a production deployment (PostgreSQL). *)
Definition env_pg : Env :=
  MkEnv (Some "payments@yourstore.com"%string) (Some "DS Payment"%string)
        false (Some "admin@yourstore.com"%string) None true.

Definition world_pg (d : Db) (f : option nat) : World :=
  MkWorld d T0 env_pg f [] [].

(** A world of the SQLite store at the instant [t]. *)
Definition world_at (t : Z) (d : Db) : World :=
  MkWorld d t env0 None [] [].

(** Midnight (UTC) of 15 November 2023. *)
Definition midnight : Z := 1700006400000.

(** Pending, created six minutes before that midnight. *)
Definition o8 : Order :=
  order_row 8 "ORD-LX07" "heidi@example.com" 120000 pending (midnight - 360000).

End Samples.

(* ===================================================================== *)
(** * Properties                                                          *)
(* ===================================================================== *)

Import Rotation Matching Scheduler Webhooks Orders Scenario.

(* ===================================================================== *)
(** ** Rounding to binary64 *)
(* ===================================================================== *)

Section Binary64.

Lemma scaled_nonpos (a d e : Z) :
  e <= 0 -> scaled_num a e = a * 2 ^ (- e) /\ scaled_den d e = d.
Proof.
  intros He. unfold scaled_num, scaled_den.
  destruct (Z.leb_spec 0 e) as [H|H].
  - assert (e = 0) by lia. subst e. simpl. split; lia.
  - split; reflexivity.
Qed.

Lemma ulp_exp_nonpos (a d : Z) :
  0 < a -> 0 < d -> a < 2 ^ 53 * d -> ulp_exp a d <= 0.
Proof.
  intros Ha Hd Hlt. unfold ulp_exp.
  pose proof (Z.log2_spec a Ha) as [La Ua].
  pose proof (Z.log2_spec d Hd) as [Ld Ud].
  pose proof (Z.log2_nonneg a) as Na.
  pose proof (Z.log2_nonneg d) as Nd.
  set (la := Z.log2 a) in *. set (ld := Z.log2 d) in *.
  assert (Hla : la < 54 + ld).
  { apply (Z.pow_lt_mono_r_iff 2); [lia | lia |].
    replace (54 + ld) with (53 + Z.succ ld) by lia.
    rewrite Z.pow_add_r by lia.
    eapply Z.le_lt_trans; [exact La|].
    eapply Z.lt_trans; [exact Hlt|].
    apply Z.mul_lt_mono_pos_l; [apply Z.pow_pos_nonneg; lia | exact Ud]. }
  destruct (Z.ltb_spec (scaled_num a (la - ld - 52) / scaled_den d (la - ld - 52)) (2 ^ 52)) as [H|H].
  - lia.
  - destruct (Z.le_gt_cases (la - ld - 52) 0) as [H0|H0]; [exact H0|].
    exfalso. assert (E : la - ld - 52 = 1) by lia. rewrite E in H.
    unfold scaled_num, scaled_den in H.
    change (0 <=? 1) with true in H. cbv iota in H.
    change (2 ^ 1) with 2 in H.
    assert (a / (d * 2) < 2 ^ 52); [|lia].
    apply Z.div_lt_upper_bound; [lia|].
    change (2 ^ 53) with (2 * 2 ^ 52) in Hlt. lia.
Qed.

Lemma exponent_le (a d j : Z) :
  ulp_exp a d <= - j -> j <= 1074 -> exponent a d <= - j.
Proof. unfold exponent. lia. Qed.

Lemma round_half_even_ge (n d : Z) : n / d <= round_half_even n d.
Proof.
  unfold round_half_even.
  destruct ((d <? 2 * (n mod d)) || ((d =? 2 * (n mod d)) && Z.odd (n / d))); lia.
Qed.

Lemma round_half_even_exact (n : Z) : round_half_even n 1 = n.
Proof.
  unfold round_half_even. rewrite Z.mod_1_r, Z.div_1_r. reflexivity.
Qed.

Lemma fl_compat (p q : Q) : p == q -> fl p = fl q.
Proof.
  intros H. unfold fl. rewrite (Qred_complete _ _ H). reflexivity.
Qed.

Lemma pow2Q_nonpos (e : Z) : e <= 0 -> pow2Q e == 1 # Z.to_pos (2 ^ (- e)).
Proof.
  intros He. unfold pow2Q. destruct (Z.leb_spec 0 e) as [H|H]; [|reflexivity].
  assert (e = 0) by lia. subst e. reflexivity.
Qed.

Lemma fl_nonpos_exp (q : Q) (e : Z) :
  0 < Qnum (Qred q) -> exponent (Qnum (Qred q)) (Zpos (Qden (Qred q))) = e -> e <= 0 ->
  fl q == inject_Z (round_half_even (Qnum (Qred q) * 2 ^ (- e)) (Zpos (Qden (Qred q))))
          * (1 # Z.to_pos (2 ^ (- e))).
Proof.
  intros Hn He Hle. unfold fl.
  destruct (Z.eqb_spec (Qnum (Qred q)) 0) as [H0|H0]; [lia|].
  rewrite (Z.abs_eq (Qnum (Qred q))) by lia.
  rewrite He. rewrite Z.sgn_pos by lia.
  destruct (scaled_nonpos (Qnum (Qred q)) (Zpos (Qden (Qred q))) e Hle) as [-> ->].
  rewrite Qred_correct, Z.mul_1_l. rewrite (pow2Q_nonpos e Hle). reflexivity.
Qed.

(** Rounding never goes below an integer that the exact value reaches. *)
Lemma fl_ge_int (k : Z) (q : Q) :
  0 <= k -> (inject_Z k <= q)%Q -> (q < inject_Z (2 ^ 53))%Q -> (inject_Z k <= fl q)%Q.
Proof.
  intros Hk Hle Hlt.
  rewrite <- (Qred_correct q) in Hle, Hlt.
  remember (Qred q) as q' eqn:Eq. destruct q' as [n d].
  unfold Qle in Hle. unfold Qlt in Hlt. simpl in Hle, Hlt.
  destruct (Z.eq_dec n 0) as [Hz|Hz].
  - unfold fl. rewrite <- Eq. simpl. subst n. simpl.
    unfold Qle. simpl. lia.
  - assert (Hn : 0 < n) by lia.
    assert (He : exponent n (Zpos d) <= 0).
    { apply (exponent_le n (Zpos d) 0); [apply ulp_exp_nonpos|]; lia. }
    rewrite (fl_nonpos_exp q (exponent n (Zpos d))); rewrite <- ?Eq; simpl; try lia; try reflexivity.
    set (e := exponent n (Zpos d)) in *.
    assert (HP : 0 < 2 ^ (- e)) by (apply Z.pow_pos_nonneg; lia).
    pose proof (round_half_even_ge (n * 2 ^ (- e)) (Zpos d)) as Hr.
    assert (Hd : k * 2 ^ (- e) <= n * 2 ^ (- e) / Zpos d).
    { apply Z.div_le_lower_bound; [lia|]. nia. }
    unfold Qle. simpl. rewrite Z2Pos.id by lia. nia.
Qed.

(** Safe integers are exact. *)
Lemma fl_int (z : Z) : safe_integer z -> fl (inject_Z z) == inject_Z z.
Proof.
  unfold safe_integer. intros Hs.
  assert (Ered : Qred (inject_Z z) = inject_Z z).
  { apply Qred_identity. simpl. apply Z.gcd_1_r. }
  destruct (Z.eq_dec z 0) as [Hz|Hz].
  - subst z. reflexivity.
  - unfold fl. rewrite Ered. cbn [Qnum Qden inject_Z].
    destruct (Z.eqb_spec z 0) as [H0|H0]; [lia|].
    assert (He : exponent (Z.abs z) 1 <= 0)
      by (apply (exponent_le (Z.abs z) 1 0); [apply ulp_exp_nonpos|]; lia).
    destruct (scaled_nonpos (Z.abs z) 1 _ He) as [-> ->].
    rewrite round_half_even_exact.
    etransitivity; [apply Qred_correct|].
    rewrite (pow2Q_nonpos _ He).
    set (e := exponent (Z.abs z) 1) in *.
    assert (HP : 0 < 2 ^ (- e)) by (apply Z.pow_pos_nonneg; lia).
    unfold Qeq. simpl. rewrite Z2Pos.id by lia.
    rewrite !Z.mul_1_r.
    rewrite Z.mul_assoc. rewrite (Z.mul_comm (Z.sgn z)), Z.abs_sgn. reflexivity.
Qed.

Lemma c_0_01_value : c_0_01 = (5764607523034235 # 576460752303423488)%Q.
Proof. vm_compute. reflexivity. Qed.

End Binary64.

(* ===================================================================== *)
(** ** Lists *)
(* ===================================================================== *)

Section ListFacts.

Context {A B : Type}.

Lemma findIndex_from_bounds (p : A -> bool) (l : list A) (i : Z) :
  findIndex_from p l i = -1 \/
  (i <= findIndex_from p l i < i + Z.of_nat (length l)).
Proof.
  revert i. induction l as [|x l IH]; intros i; simpl; [now left|].
  destruct (p x).
  - right. lia.
  - destruct (IH (i + 1)) as [H|H]; [now left | right; lia].
Qed.

Lemma next_index_in_range (p : A -> bool) (l : list A) :
  l <> [] ->
  exists a, nth_error l (Z.to_nat (Z.rem (findIndex p l + 1) (Z.of_nat (length l)))) = Some a.
Proof.
  intros Hl.
  assert (Hlen : 0 < Z.of_nat (length l)) by (destruct l; [congruence | simpl; lia]).
  assert (Hb : 0 <= findIndex p l + 1).
  { unfold findIndex. destruct (findIndex_from_bounds p l 0); lia. }
  pose proof (Z.rem_bound_pos _ _ Hb Hlen) as Hr.
  destruct (nth_error l (Z.to_nat (Z.rem (findIndex p l + 1) (Z.of_nat (length l))))) eqn:E.
  - eauto.
  - apply nth_error_None in E. lia.
Qed.

Lemma findIndex_from_absent (p : A -> bool) (l : list A) (k : Z) :
  (forall x, In x l -> p x = false) -> findIndex_from p l k = -1.
Proof.
  revert k. induction l as [|x l IH]; intros k H; simpl; [reflexivity|].
  rewrite (H x (or_introl eq_refl)). apply IH. intros y Hy. apply H. now right.
Qed.

Lemma find_hit (p : A -> bool) (l : list A) (x : A) :
  In x l -> p x = true -> exists y, find p l = Some y /\ p y = true.
Proof.
  intros Hin Hp. destruct (find p l) as [y|] eqn:E.
  - exists y. split; [reflexivity|]. now apply find_some in E.
  - pose proof (find_none _ _ E x Hin). congruence.
Qed.

Lemma filter_nil (p : A -> bool) (l : list A) :
  (forall x, In x l -> p x = false) -> filter p l = [].
Proof.
  induction l as [|x l IH]; intros H; simpl; [reflexivity|].
  rewrite (H x (or_introl eq_refl)). apply IH. intros y Hy. apply H. now right.
Qed.

Lemma filter_one (p : A -> bool) (l : list A) (x : A) :
  In x l -> p x = true -> (1 <= length (filter p l))%nat.
Proof.
  intros Hin Hp. assert (H : In x (filter p l)) by (apply filter_In; auto).
  destruct (filter p l); [contradiction | simpl; lia].
Qed.

Lemma filter_two (p : A -> bool) (l : list A) (i j : nat) (x y : A) :
  i <> j -> nth_error l i = Some x -> nth_error l j = Some y ->
  p x = true -> p y = true -> (2 <= length (filter p l))%nat.
Proof.
  revert i j. induction l as [|z l IH]; intros i j Hij Hi Hj Hx Hy.
  - destruct i; discriminate.
  - destruct i as [|i], j as [|j]; simpl in Hi, Hj; simpl.
    + congruence.
    + injection Hi as ->. rewrite Hx. simpl.
      pose proof (filter_one p l y (nth_error_In _ _ Hj) Hy). lia.
    + injection Hj as ->. rewrite Hy. simpl.
      pose proof (filter_one p l x (nth_error_In _ _ Hi) Hx). lia.
    + assert (Hij' : i <> j) by congruence.
      pose proof (IH i j Hij' Hi Hj Hx Hy).
      destruct (p z); simpl; lia.
Qed.

Lemma Forall2_map_self (R : A -> A -> Prop) (f : A -> A) (l : list A) :
  (forall x, In x l -> R x (f x)) -> Forall2 R l (map f l).
Proof.
  induction l as [|x l IH]; intros H; simpl; constructor.
  - apply H. now left.
  - apply IH. intros y Hy. apply H. now right.
Qed.

Lemma Forall2_refl (R : A -> A -> Prop) (l : list A) :
  (forall x, R x x) -> Forall2 R l l.
Proof. intros H. induction l; constructor; auto. Qed.

Lemma NoDup_map_eq (f : A -> B) (l : list A) (x y : A) :
  NoDup (map f l) -> In x l -> In y l -> f x = f y -> x = y.
Proof.
  induction l as [|z l IH]; intros Hnd Hx Hy E; [contradiction|].
  simpl in Hnd. inversion Hnd as [|? ? Hnotin Hnd']; subst.
  destruct Hx as [->|Hx], Hy as [->|Hy]; auto.
  - exfalso. apply Hnotin. rewrite E. now apply in_map.
  - exfalso. apply Hnotin. rewrite <- E. now apply in_map.
Qed.

End ListFacts.

Lemma next_index_nat (i len : nat) :
  (0 < len)%nat ->
  Z.to_nat (Z.rem (Z.of_nat i + 1) (Z.of_nat len)) = ((i + 1) mod len)%nat.
Proof.
  intros Hlen. rewrite Z.rem_mod_nonneg by lia.
  replace (Z.of_nat i + 1) with (Z.of_nat (i + 1)) by lia.
  rewrite <- Nat2Z.inj_mod. apply Nat2Z.id.
Qed.


(* ===================================================================== *)
(** ** Running the store monad *)
(* ===================================================================== *)

(** Name the components of a world. *)
Ltac world w := destruct w as [?d ?t ?e ?f ?al ?ob]; cbn [db now env fuse alerts outbox] in *; subst.

(** Case analysis on the first match whose scrutinee is free of matches. *)
Ltac break_match :=
  match goal with
  | |- context [match ?x with _ => _ end] =>
      lazymatch x with
      | context [match _ with _ => _ end] => fail
      | _ => destruct x eqn:?
      end
  | H : context [match ?x with _ => _ end] |- _ =>
      lazymatch x with
      | context [match _ with _ => _ end] => fail
      | _ => destruct x eqn:?
      end
  end.

Ltac brute :=
  repeat (break_match; unfold store in *;
          cbn [fuse db now env option_map with_db fst snd Nat.pred] in *;
          try discriminate).


(* ===================================================================== *)
(** ** Alias rotation *)
(* ===================================================================== *)

Lemma findIndex_from_nth (l : list Alias) (i : nat) (cur : Alias) (k : Z) :
  NoDup (map a_id l) -> nth_error l i = Some cur ->
  findIndex_from (fun a => a_id a =? a_id cur) l k = k + Z.of_nat i.
Proof.
  revert i k. induction l as [|x l IH]; intros i k Hnd Hnth.
  - destruct i; discriminate.
  - simpl in Hnd. inversion Hnd as [|? ? Hnotin Hnd']; subst.
    destruct i as [|i]; simpl in Hnth.
    + injection Hnth as ->. simpl. rewrite Z.eqb_refl. lia.
    + simpl. destruct (Z.eqb_spec (a_id x) (a_id cur)) as [E|E].
      * exfalso. apply Hnotin. rewrite E. apply in_map.
        eapply nth_error_In; eauto.
      * rewrite (IH i (k + 1) Hnd' Hnth). lia.
Qed.

(** Use what is known of the store engine. *)
Ltac engine :=
  repeat match goal with
         | H : isProduction _ = _ |- _ => rewrite H
         end.

Ltac run_rotation :=
  unfold getNextPaymentEmail, try_catch, getNextPaymentEmail_try,
    select_active_ring, select_first_active, bind, select,
    store, read_env, ret, throw, update_rotation_state, touch_alias,
    insert_rotation_state;
  cbn [fuse db now env option_map with_db]; engine.

Ltac run_rotation_in H :=
  unfold getNextPaymentEmail_try, select_active_ring, select_first_active,
    bind, select, store, read_env, ret, throw,
    update_rotation_state, touch_alias, insert_rotation_state in H;
  cbn [fuse db now env option_map with_db] in H.

Ltac rotation_cases Hring :=
  cbn [fuse db now env option_map with_db with_rotation rotation_state
       email_aliases active_ring fst snd current_alias_id order_count];
  try (unfold active_ring in *; cbn [email_aliases with_rotation] in * );
  engine; rewrite Hring; cbn [fst snd];
  match goal with
  | |- context [ORDERS_PER_ROTATION <=? ?n] =>
      destruct (Z.leb_spec ORDERS_PER_ROTATION n) as [Hrot|Hrot]
  end;
  [ match goal with
    | |- context [nth_error ?l (Z.to_nat (Z.rem (findIndex ?p ?l + 1) _))] =>
        let a := fresh "nxt" in let Ha := fresh "Hnxt" in
        destruct (next_index_in_range p l ltac:(discriminate)) as [a Ha];
        rewrite Ha
    end
  | ];
  cbn [fst snd];
  match goal with
  | |- context [find ?p ?l] => destruct (find p l) eqn:Efind
  end;
  unfold store;
  cbn [fuse db now env option_map with_db with_rotation with_aliases
       rotation_state email_aliases fst snd].

(** C1 (as amended).  On the SQLite store, a selection from a non-empty ring
    that meets no store failure persists, together with the alias it returns,
    a counter that is at most [ORDERS_PER_ROTATION]: the bound is reached, it
    is not strict.  Below the threshold the current alias is kept and the
    counter incremented, so the state [{A, 19}] yields alias [A] and persists
    [{A, 20}]; at the threshold the next alias of the ring (wrapping around)
    is returned and the counter restarts at 1. *)
Theorem rotation_count_at_most_threshold (w : World) (first : Alias) (rest : list Alias) :
  fuse w = None ->
  isProduction (env w) = false ->
  active_ring (db w) = first :: rest ->
  exists (a : Assignment) (w' : World) (r : RotationState) (c : Z),
    getNextPaymentEmail w = (Ok a, w') /\
    rotation_state (db w') = Some r /\
    order_count r = Some c /\
    c <= ORDERS_PER_ROTATION /\
    current_alias_id r = alias_id a /\
    (forall (r0 : RotationState) (n : Z) (i : nat) (cur : Alias),
        rotation_state (db w) = Some r0 ->
        current_alias_id r0 = Some (a_id cur) -> a_id cur <> 0 ->
        order_count r0 = Some n ->
        NoDup (map a_id (first :: rest)) ->
        nth_error (first :: rest) i = Some cur ->
        (n < ORDERS_PER_ROTATION -> alias_id a = Some (a_id cur) /\ c = n + 1) /\
        (ORDERS_PER_ROTATION <= n ->
         exists nxt,
           nth_error (first :: rest) ((i + 1) mod length (first :: rest)) = Some nxt /\
           alias_id a = Some (a_id nxt) /\ c = 1)).
Proof.
  intros Hf Hp Hring. world w. run_rotation.
  destruct (rotation_state d) as [r0|] eqn:Er.
  - rotation_cases Hring.
    all: rewrite ?Er; cbn [option_map].
    all: eexists _, _, _, _; split; [reflexivity|].
    all: cbn [db rotation_state with_rotation with_aliases]; split; [reflexivity|].
    all: cbn [order_count]; split; [reflexivity|].
    all: unfold ORDERS_PER_ROTATION in *; split; [lia|].
    all: cbn [current_alias_id alias_id].
    all: try (apply find_some in Efind as Hfound; destruct Hfound as [Hin Heq];
              apply Z.eqb_eq in Heq).
    + (* rotated, next alias found *)
      split; [congruence|].
      intros r1 n i cur Hr1 Hcur Hnz Hn Hnd Hnth. injection Hr1 as <-.
      rewrite Hcur, Hn in *. apply Z.eqb_neq in Hnz. rewrite Hnz in Hnxt.
      split; [lia|]. intros _. exists nxt. split; [|split; [congruence | lia]].
      unfold findIndex in Hnxt. rewrite (findIndex_from_nth _ i cur 0 Hnd Hnth) in Hnxt.
      rewrite Z.add_0_l, next_index_nat in Hnxt by (simpl; lia). exact Hnxt.
    + (* rotated, next alias not found: impossible *)
      exfalso. apply nth_error_In in Hnxt.
      destruct (find_hit (fun a => a_id a =? a_id nxt) _ nxt Hnxt (Z.eqb_refl _))
        as [y [Hy _]]. congruence.
    + (* below the threshold, current alias found *)
      split; [congruence|].
      intros r1 n i cur Hr1 Hcur Hnz Hn Hnd Hnth. injection Hr1 as <-.
      rewrite Hcur, Hn in *. apply Z.eqb_neq in Hnz. rewrite Hnz in *.
      split; [intros _; split; [congruence | reflexivity] | lia].
    + (* below the threshold, current alias disabled *)
      split; [reflexivity|].
      intros r1 n i cur Hr1 Hcur Hnz Hn Hnd Hnth. injection Hr1 as <-.
      rewrite Hcur, Hn in *. apply Z.eqb_neq in Hnz. rewrite Hnz in *.
      exfalso. apply nth_error_In in Hnth.
      destruct (find_hit (fun a => a_id a =? a_id cur) _ cur Hnth (Z.eqb_refl _))
        as [y [Hy _]]. congruence.
  - unfold store; cbn [fuse db now env option_map with_db rotation_state].
    rewrite Er. unfold store; cbn [fuse db now env option_map with_db rotation_state].
    rotation_cases Hring.
    all: cbn [option_map].
    all: eexists _, _, _, _; split; [reflexivity|].
    all: cbn [db rotation_state with_rotation with_aliases]; split; [reflexivity|].
    all: cbn [order_count]; split; [reflexivity|].
    all: unfold ORDERS_PER_ROTATION in *; split; [lia|].
    all: cbn [current_alias_id alias_id].
    all: try (apply find_some in Efind as Hfound; destruct Hfound as [Hin Heq];
              apply Z.eqb_eq in Heq).
    all: (split; [congruence|]); intros; discriminate.
Qed.

(** The theorem at the state [{A, 19}] with ring [A; B; C]. *)
Lemma rotation_count_witness :
  fuse (world (db_rotation 1 19) None) = None /\
  active_ring (db_rotation 1 19) = [A; B; C] /\
  exists a w' r c,
    getNextPaymentEmail (world (db_rotation 1 19) None) = (Ok a, w') /\
    rotation_state (db w') = Some r /\ order_count r = Some c /\
    c <= ORDERS_PER_ROTATION /\ current_alias_id r = alias_id a.
Proof.
  split; [reflexivity|]. split; [reflexivity|].
  destruct (rotation_count_at_most_threshold
              (world (db_rotation 1 19) None) A [B; C] eq_refl eq_refl eq_refl)
    as (a & w' & r & c & H1 & H2 & H3 & H4 & H5 & _).
  exists a, w', r, c. repeat split; assumption.
Defined.

(** C1 as stated fails: from [{A, 19}] with ring [A; B; C] the selection
    returns [A] (not [B]) and persists the counter 20, which is not below the
    threshold. *)
Lemma rotation_count_reaches_threshold :
  exists a w' r,
    getNextPaymentEmail (world (db_rotation 1 19) None) = (Ok a, w') /\
    alias_id a = Some (a_id A) /\
    rotation_state (db w') = Some r /\
    current_alias_id r = Some (a_id A) /\
    order_count r = Some 20 /\
    ~ (20 < ORDERS_PER_ROTATION).
Proof.
  eexists _, _, _. split; [vm_compute; reflexivity|].
  repeat split; try reflexivity. unfold ORDERS_PER_ROTATION. lia.
Qed.

(** The rotation happens one call later: from [{A, 20}] the selection
    returns [B] and persists [{B, 1}]. *)
Example rotation_advances_after_threshold :
  exists a w' r,
    getNextPaymentEmail (world (db_rotation 1 20) None) = (Ok a, w') /\
    alias_id a = Some (a_id B) /\
    rotation_state (db w') = Some r /\
    current_alias_id r = Some (a_id B) /\
    order_count r = Some 1.
Proof.
  eexists _, _, _. split; [vm_compute; reflexivity|]. repeat split; reflexivity.
Qed.

(** X28.  On the SQLite store, when the alias the rotation state points to
    is absent from a non-empty active ring, the next selection returns the
    first alias of the ring and persists the counter 1, whatever the counter
    was (below or at the threshold); it does not fail.  Alias ids are issued
    by the store's sequence and are not 0. *)
Theorem rotation_self_heals (w : World) (r0 : RotationState) (X : Z)
        (first : Alias) (rest : list Alias) :
  fuse w = None ->
  isProduction (env w) = false ->
  rotation_state (db w) = Some r0 ->
  current_alias_id r0 = Some X -> X <> 0 ->
  active_ring (db w) = first :: rest ->
  ~ In X (map a_id (first :: rest)) ->
  exists (a : Assignment) (w' : World) (r : RotationState),
    getNextPaymentEmail w = (Ok a, w') /\
    email a = Some (alias_email first) /\
    alias_id a = Some (a_id first) /\
    rotation_state (db w') = Some r /\
    current_alias_id r = Some (a_id first) /\
    order_count r = Some 1.
Proof.
  intros Hf Hp Er Hcur Hnz Hring Habs. world w. run_rotation.
  rewrite Er. rotation_cases Hring.
  all: rewrite ?Er; cbn [option_map].
  all: rewrite Hcur in *; apply Z.eqb_neq in Hnz; rewrite Hnz in *.
  all: try (apply find_some in Efind as Hfound; destruct Hfound as [Hin Heq];
            apply Z.eqb_eq in Heq).
  - (* rotated: findIndex is -1, the next index is 0 *)
    unfold findIndex in Hnxt. rewrite findIndex_from_absent in Hnxt.
    2:{ intros x Hx. apply Z.eqb_neq. intros E. apply Habs. rewrite <- E.
        now apply in_map. }
    cbn in Hnxt. injection Hnxt as <-.
    cbn in Efind. rewrite Z.eqb_refl in Efind. injection Efind as <-.
    eexists _, _, _. repeat split; reflexivity.
  - exfalso. apply nth_error_In in Hnxt.
    destruct (find_hit (fun a => a_id a =? a_id nxt) _ nxt Hnxt (Z.eqb_refl _))
      as [y [Hy _]]. congruence.
  - exfalso. apply Habs. rewrite <- Heq. now apply in_map.
  - eexists _, _, _. repeat split; reflexivity.
Qed.

(** The theorem with the disabled alias [D] current and the counter at the
    threshold. *)
Lemma rotation_self_heals_witness :
  exists a w' r,
    getNextPaymentEmail (world (db_rotation 4 20) None) = (Ok a, w') /\
    email a = Some (alias_email A) /\
    alias_id a = Some (a_id A) /\
    rotation_state (db w') = Some r /\
    current_alias_id r = Some (a_id A) /\
    order_count r = Some 1.
Proof.
  apply (rotation_self_heals (world (db_rotation 4 20) None)
           (MkRotationState (Some 4) (Some 20) 0 0) 4 A [B; C]);
    try reflexivity.
  - discriminate.
  - cbn. intros [H|[H|[H|[]]]]; discriminate.
Defined.


(** The selection leaves the environment as it was. *)
Lemma getNextPaymentEmail_try_env (w w1 : World) (r : outcome Assignment) :
  getNextPaymentEmail_try w = (r, w1) -> env w1 = env w.
Proof.
  world w. intros H. run_rotation_in H. brute.
  all: injection H as <- <-; reflexivity.
Qed.

(** A failure before the first write leaves the rotation state as it was. *)
Lemma getNextPaymentEmail_try_early_failure
      (w w1 : World) (e : error) (k : nat) :
  getNextPaymentEmail_try w = (Throw e, w1) ->
  fuse w = Some k ->
  (k <= 1)%nat \/ ((k <= 2)%nat /\ rotation_state (db w) <> None) ->
  rotation_state (db w1) = rotation_state (db w).
Proof.
  world w. intros H Hk Hearly. subst f.
  run_rotation_in H.
  destruct k as [|[|[|k]]]; [| | |lia].
  all: brute.
  all: try (injection H as <- <-; cbn; congruence).
  all: try (exfalso; destruct Hearly as [?|[? ?]]; [lia | congruence]).
Qed.

(** C9 (as amended).  [getNextPaymentEmail] never throws; whenever its [try]
    block raises an error it returns the default assignment
    ([DEFAULT_PAYMENT_EMAIL], [alias_id = null]).  The persisted rotation
    state is then unchanged if the failing call comes before the first write
    to it: the first or second store call, or the third when the state row
    exists. *)
Theorem rotation_failure_falls_back (w : World) :
  (exists a w', getNextPaymentEmail w = (Ok a, w')) /\
  (forall e w1,
      getNextPaymentEmail_try w = (Throw e, w1) ->
      getNextPaymentEmail w = (Ok (default_assignment (env w)), w1) /\
      (forall k,
          fuse w = Some k ->
          (k <= 1)%nat \/ ((k <= 2)%nat /\ rotation_state (db w) <> None) ->
          rotation_state (db w1) = rotation_state (db w))).
Proof.
  split.
  - unfold getNextPaymentEmail, try_catch, bind, read_env, ret.
    destruct (getNextPaymentEmail_try w) as [[a|e] w1]; eauto.
  - intros e w1 Htry. split.
    + unfold getNextPaymentEmail, try_catch, bind, read_env, ret. rewrite Htry.
      now rewrite (getNextPaymentEmail_try_env _ _ _ Htry).
    + intros k Hk Hearly. eapply getNextPaymentEmail_try_early_failure; eauto.
Qed.

(** The theorem when the third store call (the UPDATE of the state) is
    rejected. *)
Lemma rotation_failure_witness :
  exists w1,
    getNextPaymentEmail_try (world (db_rotation 1 5) (Some 2%nat)) = (Throw StoreError, w1) /\
    getNextPaymentEmail (world (db_rotation 1 5) (Some 2%nat))
      = (Ok (default_assignment env0), w1) /\
    rotation_state (db w1) = rotation_state (db_rotation 1 5).
Proof.
  eexists. split; [vm_compute; reflexivity|].
  destruct (proj2 (rotation_failure_falls_back (world (db_rotation 1 5) (Some 2%nat)))
              StoreError _ eq_refl) as [H1 H2].
  split; [exact H1|].
  apply (H2 2%nat eq_refl). right. split; [lia | discriminate].
Defined.

(** C9 as stated fails: when the last store call (the stamp of
    [last_used_at]) is rejected, the default assignment is returned although
    the rotation state has already been advanced from 5 to 6. *)
Lemma rotation_failure_changes_state :
  exists w',
    getNextPaymentEmail (world (db_rotation 1 5) (Some 3%nat))
      = (Ok (default_assignment env0), w') /\
    rotation_state (db w') = Some (MkRotationState (Some 1) (Some 6) 0 T0) /\
    rotation_state (db w') <> rotation_state (db_rotation 1 5).
Proof.
  eexists. split; [vm_compute; reflexivity|]. split; [reflexivity|]. discriminate.
Qed.

(** The selection does not touch the orders. *)
Lemma getNextPaymentEmail_frame (w w1 : World) (r : outcome Assignment) :
  getNextPaymentEmail w = (r, w1) ->
  orders (db w1) = orders (db w) /\ orders_seq (db w1) = orders_seq (db w) /\
  now w1 = now w /\ env w1 = env w.
Proof.
  world w. intros H.
  unfold getNextPaymentEmail, try_catch in H. run_rotation_in H.
  unfold bind, read_env, ret in H. brute.
  all: injection H as <- <-; cbn; auto.
Qed.


(* ===================================================================== *)
(** ** Matching engine *)
(* ===================================================================== *)

(** The tolerance test accepts every difference within 1% of the order's
    amount: [0.01] is rounded up, and the product is rounded to a value that
    is not below the integer difference. *)
Lemma within_tolerance_one_percent (a n : Z) :
  safe_integer a -> safe_integer n ->
  100 * Z.abs (a - n) <= a ->
  within_tolerance a (Val n) = true.
Proof.
  intros Ha Hn Hpct. unfold safe_integer in *.
  assert (Hd : safe_integer (a - n)) by (unfold safe_integer; lia).
  unfold within_tolerance, to_number, sub, mul, Math_abs.
  apply Qle_bool_iff.
  rewrite (fl_compat (fl (inject_Z a) - fl (inject_Z n)) (inject_Z (a - n))).
  2:{ rewrite (fl_int a Ha), (fl_int n Hn). unfold Zminus.
      rewrite inject_Z_plus, inject_Z_opp. reflexivity. }
  rewrite (fl_compat (fl (inject_Z a) * c_0_01) (inject_Z a * c_0_01)).
  2:{ rewrite (fl_int a Ha). reflexivity. }
  rewrite (fl_int (a - n) Hd).
  change (Qabs (inject_Z (a - n))) with (inject_Z (Z.abs (a - n))).
  apply fl_ge_int.
  - lia.
  - rewrite c_0_01_value. unfold Qle, Qmult, inject_Z. simpl Qnum. simpl Qden.
    lia.
  - rewrite c_0_01_value. unfold Qlt, Qmult, inject_Z. simpl Qnum. simpl Qden.
    change (2 ^ 53) with 9007199254740992 in *. lia.
Qed.

Lemma find_unique_reference (l : list Order) (o : Order) :
  NoDup (map reference_number l) -> In o l -> is_open (status o) = true ->
  find (by_reference (reference_number o)) l = Some o.
Proof.
  induction l as [|x l IH]; intros Hnd Hin Hopen; [contradiction|].
  simpl in Hnd. inversion Hnd as [|? ? Hnotin Hnd']; subst.
  simpl. unfold by_reference at 1.
  destruct Hin as [->|Hin].
  - now rewrite String.eqb_refl, Hopen.
  - destruct (String.eqb_spec (reference_number x) (reference_number o)) as [E|E].
    + exfalso. apply Hnotin. rewrite E. now apply in_map.
    + simpl. now apply IH.
Qed.

Lemma truthy_str_nonempty (s : string) : s <> EmptyString -> truthy_str (Some s) = true.
Proof.
  intros H. unfold truthy_str. now destruct (String.eqb_spec s EmptyString).
Qed.

Lemma most_recent_in (l : list Order) (o : Order) :
  most_recent l = Some o -> In o l.
Proof.
  revert o. induction l as [|x l IH]; intros o H; simpl in H; [discriminate|].
  destruct (most_recent l) as [o'|].
  - destruct (created_at x <? created_at o'); injection H as <-.
    + right. now apply IH.
    + now left.
  - injection H as <-. now left.
Qed.

Lemma most_recent_some (l : list Order) :
  l <> [] -> exists o, most_recent l = Some o.
Proof.
  destruct l as [|x l]; [congruence|]. intros _. simpl.
  destruct (most_recent l) as [o'|]; [destruct (created_at x <? created_at o')|]; eauto.
Qed.

Lemma by_open_filter (p : Order -> bool) (l : list Order) (o : Order) :
  (forall x, p x = true -> is_open (status x) = true) ->
  most_recent (filter p l) = Some o -> In o l /\ is_open (status o) = true.
Proof.
  intros Hp H. apply most_recent_in, filter_In in H as [Hin Ho]. auto.
Qed.

Ltac run_match :=
  unfold matchPaymentToOrder, bind, select, store, ret, read_env, Date_now;
  cbn [fuse db now env option_map with_db].

Ltac step_match :=
  unfold store; cbn [fuse db now env option_map with_db].

Ltac run_match_in H :=
  unfold matchPaymentToOrder, bind, select, store, ret, read_env, Date_now in H;
  cbn [fuse db now env option_map with_db] in H.

Ltac run_process :=
  unfold processPayment, bind, mark_paid, insert_event, insert_unmatched,
    sendAdminAlert, sendPaymentConfirmation, sendEmail, read_env, ret, store;
  cbn [fuse db now env alerts outbox option_map with_db with_alert with_mail].

(** C2.  If the parsed reference is the reference of an order in status
    pending or awaiting_payment and the parsed amount differs from the
    order's amount by at most 1% of the order's amount, the matching engine
    returns that order with confidence 100 and match type
    reference_and_amount, whatever else the ledger holds.  References are
    unique in the ledger and both amounts are safe integers. *)
Theorem reference_match_has_confidence_100
        (w : World) (pd : PaymentData) (n : Z) (o : Order) :
  fuse w = None ->
  referenceCode pd = Some (reference_number o) ->
  reference_number o <> EmptyString ->
  amountCents pd = Val n ->
  In o (orders (db w)) ->
  is_open (status o) = true ->
  NoDup (map reference_number (orders (db w))) ->
  safe_integer (amount_cents o) -> safe_integer n ->
  100 * Z.abs (amount_cents o - n) <= amount_cents o ->
  matchPaymentToOrder pd w
  = (Ok (MkMatchResult (Some o) 100 reference_and_amount None), w).
Proof.
  intros Hf Href Hne Hamt Hin Hopen Hnd Hsa Hsn Hpct. world w. run_match.
  rewrite Href, Hamt, (truthy_str_nonempty _ Hne). step_match.
  rewrite (find_unique_reference _ _ Hnd Hin Hopen).
  rewrite (within_tolerance_one_percent _ _ Hsa Hsn Hpct).
  reflexivity.
Qed.

(** The theorem on the scenario of the specification: order amount 300000,
    notification amount 299700. *)
Lemma reference_match_witness :
  matchPaymentToOrder (notification 299700 None (Some "ORD-AB12CD"%string))
                      (world (db_orders [o1; o2; o3]) None)
  = (Ok (MkMatchResult (Some o1) 100 reference_and_amount None),
     world (db_orders [o1; o2; o3]) None).
Proof.
  apply (reference_match_has_confidence_100
           (world (db_orders [o1; o2; o3]) None)
           (notification 299700 None (Some "ORD-AB12CD"%string)) 299700 o1).
  - reflexivity.
  - reflexivity.
  - discriminate.
  - reflexivity.
  - simpl. auto.
  - reflexivity.
  - simpl. repeat constructor; simpl; intuition discriminate.
  - reflexivity.
  - reflexivity.
  - simpl. lia.
Defined.

(** C3.  The claim fails on the SQLite store.  The two open orders [o2] and
    [o3] of 500000 cents were created five and ten minutes before the
    notification, on the same day; the text of their [created_at] is below the
    ISO text of the bound, so the tier of recent orders finds nothing and the
    amount-only tier resolves the payment to the younger one, which
    [processPayment] then flags for review. *)
Theorem recent_equal_amounts_are_resolved_on_sqlite :
  (amount_cents o2 = 500000 /\ is_open (status o2) = true /\
   created_at o2 = T0 - 5 * 60 * 1000) /\
  (amount_cents o3 = 500000 /\ is_open (status o3) = true /\
   created_at o3 = T0 - 10 * 60 * 1000) /\
  matchPaymentToOrder (notification 500000 None None)
                      (world (db_orders [o1; o2; o3]) None)
  = (Ok (MkMatchResult (Some o2) 50 amount_only None),
     world (db_orders [o1; o2; o3]) None) /\
  fst (processPayment (notification 500000 None None)
                      (world (db_orders [o1; o2; o3]) None))
  = Ok (NeedsReview (MkMatchResult (Some o2) 50 amount_only None)).
Proof. repeat split; vm_compute; reflexivity. Qed.

(** X30.  For a notification with a parsed (non-zero) amount, for which the
    reference tier and the sender-email tier find nothing, two open orders of
    exactly that amount whose [created_at] passes the store's test
    [created_at >= thirtyMinutesAgo] make the engine answer [order = null],
    confidence 50, [multiple_matches]; the amount-only tier is not
    consulted. *)
Theorem ambiguous_amount_is_not_resolved
        (w : World) (pd : PaymentData) (a : Z) (i j : nat) (oi oj : Order) :
  fuse w = None ->
  amountCents pd = Val a -> a <> 0 ->
  (forall ref o, referenceCode pd = Some ref -> In o (orders (db w)) ->
                 by_reference ref o = true ->
                 within_tolerance (amount_cents o) (Val a) = false) ->
  (forall o, In o (orders (db w)) ->
             by_email_amount (Val a) (senderEmail pd) o = false) ->
  i <> j ->
  nth_error (orders (db w)) i = Some oi -> nth_error (orders (db w)) j = Some oj ->
  amount_cents oi = a -> amount_cents oj = a ->
  is_open (status oi) = true -> is_open (status oj) = true ->
  created_since (env w) (created_at oi) (now w - 30 * 60 * 1000) = true ->
  created_since (env w) (created_at oj) (now w - 30 * 60 * 1000) = true ->
  exists c,
    matchPaymentToOrder pd w
    = (Ok (MkMatchResult None 50 multiple_matches (Some c)), w) /\ 2 <= c.
Proof.
  intros Hf. world w.
  intros Hamt Hnz Hnoref Hnomail Hij Hi Hj Hai Haj Hoi Hoj Hti Htj.
  run_match. rewrite Hamt.
  assert (Htruthy : truthy_num (Val a) = true).
  { unfold truthy_num. now apply Z.eqb_neq in Hnz as ->. }
  assert (Hrecent : forall o, amount_cents o = a -> is_open (status o) = true ->
                              created_since e (created_at o) (t - 30 * 60 * 1000) = true ->
                              by_amount_recent e (Val a) (t - 30 * 60 * 1000) o = true).
  { intros o Ha Ho Ht. unfold by_amount_recent, amount_is.
    rewrite Ha, Z.eqb_refl, Ho, Ht. reflexivity. }
  pose proof (filter_two _ _ i j oi oj Hij Hi Hj
                (Hrecent oi Hai Hoi Hti) (Hrecent oj Haj Hoj Htj)) as Hlen.
  set (recent := filter (by_amount_recent e (Val a) (t - 30 * 60 * 1000)) (orders d)) in *.
  pose proof (filter_nil _ _ Hnomail) as Femail.
  destruct (most_recent_some recent) as [o' Frecent].
  { intros E. rewrite E in Hlen. simpl in Hlen. lia. }
  assert (Fcnt : (Z.of_nat (length recent) =? 1) = false) by (apply Z.eqb_neq; lia).
  assert (Ftier1 :
    forall ref, referenceCode pd = Some ref ->
      match find (by_reference ref) (orders d) with
      | Some o => within_tolerance (amount_cents o) (Val a)
      | None => false
      end = false).
  { intros ref Href.
    destruct (find (by_reference ref) (orders d)) as [o|] eqn:Ef; [|reflexivity].
    apply find_some in Ef as [Hin Hby]. eauto. }
  exists (Z.of_nat (length recent)). split; [|lia].
  destruct (referenceCode pd) as [ref|] eqn:Eref;
    [specialize (Ftier1 ref eq_refl);
     destruct (truthy_str (Some ref)); step_match;
     [destruct (find (by_reference ref) (orders d)); [rewrite Ftier1|]|]
    | cbn [truthy_str] ].
  all: rewrite Htruthy, Bool.andb_true_r.
  all: destruct (truthy_str (senderEmail pd)).
  all: repeat (step_match; cbn [most_recent]; fold recent;
               rewrite ?Femail, ?Frecent, ?Fcnt, ?Bool.andb_false_r).
  all: reflexivity.
Qed.

(** The theorem on two open orders of 500000 created five minutes apart, on
    the production store. *)
Lemma ambiguous_amount_witness :
  exists c,
    matchPaymentToOrder (notification 500000 None None)
                        (Samples.world_pg (db_orders [o1; o2; o3]) None)
    = (Ok (MkMatchResult None 50 multiple_matches (Some c)),
       Samples.world_pg (db_orders [o1; o2; o3]) None) /\ 2 <= c.
Proof.
  apply (ambiguous_amount_is_not_resolved
           (Samples.world_pg (db_orders [o1; o2; o3]) None)
           (notification 500000 None None) 500000 1 2 o2 o3);
    try reflexivity; try discriminate.
  all: try (intros o [<-|[<-|[<-|[]]]]; reflexivity).
  all: try (simpl; lia).
Defined.

(** The matching engine only reads. *)
Lemma matchPaymentToOrder_reads_only (w w1 : World) (pd : PaymentData)
      (r : outcome MatchResult) :
  fuse w = None -> matchPaymentToOrder pd w = (r, w1) -> w1 = w.
Proof.
  intros Hf. world w. intros H. run_match_in H. brute.
  all: injection H as <- <-; reflexivity.
Qed.

(** An order returned by the matching engine is in the ledger and open. *)
Lemma matchPaymentToOrder_open (w w1 : World) (pd : PaymentData)
      (mr : MatchResult) (o : Order) :
  fuse w = None -> matchPaymentToOrder pd w = (Ok mr, w1) ->
  order mr = Some o ->
  In o (orders (db w)) /\ is_open (status o) = true.
Proof.
  intros Hf. world w. intros H Ho. run_match_in H. brute.
  all: injection H as <- <-; cbn [order] in Ho; try discriminate.
  all: injection Ho as <-.
  all: try (match goal with E : find _ _ = Some ?x |- In ?x _ /\ _ =>
              apply find_some in E as [Hin Hby]; split; [exact Hin|];
              unfold by_reference in Hby; now apply andb_prop in Hby end).
  all: eapply by_open_filter; [|eassumption]; intros x Hx;
       unfold by_email_amount, by_amount_recent, by_amount in Hx;
       repeat (apply andb_prop in Hx as [Hx ?]); auto.
Qed.


(* ===================================================================== *)
(** ** Disposition and the transition to paid *)
(* ===================================================================== *)

(** A result without an order and of confidence 50 or more comes from the
    tier of recent orders, which is tried for a parsed amount only. *)
Lemma ambiguous_result_has_amount (w w1 : World) (pd : PaymentData)
      (mr : MatchResult) :
  fuse w = None -> matchPaymentToOrder pd w = (Ok mr, w1) ->
  order mr = None -> 50 <= confidence mr ->
  exists n, amountCents pd = Val n.
Proof.
  intros Hf. world w. intros H Ho Hc. run_match_in H. brute.
  all: injection H as <- <-; cbn [order confidence] in *; try discriminate; try lia.
  all: destruct (amountCents pd); try discriminate; eauto.
Qed.

(** C4 (as amended).  For a match result of confidence in [50, 70),
    [processPayment] leaves every order as it was.  If the result carries an
    order (amount_only) it appends a [payment_needs_review] event for it and
    raises the warning alert, and records nothing as unmatched.  If it
    carries none (multiple_matches) it appends no event, records the payment
    in [unmatched_payments] with the tier as reason and raises the
    unmatched-payment alert. *)
Theorem low_confidence_disposition
        (w w1 : World) (pd : PaymentData) (mr : MatchResult) :
  fuse w = None ->
  matchPaymentToOrder pd w = (Ok mr, w1) ->
  50 <= confidence mr < 70 ->
  exists res w',
    processPayment pd w = (Ok res, w') /\
    orders (db w') = orders (db w) /\
    match order mr with
    | Some o =>
        res = NeedsReview mr /\
        payment_events (db w')
        = payment_events (db w)
            ++ [MkEvent (Some (o_id o)) payment_needs_review
                        (EvMatch (confidence mr) (matchType mr) pd)] /\
        unmatched_payments (db w') = unmatched_payments (db w) /\
        alerts w' = alerts w ++ [MkAlert alert_warning PaymentNeedsReview]
    | None =>
        res = Unmatched pd /\
        payment_events (db w') = payment_events (db w) /\
        unmatched_payments (db w')
        = unmatched_payments (db w)
            ++ [MkUnmatched (amountCents pd) (senderEmail pd) (senderName pd)
                            (referenceCode pd) (ReasonTier (matchType mr))] /\
        alerts w' = alerts w ++ [MkAlert alert_error UnmatchedPaymentAlert]
    end.
Proof.
  intros Hf Hm Hc.
  pose proof (ambiguous_result_has_amount _ _ _ _ Hf Hm) as Hamt.
  pose proof (matchPaymentToOrder_reads_only _ _ _ _ Hf Hm) as ->.
  world w. unfold processPayment, bind. rewrite Hm.
  destruct (order mr) as [o|].
  - destruct (Z.leb_spec 70 (confidence mr)) as [H70|H70]; [lia|].
    destruct (Z.leb_spec 50 (confidence mr)) as [H50|H50]; [|lia].
    run_process.
    destruct (truthy_str (ADMIN_EMAIL e)), (ADMIN_EMAIL e), (EMAIL_ENABLED e);
      eexists _, _; repeat split; reflexivity.
  - destruct (Hamt eq_refl ltac:(lia)) as [n Hn].
    run_process. cbn [u_amount_cents]. rewrite Hn.
    cbn [fuse db now env alerts outbox option_map with_db with_alert with_mail].
    destruct (truthy_str (ADMIN_EMAIL e)), (ADMIN_EMAIL e), (EMAIL_ENABLED e);
      eexists _, _; repeat split; reflexivity.
Qed.

(** The theorem on an amount-only match. *)
Lemma low_confidence_witness :
  exists res w',
    processPayment (notification 700000 None None) (world (db_orders [o1; o5]) None)
    = (Ok res, w') /\
    orders (db w') = [o1; o5] /\
    res = NeedsReview (MkMatchResult (Some o5) 50 amount_only None) /\
    payment_events (db w')
    = [MkEvent (Some 5) payment_needs_review
               (EvMatch 50 amount_only (notification 700000 None None))] /\
    unmatched_payments (db w') = [] /\
    alerts w' = [MkAlert alert_warning PaymentNeedsReview].
Proof.
  destruct (low_confidence_disposition
              (world (db_orders [o1; o5]) None) (world (db_orders [o1; o5]) None)
              (notification 700000 None None)
              (MkMatchResult (Some o5) 50 amount_only None)
              eq_refl eq_refl ltac:(simpl; lia))
    as (res & w' & H1 & H2 & H3 & H4 & H5 & H6).
  exists res, w'. repeat split; assumption.
Defined.

(** C4 as stated fails on the ambiguous result: on the production store,
    with two recent open orders of the same amount, the payment is recorded
    as unmatched and no [payment_needs_review] event is appended. *)
Lemma ambiguous_match_is_recorded_unmatched :
  matchPaymentToOrder (notification 500000 None None)
                      (Samples.world_pg (db_orders [o1; o2; o3]) None)
  = (Ok (MkMatchResult None 50 multiple_matches (Some 2)),
     Samples.world_pg (db_orders [o1; o2; o3]) None) /\
  exists w',
    processPayment (notification 500000 None None)
                   (Samples.world_pg (db_orders [o1; o2; o3]) None)
    = (Ok (Unmatched (notification 500000 None None)), w') /\
    payment_events (db w') = [] /\
    unmatched_payments (db w')
    = [MkUnmatched (Val 500000) None None None (ReasonTier multiple_matches)] /\
    alerts w' = [MkAlert alert_error UnmatchedPaymentAlert].
Proof.
  split; [vm_compute; reflexivity|].
  eexists. split; [vm_compute; reflexivity|]. repeat split; reflexivity.
Qed.

(** C5 (as amended).  The transition to paid is an update by order id, with
    no condition on the status.  In [processPayment] the id is that of the
    order the matching lookup returned, which is open, so (ids being unique)
    an order changes only from an open status to paid.  In the
    payment-confirmed webhook the id is that of whatever order the reference
    or id resolves to, and every order with that id becomes paid whatever its
    status was. *)
Theorem paid_transition_targets
        (w : World) (pd : PaymentData) (req : ConfirmRequest) :
  fuse w = None ->
  NoDup (map o_id (orders (db w))) ->
  (forall res w',
      processPayment pd w = (Ok res, w') ->
      Forall2 (fun o o' =>
                 o' = o \/
                 (is_open (status o) = true /\
                  o' = set_status o paid (now w) (Some (now w))))
              (orders (db w)) (orders (db w'))) /\
  (forall id ref st w',
      payment_confirmed_handler req w = (Ok (Ok200 id ref st), w') ->
      st = paid /\
      (exists o, In o (orders (db w)) /\ o_id o = id) /\
      Forall2 (fun o o' =>
                 if o_id o =? id
                 then o' = set_status o paid (now w)
                              (Some (match confirmed_at req with
                                     | Some p => p
                                     | None => now w
                                     end))
                 else o' = o)
              (orders (db w)) (orders (db w'))).
Proof.
  intros Hf Hnd. split.
  - intros res w' H. unfold processPayment, bind in H.
    destruct (matchPaymentToOrder pd w) as [[mr|err] w1] eqn:Hm; [|discriminate].
    pose proof (matchPaymentToOrder_reads_only _ _ _ _ Hf Hm) as ->.
    assert (Hopen : forall o, order mr = Some o ->
                              In o (orders (db w)) /\ is_open (status o) = true).
    { intros o Ho. eapply matchPaymentToOrder_open; eauto. }
    world w.
    unfold mark_paid, insert_event, insert_unmatched, sendAdminAlert,
      sendPaymentConfirmation, sendEmail, read_env, ret, store, bind in H.
    cbn [fuse db now env alerts outbox option_map with_db with_alert with_mail] in H.
    destruct (order mr) as [o|].
    + destruct (Hopen o eq_refl) as [Hin Ho].
      destruct (70 <=? confidence mr); [|destruct (50 <=? confidence mr)].
      * assert (Hgoal :
          Forall2 (fun o0 o' => o' = o0 \/
                     (is_open (status o0) = true /\ o' = set_status o0 paid t (Some t)))
            (orders d)
            (map (fun x => if o_id x =? o_id o then set_status x paid t (Some t) else x)
                 (orders d))).
        { apply Forall2_map_self. intros x Hx.
          destruct (Z.eqb_spec (o_id x) (o_id o)) as [E|E]; [|now left].
          right. rewrite (NoDup_map_eq o_id _ x o Hnd Hx Hin E). auto. }
        brute; injection H as <- <-; exact Hgoal.
      * brute; injection H as <- <-; cbn; apply Forall2_refl; auto.
      * brute; injection H as <- <-; cbn; apply Forall2_refl; auto.
    + brute; injection H as <- <-; cbn; apply Forall2_refl; auto.
  - intros id ref st w' H. world w.
    unfold payment_confirmed_handler, try_catch, bind, mark_paid, insert_event,
      insert_unmatched, sendPaymentConfirmation, sendEmail, read_env, ret,
      select, store in H.
    cbn [fuse db now env alerts outbox option_map with_db with_alert with_mail] in H.
    brute.
    all: injection H as <- <- <- <-.
    all: split; [reflexivity|].
    all: match goal with E : find _ _ = Some ?x |- _ => apply find_some in E as [Hin Hby] end.
    all: split; [eexists; split; [exact Hin | reflexivity]|].
    all: cbn; apply Forall2_map_self; intros x Hx; destruct (o_id x =? _); reflexivity.
Qed.

(** The theorem on a confirmation of the pending order [o1]. *)
Lemma paid_transition_witness :
  exists w',
    payment_confirmed_handler (confirm_by_reference "ORD-AB12CD")
                              (world (db_orders [o1; o4]) None)
    = (Ok (Ok200 1 "ORD-AB12CD" paid), w') /\
    Forall2 (fun o o' =>
               if o_id o =? 1 then o' = set_status o paid T0 (Some T0) else o' = o)
            [o1; o4] (orders (db w')).
Proof.
  eexists. split; [vm_compute; reflexivity|].
  assert (Hnd : NoDup (map o_id (orders (db (world (db_orders [o1; o4]) None))))).
  { simpl. repeat constructor; simpl; intuition discriminate. }
  destruct (proj2 (paid_transition_targets
                     (world (db_orders [o1; o4]) None)
                     (notification 300000 None None)
                     (confirm_by_reference "ORD-AB12CD") eq_refl Hnd)
                  1 "ORD-AB12CD"%string paid _ eq_refl) as (_ & _ & H).
  exact H.
Defined.

(** C5 as stated fails: the webhook turns the cancelled order [o4] into a
    paid one. *)
Lemma webhook_pays_cancelled_order :
  status o4 = cancelled /\
  exists w',
    payment_confirmed_handler (confirm_by_reference "ORD-LX03")
                              (world (db_orders [o1; o4]) None)
    = (Ok (Ok200 4 "ORD-LX03" paid), w') /\
    orders (db w') = [o1; set_status o4 paid T0 (Some T0)].
Proof.
  split; [reflexivity|].
  eexists. split; [vm_compute; reflexivity|]. reflexivity.
Qed.


(* ===================================================================== *)
(** ** Scheduler *)
(* ===================================================================== *)

(** C8.  The claim fails on the SQLite store.  The source computes the bound
    [oneDayAgo] as an ISO text and lets the store compare it with
    [created_at]; SQLite compares the two texts, so every pending order
    created on the calendar day of the bound counts as older than 24 hours.
    Five minutes after midnight, a pending order of eleven minutes is
    cancelled.  (The same comparison decides the 30-minute window of the
    amount tier.) *)
Theorem cleanup_cancels_recent_order_on_sqlite :
  status Samples.o8 = pending /\
  created_at Samples.o8 = Samples.midnight + 300000 - 11 * 60 * 1000 /\
  cleanupExpiredOrders
    (Samples.world_at (Samples.midnight + 300000) (db_orders [Samples.o8]))
  = (Ok 1,
     Samples.world_at (Samples.midnight + 300000)
       (db_orders [set_status Samples.o8 cancelled
                     (Samples.midnight + 300000) None])).
Proof. repeat split; vm_compute; reflexivity. Qed.

(** What [cleanupExpiredOrders] does in terms of the store's comparison:
    it cancels exactly the pending orders whose [created_at] the store places
    before the bound (stamping [updated_at]); every other order, in
    particular every awaiting_payment order whatever its age, is left as it
    was. *)
Lemma cleanup_cancels_what_the_store_selects (w : World) :
  fuse w = None ->
  exists n w',
    cleanupExpiredOrders w = (Ok n, w') /\
    length (orders (db w')) = length (orders (db w)) /\
    forall i o,
      nth_error (orders (db w)) i = Some o ->
      (status o = pending /\
       created_before (env w) (created_at o) (now w - 24 * 60 * 60 * 1000) = true ->
       nth_error (orders (db w')) i
       = Some (set_status o cancelled (now w) (paid_at o))) /\
      (~ (status o = pending /\
          created_before (env w) (created_at o) (now w - 24 * 60 * 60 * 1000) = true) ->
       nth_error (orders (db w')) i = Some o).
Proof.
  intros Hf. world w.
  unfold cleanupExpiredOrders, try_catch, bind, cancel_expired, store, Date_now,
    read_env, ret.
  cbn [fuse db now env option_map with_db].
  eexists _, _. split; [reflexivity|]. cbn [db orders with_orders with_db].
  split; [apply length_map|].
  intros i o Hnth. rewrite nth_error_map, Hnth. cbn [option_map].
  unfold expired.
  destruct (status o) eqn:Es; cbn [status_eqb andb];
    try (split; [intros [? _]; discriminate | reflexivity]).
  destruct (created_before e (created_at o) (t - 24 * 60 * 60 * 1000)).
  - split; [reflexivity | intros Hn; exfalso; apply Hn; auto].
  - split; [intros [_ ?]; discriminate | reflexivity].
Qed.


(* ===================================================================== *)
(** ** Order creation *)
(* ===================================================================== *)

(** C10.  The [amount_cents] of a created order follows the threshold on the
    request's amount: when its integer part is below 100 the amount is taken
    as dollars and stored as [Math.round(amount * 100)], otherwise it is taken
    as cents and stored as its integer part. *)
Theorem created_order_amount_heuristic
        (w w' : World) (random : string) (req : CreateRequest) (amount : Q)
        (id : option Z) (ref : string) (cents : Z) :
  body_amount req = Some amount ->
  plain_decimal (fl amount) ->
  create_order_handler random req w = (Ok (Created201 id ref cents), w') ->
  cents = (if trunc (fl amount) <? 100
           then Math_round (fl (fl amount * 100))
           else trunc (fl amount)) /\
  exists o,
    orders (db w') = orders (db w) ++ [o] /\
    amount_cents o = cents /\ reference_number o = ref /\ status o = pending.
Proof.
  intros Hamt _ H.
  change (if trunc (fl amount) <? 100
          then Math_round (fl (fl amount * 100))
          else trunc (fl amount)) with (amount_to_cents (fl amount)).
  unfold create_order_handler, try_catch, bind, Date_now, ret in H.
  rewrite Hamt in H.
  destruct (negb (truthy_str (body_customer_email req)) || Qeq_bool (fl amount) 0);
    [discriminate|].
  destruct (truthy_str (body_payment_email req)).
  - world w.
    unfold insert_order, insert_event, sendOrderConfirmation, sendEmail, read_env,
      ret, store, bind in H.
    cbn [fuse db now env alerts outbox option_map with_db with_mail] in H.
    brute.
    all: injection H as <- <- <- <-.
    all: split; [reflexivity|]; eexists; cbn [db orders with_db with_event with_new_order with_mail]; repeat split; reflexivity.
  - destruct (getNextPaymentEmail w) as [[a|err] w1] eqn:Hrot; [|discriminate].
    apply getNextPaymentEmail_frame in Hrot as (Ho & Hs & Hn & He).
    world w. world w1.
    unfold insert_order, insert_event, sendOrderConfirmation, sendEmail, read_env,
      ret, store, bind in H.
    cbn [fuse db now env alerts outbox option_map with_db with_mail] in H.
    brute.
    all: injection H as <- <- <- <-.
    all: split; [reflexivity|]; eexists; cbn [db orders with_db with_event with_new_order with_mail] in *; rewrite Ho; repeat split; reflexivity.
Qed.

(** The theorem on the amount 99, stored as 9900 cents. *)
Lemma created_order_amount_witness :
  exists o w',
    create_order_handler "AB12" (create_request 99) (world (db_rotation 1 19) None)
    = (Ok (Created201 (Some 1) "ORD-LOYW3V28AB12" 9900), w') /\
    orders (db w') = [o] /\ amount_cents o = 9900 /\ status o = pending.
Proof.
  destruct (created_order_amount_heuristic
              (world (db_rotation 1 19) None)
              (snd (create_order_handler "AB12" (create_request 99)
                      (world (db_rotation 1 19) None)))
              "AB12" (create_request 99) 99 (Some 1) "ORD-LOYW3V28AB12" 9900
              eq_refl)
    as (_ & o & H1 & H2 & _ & H4).
  - right. split; vm_compute; congruence.
  - vm_compute. reflexivity.
  - exists o, (snd (create_order_handler "AB12" (create_request 99)
                      (world (db_rotation 1 19) None))).
    split; [vm_compute; reflexivity|]. auto.
Defined.

(** The amount 150.75 is stored as 150 cents. *)
Example created_order_amount_as_cents :
  fst (create_order_handler "AB12" (create_request 150.75)
         (world (db_rotation 1 19) None))
  = Ok (Created201 (Some 1) "ORD-LOYW3V28AB12" 150).
Proof. vm_compute. reflexivity. Qed.


(* ===================================================================== *)
(** ** Notification parser *)
(* ===================================================================== *)

(** C6.  The parser on three of the listed formats with an amount of
    1234.56: the numeral pattern reads one to three digits and then only
    comma-separated groups, so without thousands separators the amount is
    cut, to 123.00 behind a dollar sign and to 234.56 before a currency
    code. *)
Theorem parse_ungrouped_amount_is_cut :
  amountCents (Parser.parseInteracEmail
                 "You received an INTERAC e-Transfer. amount: $1234.56")
  = Val 12300 /\
  amountCents (Parser.parseInteracEmail
                 "INTERAC e-Transfer deposited: $1234.56") = Val 12300 /\
  amountCents (Parser.parseInteracEmail
                 "INTERAC e-Transfer of 1234.56 CAD") = Val 23456.
Proof. repeat split; vm_compute; reflexivity. Qed.

(** With thousands separators the amount is read in full. *)
Example parse_grouped_amount :
  amountCents (Parser.parseInteracEmail
                 "You received an INTERAC e-Transfer of $1,234.56 CAD")
  = Val 123456.
Proof. vm_compute. reflexivity. Qed.

(* ===================================================================== *)
(** * Further properties                                                  *)
(* ===================================================================== *)

Import RotationAdmin DailyLimits Vocabulary.

(* ===================================================================== *)
(** ** Rounding to binary64: upper bounds *)
(* ===================================================================== *)

Section Binary64Upper.

Lemma ulp_exp_le (a d j : Z) :
  0 < a -> 0 < d -> 1 <= j -> a * 2 ^ j < 2 ^ 53 * d -> ulp_exp a d <= - j.
Proof.
  intros Ha Hd Hj Hlt. unfold ulp_exp.
  pose proof (Z.log2_spec a Ha) as [La Ua].
  pose proof (Z.log2_spec d Hd) as [Ld Ud].
  pose proof (Z.log2_nonneg a) as Na.
  pose proof (Z.log2_nonneg d) as Nd.
  set (la := Z.log2 a) in *. set (ld := Z.log2 d) in *.
  assert (P53 : 0 < 2 ^ 53) by (apply Z.pow_pos_nonneg; lia).
  assert (Pj : 0 < 2 ^ j) by (apply Z.pow_pos_nonneg; lia).
  assert (Hla : la + j < 54 + ld).
  { apply (Z.pow_lt_mono_r_iff 2); [lia | lia |].
    replace (54 + ld) with (53 + Z.succ ld) by lia.
    rewrite !Z.pow_add_r by lia.
    eapply Z.le_lt_trans; [apply Z.mul_le_mono_nonneg_r; [lia | exact La]|].
    eapply Z.lt_trans; [exact Hlt|].
    apply Z.mul_lt_mono_pos_l; [exact P53 | exact Ud]. }
  destruct (Z.ltb_spec (scaled_num a (la - ld - 52) / scaled_den d (la - ld - 52)) (2 ^ 52)) as [H|H].
  - lia.
  - destruct (Z.le_gt_cases (la - ld - 52) (- j)) as [H0|H0]; [exact H0|].
    exfalso. assert (E : la - ld - 52 = 1 - j) by lia. rewrite E in H.
    destruct (scaled_nonpos a d (1 - j)) as [En Ed]; [lia|].
    rewrite En, Ed in H.
    replace (- (1 - j)) with (j - 1) in H by lia.
    assert (E2 : 2 ^ j = 2 * 2 ^ (j - 1)).
    { replace j with (1 + (j - 1)) at 1 by lia. rewrite Z.pow_add_r by lia. reflexivity. }
    assert (a * 2 ^ (j - 1) / d < 2 ^ 52); [|lia].
    apply Z.div_lt_upper_bound; [lia|].
    change (2 ^ 53) with (2 * 2 ^ 52) in Hlt. rewrite E2 in Hlt. lia.
Qed.

Lemma round_half_even_le (n d k : Z) :
  0 < d -> n <= k * d -> round_half_even n d <= k.
Proof.
  intros Hd Hle. unfold round_half_even.
  pose proof (Z.div_mod n d ltac:(lia)) as E.
  pose proof (Z.mod_pos_bound n d Hd) as Hr.
  set (m := n / d) in *. set (r := n mod d) in *.
  destruct ((d <? 2 * r) || ((d =? 2 * r) && Z.odd m)) eqn:C.
  - assert (0 < r).
    { apply orb_prop in C as [C|C].
      - apply Z.ltb_lt in C. lia.
      - apply andb_prop in C as [C _]. apply Z.eqb_eq in C. lia. }
    nia.
  - nia.
Qed.

(** Rounding never goes above a multiple of [2^-j] that bounds the exact
    value, as long as the value is below [2^(53-j)]. *)
Lemma fl_le_dyadic (q : Q) (z j : Z) :
  1 <= j <= 1074 -> (0 < q)%Q ->
  (q <= inject_Z z * (1 # Z.to_pos (2 ^ j)))%Q ->
  (q * inject_Z (2 ^ j) < inject_Z (2 ^ 53))%Q ->
  (fl q <= inject_Z z * (1 # Z.to_pos (2 ^ j)))%Q.
Proof.
  intros Hj Hpos Hle Hlt.
  assert (Pj : 0 < 2 ^ j) by (apply Z.pow_pos_nonneg; lia).
  rewrite <- (Qred_correct q) in Hpos, Hle, Hlt.
  remember (Qred q) as q' eqn:Eq. destruct q' as [n d].
  unfold Qle in Hle. unfold Qlt in Hpos, Hlt.
  cbn [Qnum Qden Qmult inject_Z] in Hpos, Hle, Hlt.
  rewrite Pos.mul_1_l, Z2Pos.id in Hle by lia.
  rewrite Pos.mul_1_r in Hlt.
  assert (Hn : 0 < n) by lia.
  assert (He : exponent n (Zpos d) <= - j)
    by (apply exponent_le; [apply ulp_exp_le|]; lia).
  rewrite (fl_nonpos_exp q (exponent n (Zpos d))); rewrite <- ?Eq; simpl Qnum; simpl Qden;
    try lia; try reflexivity.
  set (e := exponent n (Zpos d)) in *.
  assert (HP : 0 < 2 ^ (- e)) by (apply Z.pow_pos_nonneg; lia).
  assert (Esplit : 2 ^ (- e) = 2 ^ j * 2 ^ (- e - j)).
  { rewrite <- Z.pow_add_r by lia. f_equal. lia. }
  assert (HP' : 0 < 2 ^ (- e - j)) by (apply Z.pow_pos_nonneg; lia).
  pose proof (round_half_even_le (n * 2 ^ (- e)) (Zpos d) (z * 2 ^ (- e - j))
                ltac:(lia)) as Hr.
  assert (Hm : round_half_even (n * 2 ^ (- e)) (Z.pos d) <= z * 2 ^ (- e - j)).
  { apply Hr. rewrite Esplit. nia. }
  unfold Qle. cbn [Qnum Qden Qmult inject_Z].
  rewrite ?Z.mul_1_r, ?Pos.mul_1_l.
  rewrite !Z2Pos.id by lia.
  replace (z * 2 ^ (- e)) with (z * 2 ^ (- e - j) * 2 ^ j) by (rewrite Esplit; ring).
  apply Z.mul_le_mono_nonneg_r; [lia | exact Hm].
Qed.

(** ... nor below a multiple of [2^-j] that the exact value reaches. *)
Lemma fl_ge_dyadic (q : Q) (z j : Z) :
  1 <= j <= 1074 -> 0 <= z -> (0 < q)%Q ->
  (inject_Z z * (1 # Z.to_pos (2 ^ j)) <= q)%Q ->
  (q * inject_Z (2 ^ j) < inject_Z (2 ^ 53))%Q ->
  (inject_Z z * (1 # Z.to_pos (2 ^ j)) <= fl q)%Q.
Proof.
  intros Hj Hz Hpos Hle Hlt.
  assert (Pj : 0 < 2 ^ j) by (apply Z.pow_pos_nonneg; lia).
  rewrite <- (Qred_correct q) in Hpos, Hle, Hlt.
  remember (Qred q) as q' eqn:Eq. destruct q' as [n d].
  unfold Qle in Hle. unfold Qlt in Hpos, Hlt.
  cbn [Qnum Qden Qmult inject_Z] in Hpos, Hle, Hlt.
  rewrite Pos.mul_1_l, Z2Pos.id in Hle by lia.
  rewrite Pos.mul_1_r in Hlt.
  assert (Hn : 0 < n) by lia.
  assert (He : exponent n (Zpos d) <= - j)
    by (apply exponent_le; [apply ulp_exp_le|]; lia).
  rewrite (fl_nonpos_exp q (exponent n (Zpos d))); rewrite <- ?Eq; simpl Qnum; simpl Qden;
    try lia; try reflexivity.
  set (e := exponent n (Zpos d)) in *.
  assert (HP : 0 < 2 ^ (- e)) by (apply Z.pow_pos_nonneg; lia).
  assert (Esplit : 2 ^ (- e) = 2 ^ j * 2 ^ (- e - j)).
  { rewrite <- Z.pow_add_r by lia. f_equal. lia. }
  assert (HP' : 0 < 2 ^ (- e - j)) by (apply Z.pow_pos_nonneg; lia).
  pose proof (round_half_even_ge (n * 2 ^ (- e)) (Zpos d)) as Hr.
  assert (Hd : z * 2 ^ (- e - j) <= n * 2 ^ (- e) / Zpos d).
  { apply Z.div_le_lower_bound; [lia|]. rewrite Esplit.
    replace (Z.pos d * (z * 2 ^ (- e - j))) with (z * 1 * Z.pos d * 2 ^ (- e - j)) by ring.
    replace (n * (2 ^ j * 2 ^ (- e - j))) with (n * 2 ^ j * 2 ^ (- e - j)) by ring.
    apply Z.mul_le_mono_nonneg_r; [lia | exact Hle]. }
  unfold Qle. cbn [Qnum Qden Qmult inject_Z].
  rewrite ?Z.mul_1_r, ?Pos.mul_1_l.
  rewrite !Z2Pos.id by lia.
  replace (z * 2 ^ (- e)) with (z * 2 ^ (- e - j) * 2 ^ j) by (rewrite Esplit; ring).
  apply Z.mul_le_mono_nonneg_r; [lia | lia].
Qed.

End Binary64Upper.



(* ===================================================================== *)
(** ** The ring under updates of alias rows *)
(* ===================================================================== *)

Section RingUnderUpdates.

Variable f : Alias -> Alias.
Hypothesis f_id : forall a, a_id (f a) = a_id a.
Hypothesis f_active : forall a, active (f a) = active a.

Lemma insert_by_id_map (a : Alias) (l : list Alias) :
  insert_by_id (f a) (map f l) = map f (insert_by_id a l).
Proof.
  induction l as [|b l IH]; simpl; [reflexivity|].
  rewrite !f_id. destruct (a_id a <? a_id b); simpl; [reflexivity|].
  now rewrite IH.
Qed.

Lemma sort_by_id_map (l : list Alias) :
  sort_by_id (map f l) = map f (sort_by_id l).
Proof.
  induction l as [|a l IH]; simpl; [reflexivity|].
  unfold sort_by_id in *. simpl. rewrite IH. apply insert_by_id_map.
Qed.

Lemma filter_active_map (l : list Alias) :
  filter active (map f l) = map f (filter active l).
Proof.
  induction l as [|a l IH]; simpl; [reflexivity|].
  rewrite f_active. destruct (active a); simpl; now rewrite IH.
Qed.

Lemma active_ring_map (d : Db) :
  active_ring (with_aliases d (map f (email_aliases d))) = map f (active_ring d).
Proof.
  unfold active_ring. cbn [email_aliases with_aliases].
  now rewrite filter_active_map, sort_by_id_map.
Qed.

Lemma ring_ids_map (d : Db) :
  map a_id (active_ring (with_aliases d (map f (email_aliases d))))
  = map a_id (active_ring d).
Proof.
  rewrite active_ring_map, map_map. apply map_ext. exact f_id.
Qed.

End RingUnderUpdates.

Lemma stamp_id (id t : Z) (a : Alias) : a_id (stamp id t a) = a_id a.
Proof. unfold stamp. now destruct (a_id a =? id). Qed.

Lemma stamp_active (id t : Z) (a : Alias) : active (stamp id t a) = active a.
Proof. unfold stamp. now destruct (a_id a =? id). Qed.

Lemma stamp_email (id t : Z) (a : Alias) : alias_email (stamp id t a) = alias_email a.
Proof. unfold stamp. now destruct (a_id a =? id). Qed.

(* ===================================================================== *)
(** ** One selection, in full *)
(* ===================================================================== *)

(** The run of a selection on the SQLite store from a non-empty ring with the
    state row present and no store failure: what is returned, what is written,
    and which alias and counter come out of a well-formed state. *)
Lemma selection_run (w : World) (r0 : RotationState) (first : Alias) (rest : list Alias) :
  fuse w = None ->
  isProduction (env w) = false ->
  rotation_state (db w) = Some r0 ->
  active_ring (db w) = first :: rest ->
  exists (a : Assignment) (sel : Alias) (c : Z),
    getNextPaymentEmail w
    = (Ok a,
       MkWorld
         (with_aliases
            (with_rotation (db w)
               (Some (MkRotationState (Some (a_id sel)) (Some c) (total_orders r0) (now w))))
            (map (stamp (a_id sel) (now w)) (email_aliases (db w))))
         (now w) (env w) None (alerts w) (outbox w)) /\
    In sel (first :: rest) /\
    email a = Some (alias_email sel) /\
    alias_id a = Some (a_id sel) /\
    orders_until_rotation a = Some (ORDERS_PER_ROTATION - c) /\
    (forall (n : Z) (i : nat) (cur : Alias),
        current_alias_id r0 = Some (a_id cur) -> a_id cur <> 0 ->
        order_count r0 = Some n ->
        NoDup (map a_id (first :: rest)) ->
        nth_error (first :: rest) i = Some cur ->
        (n < ORDERS_PER_ROTATION -> a_id sel = a_id cur /\ c = n + 1) /\
        (ORDERS_PER_ROTATION <= n ->
         exists nxt,
           nth_error (first :: rest) ((i + 1) mod length (first :: rest)) = Some nxt /\
           a_id sel = a_id nxt /\ c = 1)) /\
    ((current_alias_id r0 = None \/ current_alias_id r0 = Some 0) ->
     forall n, order_count r0 = Some n -> n < ORDERS_PER_ROTATION ->
     sel = first /\ c = n + 1).
Proof.
  intros Hf Hp Er Hring. world w. run_rotation. rewrite Er.
  rotation_cases Hring.
  all: rewrite ?Er; cbn [option_map].
  all: try (apply find_some in Efind as Hfound; destruct Hfound as [Hin Heq];
            apply Z.eqb_eq in Heq).
  - (* rotated, next alias found *)
    exists (MkAssignment (Some (alias_email a))
              (if truthy_str (bank_name a) then bank_name a else RECIPIENT_NAME e)
              (Some (a_id a)) (bank_slug a) (Some (ORDERS_PER_ROTATION - (0 + 1)))),
           a, (0 + 1).
    rewrite Heq. split; [reflexivity|].
    split; [exact Hin|]. repeat (split; [reflexivity|]).
    split.
    + intros n i cur Hcur Hnz Hn Hnd Hnth.
      rewrite Hcur, Hn in *. apply Z.eqb_neq in Hnz. rewrite Hnz in Hnxt.
      split; [unfold ORDERS_PER_ROTATION in *; lia|].
      intros _. exists nxt. split; [|split; [congruence | lia]].
      unfold findIndex in Hnxt. rewrite (findIndex_from_nth _ i cur 0 Hnd Hnth) in Hnxt.
      rewrite Z.add_0_l, next_index_nat in Hnxt by (simpl; lia). exact Hnxt.
    + intros _ n Hn Hlt. rewrite Hn in Hrot. lia.
  - exfalso. apply nth_error_In in Hnxt.
    destruct (find_hit (fun a => a_id a =? a_id nxt) _ nxt Hnxt (Z.eqb_refl _))
      as [y [Hy _]]. congruence.
  - (* below the threshold, current alias found *)
    eexists (MkAssignment _ _ _ _ _), a, _.
    rewrite <- Heq. split; [reflexivity|].
    split; [exact Hin|]. repeat (split; [reflexivity|]).
    split.
    + intros n i cur Hcur Hnz Hn Hnd Hnth.
      rewrite Hcur, Hn in *. apply Z.eqb_neq in Hnz. rewrite Hnz in *.
      split; [intros _; split; [congruence | reflexivity] | lia].
    + intros Hnone n Hn Hlt. rewrite Hn.
      assert (Hfirst : a_id a = a_id first).
      { destruct Hnone as [E|E]; rewrite E in Heq; [exact Heq|].
        now rewrite Z.eqb_refl in Heq. }
      split; [|reflexivity].
      cbn [find] in Efind.
      destruct Hnone as [E|E]; rewrite E in Efind;
        rewrite ?Z.eqb_refl in Efind; congruence.
  - (* below the threshold, current alias disabled *)
    eexists (MkAssignment _ _ _ _ _), first, _.
    split; [reflexivity|].
    split; [now left|]. repeat (split; [reflexivity|]).
    split.
    + intros n i cur Hcur Hnz Hn Hnd Hnth.
      rewrite Hcur, Hn in *. apply Z.eqb_neq in Hnz. rewrite Hnz in *.
      exfalso. apply nth_error_In in Hnth.
      destruct (find_hit (fun a => a_id a =? a_id cur) _ cur Hnth (Z.eqb_refl _))
        as [y [Hy _]]. congruence.
    + intros Hnone n Hn Hlt. exfalso.
      cbn [find] in Efind.
      destruct Hnone as [E|E]; rewrite E in Efind;
        rewrite ?Z.eqb_refl in Efind; discriminate.
Qed.

(** The first selection when the state row does not exist yet. *)
Lemma selection_run_fresh (w : World) (first : Alias) (rest : list Alias) :
  fuse w = None ->
  isProduction (env w) = false ->
  rotation_state (db w) = None ->
  active_ring (db w) = first :: rest ->
  exists (a : Assignment),
    getNextPaymentEmail w
    = (Ok a,
       MkWorld
         (with_aliases
            (with_rotation (db w)
               (Some (MkRotationState (Some (a_id first)) (Some 1) 0 (now w))))
            (map (stamp (a_id first) (now w)) (email_aliases (db w))))
         (now w) (env w) None (alerts w) (outbox w)) /\
    email a = Some (alias_email first) /\
    alias_id a = Some (a_id first).
Proof.
  intros Hf Hp Er Hring. world w. run_rotation. rewrite Er.
  unfold store; cbn [fuse db now env option_map with_db rotation_state].
  rewrite Er. unfold store; cbn [fuse db now env option_map with_db rotation_state].
  rotation_cases Hring.
  all: cbn [option_map].
  all: try (unfold ORDERS_PER_ROTATION in *; lia).
  - cbn [find] in Efind. rewrite Z.eqb_refl in Efind. injection Efind as <-.
    eexists. split; [reflexivity|]. split; reflexivity.
  - cbn [find] in Efind. rewrite Z.eqb_refl in Efind. discriminate.
Qed.

(* ===================================================================== *)
(** ** The rotation schedule *)
(* ===================================================================== *)

Lemma div_mod_20_stay (p : nat) :
  (p mod 20 + 1 < 20 -> S p / 20 = p / 20 /\ S p mod 20 = p mod 20 + 1)%nat.
Proof.
  intros H.
  pose proof (Nat.div_mod_eq p 20) as E.
  assert (E' : (S p = 20 * (p / 20) + (p mod 20 + 1))%nat) by lia.
  split.
  - symmetry. apply (Nat.div_unique _ _ _ (p mod 20 + 1)); [lia | exact E'].
  - symmetry. apply (Nat.mod_unique _ _ (p / 20)); [lia | exact E'].
Qed.

Lemma div_mod_20_turn (p : nat) :
  (p mod 20 + 1 = 20 -> S p / 20 = p / 20 + 1 /\ S p mod 20 = 0)%nat.
Proof.
  intros H.
  pose proof (Nat.div_mod_eq p 20) as E.
  assert (E' : (S p = 20 * (p / 20 + 1) + 0)%nat) by lia.
  split.
  - symmetry. apply (Nat.div_unique _ _ _ 0); [lia | exact E'].
  - symmetry. apply (Nat.mod_unique _ _ (p / 20 + 1)); [lia | exact E'].
Qed.

Lemma schedule_step (ids : list Z) (p : nat) (w : World) :
  ids <> [] -> NoDup ids -> ~ In 0 ids ->
  on_schedule ids p w ->
  exists a w',
    getNextPaymentEmail w = (Ok a, w') /\
    alias_id a = nth_error ids ((S p / 20) mod length ids) /\
    on_schedule ids (S p) w'.
Proof.
  intros Hne Hnd Hz (Hf & Hp & Hids & r0 & Er & Hcur & Hcnt).
  assert (HK : (0 < length ids)%nat) by (destruct ids; [congruence | simpl; lia]).
  destruct (active_ring (db w)) as [|first rest] eqn:Hring.
  { subst ids. simpl in HK. lia. }
  set (i := ((p / 20) mod length ids)%nat) in *.
  assert (Hi : (i < length ids)%nat) by (apply Nat.mod_upper_bound; lia).
  destruct (nth_error (first :: rest) i) as [cur|] eqn:Hnth.
  2:{ apply nth_error_None in Hnth. rewrite <- Hids, length_map in Hi. lia. }
  assert (Hx : nth_error ids i = Some (a_id cur)).
  { rewrite <- Hids. now rewrite nth_error_map, Hnth. }
  rewrite Hx in Hcur.
  assert (Hnz : a_id cur <> 0).
  { intros E. apply Hz. rewrite <- E. eapply nth_error_In; eauto. }
  destruct (selection_run w r0 first rest Hf Hp Er Hring)
    as (a & sel & c & Hrun & Hin & _ & Hid & _ & Hwf & _).
  rewrite <- Hids in Hnd.
  destruct (Hwf _ i cur Hcur Hnz Hcnt Hnd Hnth) as [Hstay Hturn].
  assert (Hids' : forall r',
    map a_id (active_ring
      (with_aliases (with_rotation (db w) r')
         (map (stamp (a_id sel) (now w)) (email_aliases (db w))))) = ids).
  { intros r'.
    change (email_aliases (db w)) with (email_aliases (with_rotation (db w) r')).
    rewrite ring_ids_map by (intros; apply stamp_id || apply stamp_active).
    change (active_ring (with_rotation (db w) r')) with (active_ring (db w)).
    now rewrite Hring. }
  exists a. eexists. split; [exact Hrun|].
  unfold ORDERS_PER_ROTATION in *.
  destruct (Z.lt_ge_cases (Z.of_nat (p mod 20) + 1) 20) as [Hlt|Hge].
  - destruct (Hstay Hlt) as [Hsel Hc].
    destruct (div_mod_20_stay p ltac:(lia)) as [Hd Hm].
    rewrite Hd. fold i. split; [congruence|].
    split; [reflexivity|]. split; [exact Hp|]. split; [apply Hids'|].
    eexists. split; [reflexivity|]. cbn [current_alias_id order_count].
    rewrite Hd, Hm. fold i. split; [congruence|]. f_equal. lia.
  - pose proof (Nat.mod_upper_bound p 20 ltac:(lia)) as Hub.
    destruct (Hturn ltac:(lia)) as (nxt & Hnxt & Hsel & Hc).
    destruct (div_mod_20_turn p ltac:(lia)) as [Hd Hm].
    assert (Hidx : (((p / 20 + 1) mod length ids) = (i + 1) mod length (first :: rest))%nat).
    { assert (Hlen : length (first :: rest) = length ids)
        by (rewrite <- Hids; now rewrite length_map).
      rewrite Hlen. unfold i. now rewrite Nat.Div0.add_mod_idemp_l. }
    assert (Hn' : nth_error ids ((p / 20 + 1) mod length ids) = Some (a_id sel)).
    { rewrite Hidx, <- Hids, nth_error_map, Hnxt. simpl. congruence. }
    rewrite Hd. split; [congruence|].
    split; [reflexivity|]. split; [exact Hp|]. split; [apply Hids'|].
    eexists. split; [reflexivity|]. cbn [current_alias_id order_count].
    rewrite Hd, Hm. split; [congruence|]. f_equal. lia.
Qed.

Lemma schedule_from (ids : list Z) (n : nat) :
  ids <> [] -> NoDup ids -> ~ In 0 ids ->
  forall (p : nat) (w : World),
    on_schedule ids p w ->
    forall m, (m < n)%nat ->
      nth_error (fst (select_many n w)) m
      = Some (nth_error ids (((S p + m) / 20) mod length ids)).
Proof.
  intros Hne Hnd Hz. induction n as [|n IH]; intros p w Hon m Hm; [lia|].
  destruct (schedule_step ids p w Hne Hnd Hz Hon) as (a & w' & Hrun & Hid & Hon').
  cbn [select_many]. rewrite Hrun.
  destruct (select_many n w') as [l w2] eqn:El. cbn [fst].
  destruct m as [|m]; cbn [nth_error].
  - rewrite Nat.add_0_r. now rewrite Hid.
  - specialize (IH (S p) w' Hon' m ltac:(lia)). rewrite El in IH. cbn [fst] in IH.
    rewrite IH. now replace (S p + S m)%nat with (S (S p) + m)%nat by lia.
Qed.

(** X1.  On the SQLite store, after a fresh start (no state row yet, or a row
    pointing at nothing or at the first alias with the counter at 0),
    successive selections over a fixed ring of distinct non-zero ids serve
    each alias for exactly 20 selections in turn, in id order, wrapping
    around: the selection number [m] (from 0) returns the alias at position
    [(m / 20) mod K]. *)
Theorem rotation_schedule (w : World) (ids : list Z) :
  fuse w = None ->
  isProduction (env w) = false ->
  map a_id (active_ring (db w)) = ids ->
  ids <> [] -> NoDup ids -> ~ In 0 ids ->
  match rotation_state (db w) with
  | None => True
  | Some r =>
      order_count r = Some 0 /\
      (current_alias_id r = None \/ current_alias_id r = hd_error ids)
  end ->
  forall n m, (m < n)%nat ->
    nth_error (fst (select_many n w)) m
    = Some (nth_error ids ((m / 20) mod length ids)).
Proof.
  intros Hf Hp Hids Hne Hnd Hz Hfresh n m Hm.
  destruct (active_ring (db w)) as [|first rest] eqn:Hring.
  { subst ids. simpl in Hne. congruence. }
  assert (Hids' : forall r' id,
    map a_id (active_ring
      (with_aliases (with_rotation (db w) r')
         (map (stamp id (now w)) (email_aliases (db w))))) = ids).
  { intros r' id.
    change (email_aliases (db w)) with (email_aliases (with_rotation (db w) r')).
    rewrite ring_ids_map by (intros; apply stamp_id || apply stamp_active).
    change (active_ring (with_rotation (db w) r')) with (active_ring (db w)).
    now rewrite Hring. }
  assert (Hhd : nth_error ids ((0 / 20) mod length ids) = Some (a_id first)).
  { change (0 / 20)%nat with 0%nat. rewrite Nat.Div0.mod_0_l.
    rewrite <- Hids. reflexivity. }
  assert (Hnzf : a_id first <> 0).
  { intros E. apply Hz. rewrite <- Hids, <- E. now left. }
  assert (Hfirst : exists a w1,
             getNextPaymentEmail w = (Ok a, w1) /\
             alias_id a = Some (a_id first) /\ on_schedule ids 0 w1).
  { destruct (rotation_state (db w)) as [r0|] eqn:Er.
    - destruct Hfresh as [Hcnt Hcur].
      destruct (selection_run w r0 first rest Hf Hp Er Hring)
        as (a & sel & c & Hrun & _ & _ & Hid & _ & Hwf & Hnone).
      assert (Hsel : a_id sel = a_id first /\ c = 1).
      { destruct Hcur as [Hcur|Hcur].
        - destruct (Hnone (or_introl Hcur) 0 Hcnt) as [-> ->];
            [unfold ORDERS_PER_ROTATION; lia | auto].
        - rewrite <- Hids in Hcur, Hnd. simpl in Hcur.
          destruct (Hwf 0 0%nat first Hcur Hnzf Hcnt Hnd eq_refl) as [Hstay _].
          apply Hstay. unfold ORDERS_PER_ROTATION. lia. }
      destruct Hsel as [Hsel ->].
      exists a. eexists. split; [exact Hrun|]. split; [congruence|].
      split; [reflexivity|]. split; [exact Hp|]. split; [apply Hids'|].
      eexists. split; [reflexivity|]. cbn [current_alias_id order_count].
      rewrite Hhd. split; [congruence | reflexivity].
    - destruct (selection_run_fresh w first rest Hf Hp Er Hring) as (a & Hrun & _ & Hid).
      exists a. eexists. split; [exact Hrun|]. split; [exact Hid|].
      split; [reflexivity|]. split; [exact Hp|]. split; [apply Hids'|].
      eexists. split; [reflexivity|]. cbn [current_alias_id order_count].
      rewrite Hhd. split; reflexivity. }
  destruct Hfirst as (a & w1 & Hrun & Hid & Hon).
  destruct n as [|n]; [lia|].
  cbn [select_many]. rewrite Hrun.
  destruct (select_many n w1) as [l w2] eqn:El. cbn [fst].
  destruct m as [|m]; cbn [nth_error].
  - now rewrite Hid, Hhd.
  - pose proof (schedule_from ids n Hne Hnd Hz 0%nat w1 Hon m ltac:(lia)) as H.
    rewrite El in H. exact H.
Qed.

(** The forty-first selection over the ring [A; B; C] returns [C]. *)
Lemma rotation_schedule_witness :
  nth_error (fst (select_many 41 (world (db_rotation 1 0) None))) 40
  = Some (Some (a_id C)).
Proof.
  apply (rotation_schedule (world (db_rotation 1 0) None) [1; 2; 3]);
    try reflexivity.
  - discriminate.
  - repeat constructor; simpl; intuition discriminate.
  - simpl. intuition discriminate.
  - simpl. auto.
  - lia.
Defined.

(** X2.  On the SQLite store, a selection from a non-empty ring stamps
    [last_used_at] of the alias it returns and changes no other column and no
    other alias row; orders, events and unmatched payments are left as they
    were. *)
Theorem selection_touches_only_selected_alias
        (w : World) (first : Alias) (rest : list Alias) :
  fuse w = None ->
  isProduction (env w) = false ->
  active_ring (db w) = first :: rest ->
  exists a w' id,
    getNextPaymentEmail w = (Ok a, w') /\
    alias_id a = Some id /\
    Forall2 (fun x x' => if a_id x =? id then x' = set_last_used x (now w) else x' = x)
            (email_aliases (db w)) (email_aliases (db w')) /\
    orders (db w') = orders (db w) /\
    payment_events (db w') = payment_events (db w) /\
    unmatched_payments (db w') = unmatched_payments (db w) /\
    alerts w' = alerts w /\ outbox w' = outbox w.
Proof.
  intros Hf Hp Hring.
  destruct (rotation_state (db w)) as [r0|] eqn:Er.
  - destruct (selection_run w r0 first rest Hf Hp Er Hring)
      as (a & sel & c & Hrun & _ & _ & Hid & _).
    exists a. eexists. exists (a_id sel). split; [exact Hrun|]. split; [exact Hid|].
    cbn. split; [|auto 10].
    apply Forall2_map_self. intros x _. unfold stamp. now destruct (a_id x =? a_id sel).
  - destruct (selection_run_fresh w first rest Hf Hp Er Hring) as (a & Hrun & _ & Hid).
    exists a. eexists. exists (a_id first). split; [exact Hrun|]. split; [exact Hid|].
    cbn. split; [|auto 10].
    apply Forall2_map_self. intros x _. unfold stamp. now destruct (a_id x =? a_id first).
Qed.

Lemma selection_touches_only_selected_alias_witness :
  exists a w',
    getNextPaymentEmail (world (db_rotation 2 7) None) = (Ok a, w') /\
    alias_id a = Some 2 /\
    email_aliases (db w') = [A; set_last_used B T0; C; D].
Proof.
  destruct (selection_touches_only_selected_alias
              (world (db_rotation 2 7) None) A [B; C] eq_refl eq_refl eq_refl)
    as (a & w' & id & Hrun & Hid & Hall & _).
  exists a, w'. split; [exact Hrun|].
  assert (E : alias_id a = Some 2).
  { assert (H := Hrun). vm_compute in H. injection H as <- _. reflexivity. }
  split; [exact E|].
  rewrite E in Hid. injection Hid as <-.
  cbn in Hall.
  repeat match goal with
         | H : Forall2 _ _ _ |- _ => inversion H; clear H; subst
         end.
  cbn in *. congruence.
Defined.

(** X3.  With no active alias the selection answers the default assignment and
    advances nothing: the alias rows are untouched and the rotation state is
    as before, a missing state row being created with the counter at 0. *)
Theorem selection_without_active_alias (w : World) :
  fuse w = None ->
  active_ring (db w) = [] ->
  exists w',
    getNextPaymentEmail w = (Ok (default_assignment (env w)), w') /\
    email_aliases (db w') = email_aliases (db w) /\
    rotation_state (db w')
    = match rotation_state (db w) with
      | Some r => Some r
      | None => Some (MkRotationState None (Some 0) 0 (now w))
      end.
Proof.
  intros Hf Hring. world w. run_rotation.
  destruct (rotation_state d) as [r0|] eqn:Er.
  - cbn [fuse db now env option_map with_db]. rewrite Hring.
    destruct (isProduction e);
      (eexists; split; [reflexivity|]; cbn; now rewrite Er).
  - unfold store; cbn [fuse db now env option_map with_db rotation_state].
    rewrite Er. unfold store; cbn [fuse db now env option_map with_db].
    change (active_ring (with_rotation d ?r)) with (active_ring d).
    unfold active_ring in *. cbn [email_aliases with_rotation]. rewrite Hring.
    destruct (isProduction e);
      (eexists; split; [reflexivity|]; cbn; auto).
Qed.

Lemma selection_without_active_alias_witness :
  exists w',
    getNextPaymentEmail (world Samples.db_no_ring None)
    = (Ok (default_assignment env0), w') /\
    email_aliases (db w') = [D] /\
    rotation_state (db w') = Some (MkRotationState None (Some 0) 0 T0).
Proof.
  apply (selection_without_active_alias (world Samples.db_no_ring None));
    reflexivity.
Defined.

(* ===================================================================== *)
(** ** Rotation administration *)
(* ===================================================================== *)

Ltac run_admin :=
  unfold forceRotate, resetRotation, getRotationStatus, restart_rotation,
    select_active_ring, select_first_active, read_env,
    try_catch, bind, select, store, ret, throw;
  cbn [fuse db now env option_map with_db]; engine;
  cbn [fuse db now env option_map with_db].

(** X5.  On the SQLite store, [forceRotate] moves the rotation to the alias
    that follows the current one in the ring (wrapping around) and restarts
    the counter at 0; the next selection then returns that alias and persists
    the counter 1. *)
Theorem force_rotate_then_select
        (w : World) (r0 : RotationState) (ring : list Alias) (i : nat) (cur : Alias) :
  fuse w = None ->
  isProduction (env w) = false ->
  active_ring (db w) = ring ->
  NoDup (map a_id ring) -> ~ In 0 (map a_id ring) ->
  rotation_state (db w) = Some r0 ->
  current_alias_id r0 = Some (a_id cur) ->
  nth_error ring i = Some cur ->
  exists nxt w1 a w2 r2,
    nth_error ring ((i + 1) mod length ring) = Some nxt /\
    forceRotate w = (Ok (Rotated (alias_email nxt) (bank_name nxt)), w1) /\
    rotation_state (db w1)
    = Some (MkRotationState (Some (a_id nxt)) (Some 0) (total_orders r0) (now w)) /\
    getNextPaymentEmail w1 = (Ok a, w2) /\
    alias_id a = Some (a_id nxt) /\
    email a = Some (alias_email nxt) /\
    rotation_state (db w2) = Some r2 /\
    current_alias_id r2 = Some (a_id nxt) /\ order_count r2 = Some 1.
Proof.
  intros Hf Hp Hring Hnd Hz Er Hcur Hnth.
  destruct ring as [|first rest]; [destruct i; discriminate|].
  destruct (next_index_in_range (is_alias (Some (a_id cur))) (first :: rest)
              ltac:(discriminate)) as [nxt Hnxt].
  assert (Hidx : nth_error (first :: rest) ((i + 1) mod length (first :: rest)) = Some nxt).
  { unfold findIndex in Hnxt. unfold is_alias in Hnxt.
    rewrite (findIndex_from_nth _ i cur 0 Hnd Hnth) in Hnxt.
    rewrite Z.add_0_l, next_index_nat in Hnxt by (simpl; lia). exact Hnxt. }
  set (w1 := MkWorld
               (with_rotation (db w)
                  (Some (MkRotationState (Some (a_id nxt)) (Some 0) (total_orders r0) (now w))))
               (now w) (env w) None (alerts w) (outbox w)).
  assert (Hforce : forceRotate w = (Ok (Rotated (alias_email nxt) (bank_name nxt)), w1)).
  { unfold w1. clear w1. world w. run_admin. rewrite Hring.
    cbn [fuse db now env option_map with_db]. rewrite Er, Hcur, Hnxt.
    unfold store; cbn [fuse db now env option_map with_db].
    now rewrite Er. }
  assert (Hin : In nxt (first :: rest)) by (eapply nth_error_In; eauto).
  assert (Hnz : a_id nxt <> 0).
  { intros E. apply Hz. rewrite <- E. now apply in_map. }
  destruct (In_nth_error _ _ Hin) as [k Hk].
  destruct (selection_run w1 _ first rest eq_refl Hp eq_refl Hring)
    as (a & sel & c & Hrun & Hs & Hmail & Hid & _ & Hwf & _).
  destruct (Hwf 0 k nxt eq_refl Hnz eq_refl Hnd Hk) as [Hstay _].
  destruct (Hstay ltac:(unfold ORDERS_PER_ROTATION; lia)) as [Hsel ->].
  assert (sel = nxt) by exact (NoDup_map_eq a_id _ sel nxt Hnd Hs Hin Hsel).
  subst sel.
  exists nxt, w1, a. eexists. eexists.
  split; [exact Hidx|]. split; [exact Hforce|]. split; [reflexivity|].
  split; [exact Hrun|]. split; [exact Hid|]. split; [exact Hmail|].
  split; [reflexivity|]. split; reflexivity.
Qed.

Lemma force_rotate_then_select_witness :
  exists w1 a w2 r2,
    forceRotate (world (db_rotation 3 7) None)
    = (Ok (Rotated (alias_email A) (bank_name A)), w1) /\
    getNextPaymentEmail w1 = (Ok a, w2) /\
    alias_id a = Some (a_id A) /\
    rotation_state (db w2) = Some r2 /\
    current_alias_id r2 = Some (a_id A) /\ order_count r2 = Some 1.
Proof.
  destruct (force_rotate_then_select
              (world (db_rotation 3 7) None)
              (MkRotationState (Some 3) (Some 7) 0 0) [A; B; C] 2 C)
    as (nxt & w1 & a & w2 & r2 & Hn & Hf & _ & Hs & Hid & _ & Hr & Hc & Hk);
    try reflexivity.
  - repeat constructor; simpl; intuition discriminate.
  - simpl. intuition discriminate.
  - cbn in Hn. injection Hn as <-.
    exists w1, a, w2, r2. auto 10.
Defined.

(** X6.  On the SQLite store, without a state row [forceRotate] reports the
    first alias as the new one although nothing is persisted: the store is
    left exactly as it was. *)
Theorem force_rotate_without_state_row
        (w : World) (first : Alias) (rest : list Alias) :
  fuse w = None ->
  isProduction (env w) = false ->
  active_ring (db w) = first :: rest ->
  rotation_state (db w) = None ->
  exists w1,
    forceRotate w = (Ok (Rotated (alias_email first) (bank_name first)), w1) /\
    db w1 = db w.
Proof.
  intros Hf Hp Hring Er. world w. run_admin. rewrite Hring.
  cbn [fuse db now env option_map with_db]. rewrite Er.
  assert (Hidx : findIndex (is_alias None) (first :: rest) = -1).
  { unfold findIndex. now apply findIndex_from_absent. }
  rewrite Hidx. change (-1 + 1) with 0. rewrite Z.rem_0_l by (simpl; lia).
  cbn [Z.to_nat nth_error].
  unfold store; cbn [fuse db now env option_map with_db]. rewrite Er.
  eexists. split; [reflexivity|]. cbn [db option_map].
  destruct d; cbn in *. now subst.
Qed.

Lemma force_rotate_without_state_row_witness :
  exists w1,
    forceRotate (world (db_orders []) None)
    = (Ok (Rotated (alias_email A) (bank_name A)), w1) /\
    db w1 = db_orders [].
Proof.
  apply (force_rotate_without_state_row (world (db_orders []) None) A [B; C]);
    reflexivity.
Defined.

(** X7.  On the SQLite store, [resetRotation] points the rotation at the first
    active alias with the counter at 0; the next selection returns that alias
    and persists the counter 1. *)
Theorem reset_then_select
        (w : World) (r0 : RotationState) (first : Alias) (rest : list Alias) :
  fuse w = None ->
  isProduction (env w) = false ->
  active_ring (db w) = first :: rest ->
  NoDup (map a_id (first :: rest)) -> a_id first <> 0 ->
  rotation_state (db w) = Some r0 ->
  exists res w1 a w2 r2,
    resetRotation w = (Ok res, w1) /\
    rotation_state (db w1)
    = Some (MkRotationState (Some (a_id first)) (Some 0) (total_orders r0) (now w)) /\
    getNextPaymentEmail w1 = (Ok a, w2) /\
    alias_id a = Some (a_id first) /\
    rotation_state (db w2) = Some r2 /\
    current_alias_id r2 = Some (a_id first) /\ order_count r2 = Some 1.
Proof.
  intros Hf Hp Hring Hnd Hnz Er.
  set (w1 := MkWorld
               (with_rotation (db w)
                  (Some (MkRotationState (Some (a_id first)) (Some 0) (total_orders r0) (now w))))
               (now w) (env w) None (alerts w) (outbox w)).
  assert (Hreset : exists res, resetRotation w = (Ok res, w1)).
  { unfold w1. clear w1. world w. run_admin. rewrite Hring. cbn [hd_error].
    apply Z.eqb_neq in Hnz. rewrite Hnz.
    unfold store; cbn [fuse db now env option_map with_db]. rewrite Er.
    eexists. reflexivity. }
  destruct Hreset as [res Hreset].
  destruct (selection_run w1 _ first rest eq_refl Hp eq_refl Hring)
    as (a & sel & c & Hrun & _ & _ & Hid & _ & Hwf & _).
  destruct (Hwf 0 0%nat first eq_refl Hnz eq_refl Hnd eq_refl) as [Hstay _].
  destruct (Hstay ltac:(unfold ORDERS_PER_ROTATION; lia)) as [Hsel ->].
  exists res, w1, a. eexists. eexists.
  split; [exact Hreset|]. split; [reflexivity|]. split; [exact Hrun|].
  split; [congruence|]. split; [reflexivity|].
  cbn [current_alias_id order_count]. split; [congruence | reflexivity].
Qed.

Lemma reset_then_select_witness :
  exists res w1 a w2 r2,
    resetRotation (world (db_rotation 3 7) None) = (Ok res, w1) /\
    getNextPaymentEmail w1 = (Ok a, w2) /\
    alias_id a = Some (a_id A) /\
    rotation_state (db w2) = Some r2 /\
    current_alias_id r2 = Some (a_id A) /\ order_count r2 = Some 1.
Proof.
  destruct (reset_then_select (world (db_rotation 3 7) None)
              (MkRotationState (Some 3) (Some 7) 0 0) A [B; C])
    as (res & w1 & a & w2 & r2 & H1 & _ & H3 & H4 & H5 & H6 & H7);
    try reflexivity.
  - repeat constructor; simpl; intuition discriminate.
  - discriminate.
  - exists res, w1, a, w2, r2. auto 10.
Defined.

(** X8.  The three administrative operations never throw, whatever the store
    does; [getRotationStatus] writes nothing, and a failed [forceRotate] or
    [resetRotation] leaves the rotation state and the aliases as they were. *)
Theorem rotation_admin_fail_safe (w : World) :
  (exists s w', getRotationStatus w = (Ok s, w') /\ db w' = db w) /\
  (exists r w', forceRotate w = (Ok r, w') /\
                (r = AdminError \/ r = NoActiveAliases -> db w' = db w)) /\
  (exists r w', resetRotation w = (Ok r, w') /\ (r = AdminError -> db w' = db w)).
Proof.
  world w. split; [|split].
  - run_admin.
    repeat (break_match; unfold store in *;
            cbn [fuse db now env option_map with_db fst snd Nat.pred] in * );
      eexists _, _; split; reflexivity.
  - run_admin.
    repeat (break_match; unfold store in *;
            cbn [fuse db now env option_map with_db fst snd Nat.pred] in * );
      eexists _, _; (split; [reflexivity|]); cbn [db];
      intros [?|?]; try discriminate; reflexivity.
  - run_admin.
    repeat (break_match; unfold store in *;
            cbn [fuse db now env option_map with_db fst snd Nat.pred] in * );
      eexists _, _; (split; [reflexivity|]); cbn [db];
      intros ?; try discriminate; reflexivity.
Qed.

(** X9.  On the SQLite store, right after a selection, [getRotationStatus]
    reports what the selection returned: the same current email, the persisted
    counter, and the same number of orders until the next rotation. *)
Theorem status_after_selection
        (w : World) (r0 : RotationState) (first : Alias) (rest : list Alias) :
  fuse w = None ->
  isProduction (env w) = false ->
  rotation_state (db w) = Some r0 ->
  active_ring (db w) = first :: rest ->
  NoDup (map a_id (first :: rest)) ->
  exists a w' c bank total entries,
    getNextPaymentEmail w = (Ok a, w') /\
    getRotationStatus w'
    = (Ok (StatusActive (if truthy_str (email a) then email a else None) bank
                        (Some c) (ORDERS_PER_ROTATION - c) total
                        (Z.of_nat (length (first :: rest))) entries), w') /\
    orders_until_rotation a = Some (ORDERS_PER_ROTATION - c).
Proof.
  intros Hf Hp Er Hring Hnd.
  destruct (selection_run w r0 first rest Hf Hp Er Hring)
    as (a & sel & c & Hrun & Hin & Hmail & Hid & Huntil & _).
  set (f := stamp (a_id sel) (now w)) in *.
  assert (Hring' : forall r', active_ring
            (with_aliases (with_rotation (db w) r') (map f (email_aliases (db w))))
            = map f (first :: rest)).
  { intros r'.
    change (email_aliases (db w)) with (email_aliases (with_rotation (db w) r')).
    rewrite active_ring_map by (intros; apply stamp_id || apply stamp_active).
    change (active_ring (with_rotation (db w) r')) with (active_ring (db w)).
    now rewrite Hring. }
  assert (Hfind : find (is_alias (Some (a_id sel))) (map f (first :: rest)) = Some (f sel)).
  { destruct (find (is_alias (Some (a_id sel))) (map f (first :: rest))) as [y|] eqn:E.
    - apply find_some in E as [Hy Hq]. apply in_map_iff in Hy as (x & <- & Hx).
      unfold is_alias in Hq. apply Z.eqb_eq in Hq. unfold f in Hq. rewrite stamp_id in Hq.
      now rewrite (NoDup_map_eq a_id _ x sel Hnd Hx Hin Hq).
    - exfalso. pose proof (find_none _ _ E (f sel) (in_map f _ _ Hin)) as Hq.
      unfold is_alias, f in Hq. rewrite stamp_id, Z.eqb_refl in Hq. discriminate. }
  exists a. eexists. exists c. eexists _, _, _.
  split; [exact Hrun|]. split; [|exact Huntil].
  run_admin. cbn [rotation_state with_aliases with_rotation].
  rewrite Hring'. cbn [map].
  change (f first :: map f rest) with (map f (first :: rest)).
  cbn [current_alias_id order_count]. rewrite Hfind.
  unfold f at 1 2. rewrite stamp_email. rewrite Hmail.
  rewrite length_map. reflexivity.
Qed.

Lemma status_after_selection_witness :
  exists a w' bank total entries,
    getNextPaymentEmail (world (db_rotation 2 7) None) = (Ok a, w') /\
    getRotationStatus w'
    = (Ok (StatusActive (Some (alias_email B)) bank (Some 8) 12 total 3 entries), w').
Proof.
  destruct (status_after_selection (world (db_rotation 2 7) None)
              (MkRotationState (Some 2) (Some 7) 0 0) A [B; C]
              eq_refl eq_refl eq_refl eq_refl)
    as (a & w' & c & bank & total & entries & Hrun & Hst & Hu).
  - repeat constructor; simpl; intuition discriminate.
  - assert (H := Hrun). vm_compute in H. injection H as <- _.
    assert (c = 8).
    { change (Some 12 = Some (20 - c)) in Hu.
      apply (f_equal (fun o => match o with Some z => z | None => 0 end)) in Hu.
      lia. }
    subst c.
    eexists. exists w', bank, total, entries. split; [exact Hrun|]. exact Hst.
Defined.

Lemma rotation_admin_fail_safe_witness :
  exists w',
    forceRotate (world (db_rotation 2 7) (Some 2%nat)) = (Ok AdminError, w') /\
    db w' = db_rotation 2 7.
Proof.
  destruct (proj1 (proj2 (rotation_admin_fail_safe (world (db_rotation 2 7) (Some 2%nat)))))
    as (r & w' & Hrun & Hsafe).
  assert (H := Hrun). vm_compute in H. injection H as <- _.
  exists w'. split; [exact Hrun|]. apply Hsafe. now left.
Defined.

(** X29.  On the production store the listing of the active aliases is
    rejected (the query compares the BOOLEAN column [active] with 1), so the
    rotation is inoperative there: whatever the rotation state and whatever
    else the store does, [getNextPaymentEmail] answers the default assignment
    and stamps no alias, [getRotationStatus] reports an error, and
    [forceRotate] and [resetRotation] fail; the three administrative
    operations leave every table as it was. *)
Theorem rotation_is_inoperative_on_production (w : World) :
  isProduction (env w) = true ->
  (exists w', getNextPaymentEmail w = (Ok (default_assignment (env w)), w') /\
              email_aliases (db w') = email_aliases (db w) /\
              (forall r, rotation_state (db w) = Some r -> db w' = db w)) /\
  (exists w', getRotationStatus w = (Ok StatusError, w') /\ db w' = db w) /\
  (exists w', forceRotate w = (Ok AdminError, w') /\ db w' = db w) /\
  (exists w', resetRotation w = (Ok AdminError, w') /\ db w' = db w).
Proof.
  intros Hp. world w. split; [|split; [|split]].
  - run_rotation.
    repeat (break_match; unfold store in *;
            cbn [fuse db now env option_map with_db fst snd Nat.pred] in *;
            rewrite ?Hp in * );
      try discriminate;
      (eexists; split; [reflexivity|]); cbn; split; try reflexivity;
      try (intros r Hr; congruence).
  - run_admin.
    repeat (break_match; unfold store in *;
            cbn [fuse db now env option_map with_db fst snd Nat.pred] in *;
            rewrite ?Hp in * );
      try discriminate; eexists; split; reflexivity.
  - run_admin.
    repeat (break_match; unfold store in *;
            cbn [fuse db now env option_map with_db fst snd Nat.pred] in *;
            rewrite ?Hp in * );
      try discriminate; eexists; split; reflexivity.
  - run_admin.
    repeat (break_match; unfold store in *;
            cbn [fuse db now env option_map with_db fst snd Nat.pred] in *;
            rewrite ?Hp in * );
      try discriminate; eexists; split; reflexivity.
Qed.

Lemma rotation_is_inoperative_on_production_witness :
  (exists w', getNextPaymentEmail (Samples.world_pg (db_rotation 2 7) None)
              = (Ok (default_assignment Samples.env_pg), w') /\
              db w' = db_rotation 2 7) /\
  (exists w', forceRotate (Samples.world_pg (db_rotation 2 7) None)
              = (Ok AdminError, w') /\ db w' = db_rotation 2 7).
Proof.
  destruct (rotation_is_inoperative_on_production
              (Samples.world_pg (db_rotation 2 7) None) eq_refl)
    as ((w1 & H1 & _ & Hd) & _ & (w3 & H3 & Hd3) & _).
  split.
  - exists w1. split; [exact H1|]. exact (Hd _ eq_refl).
  - exists w3. split; [exact H3 | exact Hd3].
Defined.

(* ===================================================================== *)
(** ** Matching engine: what a result guarantees *)
(* ===================================================================== *)

Lemma most_recent_max (l : list Order) (o : Order) :
  most_recent l = Some o -> forall x, In x l -> created_at x <= created_at o.
Proof.
  revert o. induction l as [|y l IH]; intros o H x Hx; [contradiction|].
  simpl in H. destruct (most_recent l) as [o'|] eqn:E.
  - destruct (Z.ltb_spec (created_at y) (created_at o')) as [Hlt|Hge];
      injection H as <-; destruct Hx as [<-|Hx]; try lia.
    + now apply IH.
    + specialize (IH o' eq_refl x Hx). lia.
  - injection H as <-. destruct Hx as [<-|Hx]; [lia|].
    destruct l; [contradiction | simpl in E].
    destruct (most_recent l); [destruct (_ <? _)|]; discriminate.
Qed.

Lemma most_recent_filter (p : Order -> bool) (l : list Order) (o : Order) :
  most_recent (filter p l) = Some o ->
  In o l /\ p o = true /\
  forall x, In x l -> p x = true -> created_at x <= created_at o.
Proof.
  intros H. pose proof (most_recent_in _ _ H) as Hin.
  apply filter_In in Hin as [Hin Hp]. repeat split; auto.
  intros x Hx Hpx. apply (most_recent_max _ _ H). apply filter_In. auto.
Qed.

Lemma most_recent_none (l : list Order) : most_recent l = None -> l = [].
Proof.
  destruct l as [|x l]; [reflexivity|]. simpl.
  destruct (most_recent l); [destruct (_ <? _)|]; discriminate.
Qed.

Lemma filter_empty (p : Order -> bool) (l : list Order) :
  filter p l = [] -> forall x, In x l -> p x = false.
Proof.
  intros H x Hx. destruct (p x) eqn:E; [|reflexivity].
  assert (Hin : In x (filter p l)) by (apply filter_In; auto).
  rewrite H in Hin. contradiction.
Qed.

Lemma amount_is_val (a : jsval Z) (o : Order) :
  truthy_num a = true -> amount_is a o = true ->
  a = Val (amount_cents o) /\ amount_cents o <> 0.
Proof.
  destruct a as [| |z]; simpl; try discriminate.
  intros Hz He. apply Z.eqb_eq in He. subst z.
  split; [reflexivity|]. destruct (Z.eqb_spec (amount_cents o) 0); [discriminate | assumption].
Qed.

Lemma falsy_amount (a : jsval Z) (z : Z) :
  truthy_num a = false -> a <> Val z \/ z = 0.
Proof.
  destruct a as [| |n]; simpl; intros H; try (left; discriminate).
  destruct (Z.eqb_spec n 0); [|discriminate]. subst n.
  destruct (Z.eq_dec z 0); [now right | left; congruence].
Qed.

Lemma none_by_amount (a : jsval Z) (l : list Order) :
  most_recent (filter (by_amount a) l) = None ->
  forall o, In o l -> is_open (status o) = true -> a <> Val (amount_cents o).
Proof.
  intros H o Hin Hopen ->.
  apply most_recent_none in H.
  pose proof (filter_empty _ _ H o Hin) as Hf.
  unfold by_amount, amount_is in Hf. rewrite Z.eqb_refl, Hopen in Hf. discriminate.
Qed.

Lemma singleton_filter (l : list Order) (o : Order) :
  most_recent l = Some o -> (Z.of_nat (length l) =? 1) = true -> l = [o].
Proof.
  intros H Hc. apply Z.eqb_eq in Hc.
  destruct l as [|x [|y l]]; simpl in Hc; try lia.
  simpl in H. congruence.
Qed.

Lemma several_in_filter (l : list Order) (o : Order) :
  most_recent l = Some o -> (Z.of_nat (length l) =? 1) = false ->
  2 <= Z.of_nat (length l).
Proof.
  intros H Hc. apply Z.eqb_neq in Hc.
  destruct l as [|x [|y l]]; simpl in *; try discriminate; lia.
Qed.

Lemma most_recent_some_length (l : list Order) (o : Order) :
  most_recent l = Some o -> 1 <= Z.of_nat (length l).
Proof.
  destruct l; [discriminate | intros _; cbn [length]; lia].
Qed.

(** The six shapes of a result of the matching engine.  The 30-minute window
    is what the store makes of it: instants on the production store, calendar
    days on the SQLite store; and only the SQLite store answers the count as
    a number, so only there a single recent order is returned with confidence
    70. *)
Lemma matchPaymentToOrder_shapes
        (w w1 : World) (pd : PaymentData) (mr : MatchResult) :
  fuse w = None ->
  matchPaymentToOrder pd w = (Ok mr, w1) ->
  match matchType mr with
  | reference_and_amount =>
      confidence mr = 100 /\ count mr = None /\
      exists o ref, order mr = Some o /\ In o (orders (db w)) /\
        referenceCode pd = Some ref /\ ref <> EmptyString /\
        reference_number o = ref /\ is_open (status o) = true /\
        within_tolerance (amount_cents o) (amountCents pd) = true
  | email_and_amount =>
      confidence mr = 90 /\ count mr = None /\
      exists o, order mr = Some o /\ In o (orders (db w)) /\
        is_open (status o) = true /\
        amountCents pd = Val (amount_cents o) /\ amount_cents o <> 0 /\
        customer_email o = senderEmail pd /\
        forall x, In x (orders (db w)) ->
                  by_email_amount (amountCents pd) (senderEmail pd) x = true ->
                  created_at x <= created_at o
  | amount_and_time =>
      isProduction (env w) = false /\
      confidence mr = 70 /\ count mr = None /\
      exists o, order mr = Some o /\ In o (orders (db w)) /\
        is_open (status o) = true /\
        amountCents pd = Val (amount_cents o) /\ amount_cents o <> 0 /\
        day (now w - 1800000) < day (created_at o) /\
        filter (by_amount_recent (env w) (amountCents pd) (now w - 1800000))
               (orders (db w)) = [o]
  | multiple_matches =>
      confidence mr = 50 /\ order mr = None /\
      exists c, count mr = Some c /\ 1 <= c /\
        (isProduction (env w) = false -> 2 <= c) /\
        c = Z.of_nat (length (filter (by_amount_recent (env w) (amountCents pd)
                                                       (now w - 1800000))
                                     (orders (db w))))
  | amount_only =>
      confidence mr = 50 /\ count mr = None /\
      exists o, order mr = Some o /\ In o (orders (db w)) /\
        is_open (status o) = true /\
        amountCents pd = Val (amount_cents o) /\ amount_cents o <> 0 /\
        if isProduction (env w)
        then created_at o < now w - 1800000
        else day (created_at o) <= day (now w - 1800000)
  | no_match =>
      confidence mr = 0 /\ order mr = None /\ count mr = None /\
      forall o, In o (orders (db w)) -> is_open (status o) = true ->
                amountCents pd <> Val (amount_cents o) \/ amount_cents o = 0
  end.
Proof.
  intros Hf. world w. intros H. run_match_in H.
  change (30 * 60 * 1000) with 1800000 in H.
  match goal with |- ?G => set (P := G) end.
  brute.
  all: injection H as <- <-; subst P; cbn [order confidence matchType count env].
  all: repeat match goal with
       | H : _ && _ = true |- _ => apply andb_prop in H as [? ?]
       | H : negb _ = true |- _ => apply Bool.negb_true_iff in H
       end.
  all: lazymatch goal with
       | |- 100 = 100 /\ _ =>
           split; [reflexivity|]; split; [reflexivity|];
           match goal with
           | E : find _ _ = Some ?o, R : referenceCode _ = Some ?s |- _ =>
               exists o, s; apply find_some in E as [Hin Hby];
               unfold by_reference in Hby; apply andb_prop in Hby as [Href Hopen];
               apply String.eqb_eq in Href;
               repeat split; auto;
               intros ->; discriminate
           end
       | |- 90 = 90 /\ _ =>
           split; [reflexivity|]; split; [reflexivity|];
           match goal with
           | E : most_recent (filter _ _) = Some ?o |- _ =>
               exists o; apply most_recent_filter in E as (Hin & Hby & Hmax);
               unfold by_email_amount in Hby;
               apply andb_prop in Hby as [Hby Hopen];
               apply andb_prop in Hby as [Ham Hem];
               destruct (amount_is_val _ _ ltac:(eassumption) Ham) as [Ha Hnz];
               repeat split; auto;
               unfold email_is in Hem;
               destruct (senderEmail pd), (customer_email o); try discriminate;
               apply String.eqb_eq in Hem; congruence
           end
       | |- _ = false /\ 70 = 70 /\ _ =>
           split; [assumption|]; split; [reflexivity|]; split; [reflexivity|];
           match goal with
           | E : most_recent (filter _ _) = Some ?o, C : (_ =? 1) = true,
             Hs : isProduction _ = false |- _ =>
               exists o; pose proof (singleton_filter _ _ E C) as Hone;
               apply most_recent_filter in E as (Hin & Hby & _);
               unfold by_amount_recent in Hby;
               apply andb_prop in Hby as [Hby Hsince];
               apply andb_prop in Hby as [Ham Hopen];
               destruct (amount_is_val _ _ ltac:(eassumption) Ham) as [Ha Hnz];
               unfold created_since in Hsince; rewrite Hs in Hsince;
               apply Z.ltb_lt in Hsince;
               repeat split; auto
           end
       | |- 50 = 50 /\ None = None /\ (exists c : Z, _) =>
           split; [reflexivity|]; split; [reflexivity|];
           eexists; split; [reflexivity|];
           match goal with
           | E : most_recent (filter _ _) = Some _, C : _ && _ = false |- _ =>
               split; [exact (most_recent_some_length _ _ E)|];
               split; [|reflexivity];
               intros Hs; rewrite Hs in C; cbn [negb andb] in C;
               eapply several_in_filter; eassumption
           end
       | |- 50 = 50 /\ _ =>
           split; [reflexivity|]; split; [reflexivity|];
           match goal with
           | E : most_recent (filter (by_amount _) _) = Some ?o,
             N : most_recent (filter (by_amount_recent _ _ _) _) = None |- _ =>
               exists o; apply most_recent_filter in E as (Hin & Hby & _);
               apply most_recent_none in N;
               pose proof (filter_empty _ _ N o Hin) as Hnot;
               unfold by_amount in Hby; unfold by_amount_recent in Hnot;
               apply andb_prop in Hby as [Ham Hopen];
               rewrite Ham, Hopen in Hnot; cbn [andb] in Hnot;
               destruct (amount_is_val _ _ ltac:(eassumption) Ham) as [Ha Hnz];
               do 5 (split; [auto|]);
               revert Hnot; unfold created_since;
               destruct (isProduction _); intros Hnot;
               [apply Z.leb_gt in Hnot | apply Z.ltb_ge in Hnot]; exact Hnot
           end
       | |- 0 = 0 /\ _ =>
           split; [reflexivity|]; split; [reflexivity|]; split; [reflexivity|];
           intros x Hx Hopen;
           first [ apply falsy_amount; assumption
                 | left; eapply none_by_amount; eassumption ]
       end.
Qed.

(** X10.  Every result of the matching engine is one of six shapes, and
    the order it carries is justified by the ledger.  The window of the
    amount tier is the store's: on the production store an order is recent
    when it was created at most 30 minutes ago, and a recent order is always
    reported as one of several (count at least 1); on the SQLite store an
    order is recent when its calendar day (UTC) is after that of the bound, a
    single recent order is returned with confidence 70, and several are
    reported with their count (at least 2). *)
Theorem match_result_is_justified
        (w w1 : World) (pd : PaymentData) (mr : MatchResult) :
  fuse w = None ->
  matchPaymentToOrder pd w = (Ok mr, w1) ->
  match matchType mr with
  | reference_and_amount =>
      confidence mr = 100 /\ count mr = None /\
      exists o ref, order mr = Some o /\ In o (orders (db w)) /\
        referenceCode pd = Some ref /\ ref <> EmptyString /\
        reference_number o = ref /\ is_open (status o) = true /\
        within_tolerance (amount_cents o) (amountCents pd) = true
  | email_and_amount =>
      confidence mr = 90 /\ count mr = None /\
      exists o, order mr = Some o /\ In o (orders (db w)) /\
        is_open (status o) = true /\
        amountCents pd = Val (amount_cents o) /\ amount_cents o <> 0 /\
        customer_email o = senderEmail pd /\
        forall x, In x (orders (db w)) ->
                  by_email_amount (amountCents pd) (senderEmail pd) x = true ->
                  created_at x <= created_at o
  | amount_and_time =>
      isProduction (env w) = false /\
      confidence mr = 70 /\ count mr = None /\
      exists o, order mr = Some o /\ In o (orders (db w)) /\
        is_open (status o) = true /\
        amountCents pd = Val (amount_cents o) /\ amount_cents o <> 0 /\
        day (now w - 1800000) < day (created_at o) /\
        filter (by_amount_recent (env w) (amountCents pd) (now w - 1800000))
               (orders (db w)) = [o]
  | multiple_matches =>
      confidence mr = 50 /\ order mr = None /\
      exists c, count mr = Some c /\ 1 <= c /\
        (isProduction (env w) = false -> 2 <= c) /\
        c = Z.of_nat (length (filter (by_amount_recent (env w) (amountCents pd)
                                                       (now w - 1800000))
                                     (orders (db w))))
  | amount_only =>
      confidence mr = 50 /\ count mr = None /\
      exists o, order mr = Some o /\ In o (orders (db w)) /\
        is_open (status o) = true /\
        amountCents pd = Val (amount_cents o) /\ amount_cents o <> 0 /\
        if isProduction (env w)
        then created_at o < now w - 1800000
        else day (created_at o) <= day (now w - 1800000)
  | no_match =>
      confidence mr = 0 /\ order mr = None /\ count mr = None /\
      forall o, In o (orders (db w)) -> is_open (status o) = true ->
                amountCents pd <> Val (amount_cents o) \/ amount_cents o = 0
  end.
Proof. exact (matchPaymentToOrder_shapes w w1 pd mr). Qed.

Lemma match_result_is_justified_witness :
  exists o,
    In o [o1; o2; o3; o5] /\
    customer_email o = Some "bob@example.com"%string /\
    amount_cents o = 500000.
Proof.
  destruct (match_result_is_justified
              (world (db_orders [o1; o2; o3; o5]) None)
              (world (db_orders [o1; o2; o3; o5]) None)
              (notification 500000 (Some "bob@example.com"%string) None)
              (MkMatchResult (Some o2) 90 email_and_amount None)
              eq_refl)
    as (_ & _ & o & _ & Hin & _ & Ha & _ & He & _).
  - vm_compute. reflexivity.
  - exists o. split; [exact Hin|]. split; [exact He|]. now injection Ha.
Defined.

(* ===================================================================== *)
(** ** The 1% tolerance of the reference tier *)
(* ===================================================================== *)

Lemma tolerance_test (a n : Z) :
  safe_integer a -> safe_integer n -> safe_integer (a - n) ->
  within_tolerance a (Val n) = true <->
  (inject_Z (Z.abs (a - n)) <= fl (inject_Z a * c_0_01))%Q.
Proof.
  intros Ha Hn Hd.
  unfold within_tolerance, to_number, sub, mul, Math_abs.
  rewrite Qle_bool_iff.
  rewrite (fl_compat (fl (inject_Z a) - fl (inject_Z n)) (inject_Z (a - n))).
  2:{ rewrite (fl_int a Ha), (fl_int n Hn). unfold Zminus.
      rewrite inject_Z_plus, inject_Z_opp. reflexivity. }
  rewrite (fl_compat (fl (inject_Z a) * c_0_01) (inject_Z a * c_0_01)).
  2:{ rewrite (fl_int a Ha). reflexivity. }
  rewrite (fl_int (a - n) Hd).
  change (Qabs (inject_Z (a - n))) with (inject_Z (Z.abs (a - n))).
  reflexivity.
Qed.

(** X11.  For amounts below 2^46 cents the floating-point test
    [Math.abs(order.amount_cents - amountCents) <= order.amount_cents * 0.01]
    decides exactly the integer condition [100 * |a - n| <= a]: neither the
    rounding of 0.01 nor that of the product changes the verdict. *)
Theorem tolerance_is_exactly_one_percent (a n : Z) :
  0 <= a < 2 ^ 46 -> Z.abs n < 2 ^ 52 ->
  within_tolerance a (Val n) = true <-> 100 * Z.abs (a - n) <= a.
Proof.
  intros Ha Hn.
  assert (P46 : 2 ^ 46 = 70368744177664) by reflexivity.
  assert (P52 : 2 ^ 52 = 4503599627370496) by reflexivity.
  assert (P53 : 2 ^ 53 = 9007199254740992) by reflexivity.
  assert (Sa : safe_integer a) by (unfold safe_integer; lia).
  assert (Sn : safe_integer n) by (unfold safe_integer; lia).
  assert (Sd : safe_integer (a - n)) by (unfold safe_integer; lia).
  split.
  - intros H. apply (tolerance_test a n Sa Sn Sd) in H.
    destruct (Z.eq_dec a 0) as [Ha0|Ha0].
    + subst a. change (fl (inject_Z 0 * c_0_01)) with 0%Q in H.
      unfold Qle in H. simpl in H. lia.
    + set (k := Z.abs (a - n)) in *.
      pose proof (Z.div_mod a 100 ltac:(lia)) as Ediv.
      pose proof (Z.mod_pos_bound a 100 ltac:(lia)) as Hr.
      set (q0 := a / 100) in *. set (r := a mod 100) in *.
      assert (Hup : (fl (inject_Z a * c_0_01)
                     <= inject_Z (128 * q0 + 127) * (1 # Z.to_pos (2 ^ 7)))%Q).
      { apply fl_le_dyadic.
        - lia.
        - rewrite c_0_01_value. unfold Qlt, Qmult, inject_Z. cbn [Qnum Qden]. lia.
        - rewrite c_0_01_value. change (Z.to_pos (2 ^ 7)) with 128%positive.
          unfold Qle, Qmult, inject_Z. cbn [Qnum Qden]. lia.
        - rewrite c_0_01_value. change (2 ^ 7) with 128.
          unfold Qlt, Qmult, inject_Z. cbn [Qnum Qden]. lia. }
      pose proof (Qle_trans _ _ _ H Hup) as Hk.
      change (Z.to_pos (2 ^ 7)) with 128%positive in Hk.
      unfold Qle, Qmult, inject_Z in Hk. cbn [Qnum Qden] in Hk.
      lia.
  - intros H. now apply within_tolerance_one_percent.
Qed.

Lemma tolerance_is_exactly_one_percent_witness :
  within_tolerance 300000 (Val 297000) = true /\
  within_tolerance 300000 (Val 296999) = false.
Proof.
  split.
  - apply (tolerance_is_exactly_one_percent 300000 297000).
    + change (2 ^ 46) with 70368744177664. lia.
    + reflexivity.
    + change (Z.abs (300000 - 297000)) with 3000. lia.
  - destruct (within_tolerance 300000 (Val 296999)) eqn:E; [|reflexivity].
    exfalso. apply (tolerance_is_exactly_one_percent 300000 296999) in E.
    + change (Z.abs (300000 - 296999)) with 3001 in E. lia.
    + change (2 ^ 46) with 70368744177664. lia.
    + reflexivity.
Defined.

(* ===================================================================== *)
(** ** Disposition of a processed payment, tier by tier *)
(* ===================================================================== *)

(** What [processPayment] does for each tier of the matching engine.  The
    record of an unmatched payment needs an amount: the column is NOT NULL,
    and without a parsed amount the INSERT is rejected and [processPayment]
    throws before the alert. *)
Lemma processPayment_by_tier
        (w w1 : World) (pd : PaymentData) (mr : MatchResult) :
  fuse w = None ->
  matchPaymentToOrder pd w = (Ok mr, w1) ->
  exists res w',
    processPayment pd w = (res, w') /\
    match matchType mr with
    | reference_and_amount | email_and_amount | amount_and_time =>
        exists o, order mr = Some o /\ res = Ok (AutoConfirmed o mr) /\
          orders (db w')
          = map (fun x => if o_id x =? o_id o
                          then set_status x paid (now w) (Some (now w)) else x)
                (orders (db w)) /\
          payment_events (db w')
          = payment_events (db w)
            ++ [MkEvent (Some (o_id o)) payment_auto_matched
                        (EvMatch (confidence mr) (matchType mr) pd)] /\
          unmatched_payments (db w') = unmatched_payments (db w) /\
          alerts w' = alerts w /\
          outbox w'
          = match customer_email o with
            | Some to =>
                if EMAIL_ENABLED (env w) && negb (String.eqb to EmptyString)
                then outbox w ++ [MkMail to paymentConfirmation]
                else outbox w
            | None => outbox w
            end
    | amount_only =>
        exists o, order mr = Some o /\ res = Ok (NeedsReview mr) /\
          orders (db w') = orders (db w) /\
          payment_events (db w')
          = payment_events (db w)
            ++ [MkEvent (Some (o_id o)) payment_needs_review
                        (EvMatch 50 amount_only pd)] /\
          unmatched_payments (db w') = unmatched_payments (db w) /\
          alerts w' = alerts w ++ [MkAlert alert_warning PaymentNeedsReview]
    | multiple_matches | no_match =>
        orders (db w') = orders (db w) /\
        payment_events (db w') = payment_events (db w) /\
        match amountCents pd with
        | Val _ =>
            res = Ok (Unmatched pd) /\
            unmatched_payments (db w')
            = unmatched_payments (db w)
              ++ [MkUnmatched (amountCents pd) (senderEmail pd) (senderName pd)
                              (referenceCode pd) (ReasonTier (matchType mr))] /\
            alerts w' = alerts w ++ [MkAlert alert_error UnmatchedPaymentAlert]
        | _ =>
            res = Throw StoreError /\
            unmatched_payments (db w') = unmatched_payments (db w) /\
            alerts w' = alerts w
        end
    end.
Proof.
  intros Hf H.
  pose proof (matchPaymentToOrder_reads_only _ _ _ _ Hf H) as ->.
  pose proof (matchPaymentToOrder_shapes _ _ _ _ Hf H) as Hs.
  world w.
  unfold processPayment, bind. rewrite H.
  destruct mr as [ord conf ty cnt]. cbn [order confidence matchType count] in *.
  destruct ty.
  1: destruct Hs as (-> & -> & o & ref & -> & _).
  2: destruct Hs as (-> & -> & o & -> & _).
  3: destruct Hs as (_ & -> & -> & o & -> & _).
  4: destruct Hs as (-> & -> & c & -> & _).
  5: destruct Hs as (-> & -> & o & -> & _).
  6: destruct Hs as (-> & -> & -> & _).
  all: unfold mark_paid, insert_event, insert_unmatched, sendAdminAlert,
         sendPaymentConfirmation, sendEmail, read_env, ret, store, bind;
       cbn [fuse db now env alerts outbox option_map with_db with_alert with_mail
            Z.leb Z.compare Pos.compare Pos.compare_cont u_amount_cents].
  4, 6: destruct (amountCents pd) as [| |n] eqn:Ea.
  all: cbn [fuse db now env alerts outbox option_map with_db with_alert with_mail].
  1-3: destruct (customer_email o) as [to|] eqn:Ec; cbn [truthy_str].
  1-6: try destruct (String.eqb to EmptyString) eqn:Eto.
  all: destruct (ADMIN_EMAIL e) as [adm|]; cbn [truthy_str];
       try destruct (String.eqb adm EmptyString).
  all: destruct (EMAIL_ENABLED e) eqn:Een;
       cbn [negb andb fuse db now env alerts outbox with_db with_alert with_mail
            with_orders with_event with_unmatched orders payment_events
            unmatched_payments];
       rewrite ?Een.
  all: eexists _, _; (split; [reflexivity|]).
  all: try (exists o; rewrite ?Ec, ?Een, ?Eto); repeat split; reflexivity.
Qed.

(** X13.  [processPayment] auto-confirms the three tiers of confidence 70 and
    above (the order is set to paid by id, one [payment_auto_matched] event
    is appended, the customer is mailed when mail is enabled and the order
    has an address; nothing is recorded as unmatched and no alert is raised);
    it flags [amount_only] for review (one [payment_needs_review] event and a
    warning alert, no order changed); and for [multiple_matches] and
    [no_match] it changes neither orders nor events: with a parsed amount the
    payment is recorded in [unmatched_payments] with an error alert; without
    one ([amountCents] null or NaN) the INSERT violates NOT NULL, the call
    throws, nothing is recorded and no alert is raised. *)
Theorem disposition_by_tier
        (w w1 : World) (pd : PaymentData) (mr : MatchResult) :
  fuse w = None ->
  matchPaymentToOrder pd w = (Ok mr, w1) ->
  exists res w',
    processPayment pd w = (res, w') /\
    match matchType mr with
    | reference_and_amount | email_and_amount | amount_and_time =>
        exists o, order mr = Some o /\ res = Ok (AutoConfirmed o mr) /\
          orders (db w')
          = map (fun x => if o_id x =? o_id o
                          then set_status x paid (now w) (Some (now w)) else x)
                (orders (db w)) /\
          payment_events (db w')
          = payment_events (db w)
            ++ [MkEvent (Some (o_id o)) payment_auto_matched
                        (EvMatch (confidence mr) (matchType mr) pd)] /\
          unmatched_payments (db w') = unmatched_payments (db w) /\
          alerts w' = alerts w /\
          outbox w'
          = match customer_email o with
            | Some to =>
                if EMAIL_ENABLED (env w) && negb (String.eqb to EmptyString)
                then outbox w ++ [MkMail to paymentConfirmation]
                else outbox w
            | None => outbox w
            end
    | amount_only =>
        exists o, order mr = Some o /\ res = Ok (NeedsReview mr) /\
          orders (db w') = orders (db w) /\
          payment_events (db w')
          = payment_events (db w)
            ++ [MkEvent (Some (o_id o)) payment_needs_review
                        (EvMatch 50 amount_only pd)] /\
          unmatched_payments (db w') = unmatched_payments (db w) /\
          alerts w' = alerts w ++ [MkAlert alert_warning PaymentNeedsReview]
    | multiple_matches | no_match =>
        orders (db w') = orders (db w) /\
        payment_events (db w') = payment_events (db w) /\
        match amountCents pd with
        | Val _ =>
            res = Ok (Unmatched pd) /\
            unmatched_payments (db w')
            = unmatched_payments (db w)
              ++ [MkUnmatched (amountCents pd) (senderEmail pd) (senderName pd)
                              (referenceCode pd) (ReasonTier (matchType mr))] /\
            alerts w' = alerts w ++ [MkAlert alert_error UnmatchedPaymentAlert]
        | _ =>
            res = Throw StoreError /\
            unmatched_payments (db w') = unmatched_payments (db w) /\
            alerts w' = alerts w
        end
    end.
Proof. exact (processPayment_by_tier w w1 pd mr). Qed.

Lemma disposition_by_tier_witness :
  exists w',
    processPayment (notification 500000 (Some "bob@example.com"%string) None)
                   (world (db_orders [o1; o2; o3; o5]) None)
    = (Ok (AutoConfirmed o2 (MkMatchResult (Some o2) 90 email_and_amount None)), w') /\
    orders (db w') = [o1; set_status o2 paid T0 (Some T0); o3; o5] /\
    alerts w' = [].
Proof.
  destruct (disposition_by_tier
              (world (db_orders [o1; o2; o3; o5]) None)
              (world (db_orders [o1; o2; o3; o5]) None)
              (notification 500000 (Some "bob@example.com"%string) None)
              (MkMatchResult (Some o2) 90 email_and_amount None)
              eq_refl)
    as (res & w' & Hrun & o & Ho & -> & Hord & _ & _ & Hal & _).
  - vm_compute. reflexivity.
  - injection Ho as <-. exists w'. split; [exact Hrun|]. split; [exact Hord | exact Hal].
Defined.

(* ===================================================================== *)
(** ** Orders that are no longer open *)
(* ===================================================================== *)

Lemma matchPaymentToOrder_total (w : World) (pd : PaymentData) :
  fuse w = None -> exists mr, matchPaymentToOrder pd w = (Ok mr, w).
Proof.
  intros Hf. world w. run_match. brute. all: eexists; reflexivity.
Qed.

Lemma pay_id (id t : Z) (l : list Order) : map o_id (map (pay id t) l) = map o_id l.
Proof.
  rewrite map_map. apply map_ext. intros x. unfold pay.
  now destruct (o_id x =? id).
Qed.

Lemma pay_other (id t : Z) (l : list Order) (x : Order) :
  In x l -> o_id x <> id -> In x (map (pay id t) l).
Proof.
  intros Hin Hne. apply in_map_iff. exists x. split; [|exact Hin].
  unfold pay. now destruct (Z.eqb_spec (o_id x) id).
Qed.

Lemma pay_target (t : Z) (l : list Order) (o : Order) :
  In o l -> In (set_status o paid t (Some t)) (map (pay (o_id o) t) l).
Proof.
  intros Hin. apply in_map_iff. exists o. split; [|exact Hin].
  unfold pay. now rewrite Z.eqb_refl.
Qed.

(** The ledger after [processPayment], by result. *)
Lemma processPayment_orders (w w' : World) (pd : PaymentData) (res : ProcessResult) :
  fuse w = None ->
  processPayment pd w = (Ok res, w') ->
  fuse w' = None /\
  match res with
  | AutoConfirmed o mr =>
      In o (orders (db w)) /\ is_open (status o) = true /\
      orders (db w') = map (pay (o_id o) (now w)) (orders (db w))
  | NeedsReview mr =>
      orders (db w') = orders (db w) /\
      exists o, order mr = Some o /\ In o (orders (db w)) /\ is_open (status o) = true
  | Unmatched _ => orders (db w') = orders (db w)
  end.
Proof.
  intros Hf H.
  destruct (matchPaymentToOrder_total w pd Hf) as [mr Hm].
  pose proof (matchPaymentToOrder_shapes _ _ _ _ Hf Hm) as Hs.
  destruct (processPayment_by_tier _ _ _ _ Hf Hm) as (res0 & w0 & Hrun & Ht).
  rewrite Hrun in H. injection H as -> <-.
  assert (Hfuse : fuse w0 = None).
  { clear Hs Ht. world w. unfold processPayment, bind in Hrun. rewrite Hm in Hrun.
    unfold mark_paid, insert_event, insert_unmatched, sendAdminAlert,
      sendPaymentConfirmation, sendEmail, read_env, ret, store, bind in Hrun.
    cbn [fuse db now env alerts outbox option_map with_db with_alert with_mail] in Hrun.
    brute. all: now injection Hrun as <- <-. }
  split; [exact Hfuse|].
  destruct (matchType mr).
  1-3, 5: destruct Ht as (o & Ho & [= ->] & Hord & _).
  5-6: destruct Ht as (Hord & _ & Hres);
       destruct (amountCents pd); destruct Hres as ([= ->] & _).
  5-6: exact Hord.
  1: destruct Hs as (_ & _ & o' & ref & Ho' & Hin & _ & _ & _ & Hopen & _).
  2: destruct Hs as (_ & _ & o' & Ho' & Hin & Hopen & _).
  3: destruct Hs as (_ & _ & _ & o' & Ho' & Hin & Hopen & _).
  4: destruct Hs as (_ & _ & o' & Ho' & Hin & Hopen & _).
  all: assert (o' = o) by congruence; subst o'.
  1-3: repeat split; assumption.
  split; [exact Hord|]. exists o. auto.
Qed.

(** X14.  Processing a notification never touches an order that is not
    open: a paid, cancelled, processing, completed or refunded order is
    found unchanged in the ledger afterwards. *)
Theorem closed_orders_survive_processing
        (w w' : World) (pd : PaymentData) (res : ProcessResult) (x : Order) :
  fuse w = None ->
  NoDup (map o_id (orders (db w))) ->
  processPayment pd w = (Ok res, w') ->
  In x (orders (db w)) -> is_open (status x) = false ->
  In x (orders (db w')).
Proof.
  intros Hf Hnd H Hx Hclosed.
  destruct (processPayment_orders _ _ _ _ Hf H) as [_ Hres].
  destruct res as [o mr|mr|pd'].
  - destruct Hres as (Hin & Hopen & ->).
    apply pay_other; [exact Hx|]. intros E.
    rewrite (NoDup_map_eq o_id _ x o Hnd Hx Hin E) in Hclosed. congruence.
  - destruct Hres as [-> _]. exact Hx.
  - rewrite Hres. exact Hx.
Qed.

Lemma closed_orders_survive_processing_witness :
  exists res w',
    processPayment (notification 500000 None (Some "ORD-LX03"%string))
                   (world (db_orders [o1; o2; o4]) None) = (Ok res, w') /\
    In o4 (orders (db w')).
Proof.
  eexists _, _. split; [vm_compute; reflexivity|].
  eapply (closed_orders_survive_processing
            (world (db_orders [o1; o2; o4]) None) _
            (notification 500000 None (Some "ORD-LX03"%string))).
  - reflexivity.
  - simpl. repeat constructor; simpl; intuition discriminate.
  - vm_compute. reflexivity.
  - simpl. auto.
  - reflexivity.
Defined.

(** X15.  An order that [processPayment] auto-confirmed is never the
    target of a later [processPayment]: whatever notification arrives
    afterwards, the result does not name that order (neither as confirmed
    nor for review), and the order keeps the state and the [paid_at] of its
    confirmation. *)
Theorem auto_confirmed_order_is_not_matched_again
        (w w1 w2 w3 : World) (pd pd' : PaymentData)
        (o : Order) (mr : MatchResult) (res : ProcessResult) :
  fuse w = None ->
  NoDup (map o_id (orders (db w))) ->
  processPayment pd w = (Ok (AutoConfirmed o mr), w1) ->
  db w2 = db w1 -> fuse w2 = None ->
  processPayment pd' w2 = (Ok res, w3) ->
  In (set_status o paid (now w) (Some (now w))) (orders (db w3)) /\
  match res with
  | AutoConfirmed o' _ => o_id o' <> o_id o
  | NeedsReview mr' => forall o', order mr' = Some o' -> o_id o' <> o_id o
  | Unmatched _ => True
  end.
Proof.
  intros Hf Hnd H1 Hdb Hf2 H2.
  destruct (processPayment_orders _ _ _ _ Hf H1) as (_ & Hin & Hopen & Hord).
  set (o1' := set_status o paid (now w) (Some (now w))).
  assert (Hin1 : In o1' (orders (db w2))).
  { rewrite Hdb, Hord. now apply pay_target. }
  assert (Hnd2 : NoDup (map o_id (orders (db w2)))).
  { rewrite Hdb, Hord, pay_id. exact Hnd. }
  assert (Hnot : forall o', In o' (orders (db w2)) -> is_open (status o') = true ->
                            o_id o' <> o_id o).
  { intros o' Hin' Hopen' E.
    assert (o' = o1') by (apply (NoDup_map_eq o_id _ o' o1' Hnd2 Hin' Hin1); exact E).
    subst o'. discriminate Hopen'. }
  destruct (processPayment_orders _ _ _ _ Hf2 H2) as [_ Hres].
  destruct res as [o' mr'|mr'|pd''].
  - destruct Hres as (Hin' & Hopen' & ->). split.
    + apply pay_other; [exact Hin1|]. intros E. apply (Hnot o' Hin' Hopen'). now rewrite <- E.
    + now apply Hnot.
  - destruct Hres as (-> & o' & Ho' & Hin' & Hopen'). split; [exact Hin1|].
    intros o'' Ho''. assert (o'' = o') by congruence. subst o''. now apply Hnot.
  - rewrite Hres. split; [exact Hin1 | exact I].
Qed.

Lemma auto_confirmed_order_is_not_matched_again_witness :
  exists res w3,
    processPayment (notification 500000 (Some "bob@example.com"%string) None)
      (snd (processPayment (notification 500000 (Some "bob@example.com"%string) None)
                           (world (db_orders [o1; o2; o3; o5]) None)))
    = (Ok res, w3) /\
    In (set_status o2 paid T0 (Some T0)) (orders (db w3)) /\
    match res with
    | AutoConfirmed o' _ => o_id o' <> 2
    | NeedsReview mr' => forall o', order mr' = Some o' -> o_id o' <> 2
    | Unmatched _ => True
    end.
Proof.
  eexists _, _. split; [vm_compute; reflexivity|].
  eapply (auto_confirmed_order_is_not_matched_again
            (world (db_orders [o1; o2; o3; o5]) None)
            (snd (processPayment (notification 500000 (Some "bob@example.com"%string) None)
                                 (world (db_orders [o1; o2; o3; o5]) None)))
            _ _
            (notification 500000 (Some "bob@example.com"%string) None)
            (notification 500000 (Some "bob@example.com"%string) None)
            o2 (MkMatchResult (Some o2) 90 email_and_amount None)).
  - reflexivity.
  - simpl. repeat constructor; simpl; intuition discriminate.
  - vm_compute. reflexivity.
  - reflexivity.
  - vm_compute. reflexivity.
  - vm_compute. reflexivity.
Defined.

(* ===================================================================== *)
(** ** What the write paths leave alone *)
(* ===================================================================== *)

(** The matching engine changes nothing but the count of store calls,
    whether or not one of them fails. *)
Lemma matchPaymentToOrder_frame (w w1 : World) (pd : PaymentData)
      (r : outcome MatchResult) :
  matchPaymentToOrder pd w = (r, w1) ->
  db w1 = db w /\ now w1 = now w /\ env w1 = env w /\
  alerts w1 = alerts w /\ outbox w1 = outbox w.
Proof.
  world w. intros H. run_match_in H. brute.
  all: injection H as <- <-; repeat split; reflexivity.
Qed.

Lemma same_identity_refl (o : Order) : same_identity o o.
Proof. unfold same_identity. repeat split. Qed.

Lemma same_identity_set_status (o : Order) (s : order_status) (u : Z) (p : option Z) :
  same_identity o (set_status o s u p).
Proof. unfold same_identity. repeat split. Qed.

Lemma same_identity_map (f : Order -> Order) (l : list Order) :
  (forall x, same_identity x (f x)) -> Forall2 same_identity l (map f l).
Proof. intros H. apply Forall2_map_self. auto. Qed.

Ltac keeps_identity :=
  cbn [db orders with_db with_event with_unmatched with_orders with_alert with_mail];
  first [ apply Forall2_refl; exact same_identity_refl
        | apply same_identity_map; intros x;
          repeat match goal with
                 | |- context [if ?b then _ else _] => destruct b
                 end;
          first [apply same_identity_refl | apply same_identity_set_status] ].

Lemma processPayment_same_identity (w w' : World) (pd : PaymentData)
      (r : outcome ProcessResult) :
  processPayment pd w = (r, w') ->
  Forall2 same_identity (orders (db w)) (orders (db w')).
Proof.
  intros H. unfold processPayment, bind in H.
  destruct (matchPaymentToOrder pd w) as [[mr|err] w1] eqn:Hm.
  - apply matchPaymentToOrder_frame in Hm as (Hd & _).
    rewrite <- Hd. clear Hd. world w1.
    unfold mark_paid, insert_event, insert_unmatched, sendAdminAlert,
      sendPaymentConfirmation, sendEmail, read_env, ret, store, bind in H.
    cbn [fuse db now env alerts outbox option_map with_db with_alert with_mail] in H.
    brute.
    all: injection H as <- <-; keeps_identity.
  - apply matchPaymentToOrder_frame in Hm as (Hd & _).
    injection H as <- <-. rewrite Hd. apply Forall2_refl, same_identity_refl.
Qed.

Lemma payment_confirmed_same_identity (w w' : World) (req : ConfirmRequest)
      (r : outcome Webhooks.Response) :
  payment_confirmed_handler req w = (r, w') ->
  Forall2 same_identity (orders (db w)) (orders (db w')).
Proof.
  world w. intros H.
  unfold payment_confirmed_handler, try_catch, bind, mark_paid, insert_event,
    insert_unmatched, sendPaymentConfirmation, sendEmail, read_env, ret,
    select, store in H.
  cbn [fuse db now env alerts outbox option_map with_db with_alert with_mail] in H.
  brute.
  all: injection H as <- <-; keeps_identity.
Qed.

Lemma cleanup_same_identity (w w' : World) (r : outcome Z) :
  cleanupExpiredOrders w = (r, w') ->
  Forall2 same_identity (orders (db w)) (orders (db w')).
Proof.
  world w. intros H.
  unfold cleanupExpiredOrders, try_catch, bind, cancel_expired, Date_now,
    read_env, ret, store in H.
  cbn [fuse db now env alerts outbox option_map with_db] in H.
  brute.
  all: injection H as <- <-; keeps_identity.
Qed.

(** X16.  Payment processing, the payment-confirmed webhook and the
    cleanup of expired orders never add, remove or reorder rows of [orders],
    and leave the identity of every row as it was: id, reference, WooCommerce
    id, customer e-mail, name and phone, amount, currency, payment e-mail,
    [created_at] and [expires_at], whatever the outcome and whichever store
    call fails. *)
Theorem order_rows_keep_their_identity (w : World) :
  (forall pd r w', processPayment pd w = (r, w') ->
                   Forall2 same_identity (orders (db w)) (orders (db w'))) /\
  (forall req r w', payment_confirmed_handler req w = (r, w') ->
                    Forall2 same_identity (orders (db w)) (orders (db w'))) /\
  (forall r w', cleanupExpiredOrders w = (r, w') ->
                Forall2 same_identity (orders (db w)) (orders (db w'))).
Proof.
  repeat split; intros.
  - eapply processPayment_same_identity; eassumption.
  - eapply payment_confirmed_same_identity; eassumption.
  - eapply cleanup_same_identity; eassumption.
Qed.

Lemma order_rows_keep_their_identity_witness :
  Forall2 same_identity [o1; o6; o7]
          (orders (db (snd (cleanupExpiredOrders (world (db_orders [o1; o6; o7]) None))))).
Proof.
  apply (proj2 (proj2 (order_rows_keep_their_identity
                         (world (db_orders [o1; o6; o7]) None)))
               (fst (cleanupExpiredOrders (world (db_orders [o1; o6; o7]) None)))).
  vm_compute. reflexivity.
Defined.

(** The selection sends nothing and raises nothing. *)
Lemma getNextPaymentEmail_quiet (w w1 : World) (r : outcome Assignment) :
  getNextPaymentEmail w = (r, w1) ->
  alerts w1 = alerts w /\ outbox w1 = outbox w /\
  payment_events (db w1) = payment_events (db w) /\
  unmatched_payments (db w1) = unmatched_payments (db w).
Proof.
  world w. intros H.
  unfold getNextPaymentEmail, try_catch in H. run_rotation_in H.
  unfold bind, read_env, ret in H. brute.
  all: injection H as <- <-; cbn; auto.
Qed.

Lemma processPayment_no_mail (w w' : World) (pd : PaymentData)
      (r : outcome ProcessResult) :
  EMAIL_ENABLED (env w) = false ->
  processPayment pd w = (r, w') -> outbox w' = outbox w.
Proof.
  intros He H. unfold processPayment, bind in H.
  destruct (matchPaymentToOrder pd w) as [[mr|err] w1] eqn:Hm;
    apply matchPaymentToOrder_frame in Hm as (_ & _ & Henv & _ & Hob);
    rewrite <- Hob; rewrite <- Henv in He; clear Hob Henv.
  - world w1.
    unfold mark_paid, insert_event, insert_unmatched, sendAdminAlert,
      sendPaymentConfirmation, sendEmail, read_env, ret, store, bind in H.
    cbn [fuse db now env alerts outbox option_map with_db with_alert with_mail] in H.
    rewrite ?He in H. cbn [andb] in H.
    brute.
    all: injection H as <- <-; reflexivity.
  - now injection H as <- <-.
Qed.

Lemma payment_confirmed_no_mail (w w' : World) (req : ConfirmRequest)
      (r : outcome Webhooks.Response) :
  EMAIL_ENABLED (env w) = false ->
  payment_confirmed_handler req w = (r, w') -> outbox w' = outbox w.
Proof.
  intros He. world w. intros H.
  unfold payment_confirmed_handler, try_catch, bind, mark_paid, insert_event,
    insert_unmatched, sendPaymentConfirmation, sendEmail, read_env, ret,
    select, store in H.
  cbn [fuse db now env alerts outbox option_map with_db with_alert with_mail] in H.
  rewrite ?He in H. cbn [andb] in H.
  brute.
  all: injection H as <- <-; reflexivity.
Qed.

Lemma create_order_no_mail (w w' : World) (random : string) (req : CreateRequest)
      (r : outcome Orders.Response) :
  EMAIL_ENABLED (env w) = false ->
  create_order_handler random req w = (r, w') -> outbox w' = outbox w.
Proof.
  intros He H.
  unfold create_order_handler, try_catch, bind, Date_now, ret in H.
  destruct (body_amount req) as [amount|]; [|now injection H as <- <-].
  destruct (negb (truthy_str (body_customer_email req)) || Qeq_bool (fl amount) 0);
    [now injection H as <- <-|].
  destruct (truthy_str (body_payment_email req)).
  - world w.
    unfold insert_order, insert_event, sendOrderConfirmation, sendEmail, read_env,
      ret, store, bind in H.
    cbn [fuse db now env alerts outbox option_map with_db with_mail] in H.
    rewrite ?He in H.
    brute.
    all: injection H as <- <-; reflexivity.
  - destruct (getNextPaymentEmail w) as [[a|err] w1] eqn:Hrot.
    + pose proof (getNextPaymentEmail_frame _ _ _ Hrot) as (_ & _ & _ & Henv).
      apply getNextPaymentEmail_quiet in Hrot as (_ & Hob & _).
      rewrite <- Hob. rewrite <- Henv in He. clear Hob Henv.
      world w1.
      unfold insert_order, insert_event, sendOrderConfirmation, sendEmail, read_env,
        ret, store, bind in H.
      cbn [fuse db now env alerts outbox option_map with_db with_mail] in H.
      rewrite ?He in H.
      brute.
      all: injection H as <- <-; reflexivity.
    + apply getNextPaymentEmail_quiet in Hrot as (_ & Hob & _).
      now injection H as <- <-.
Qed.

(** X17.  With [EMAIL_ENABLED] other than 'true' no operation hands a mail
    to the transport: payment processing (customer confirmation and operator
    alert), the payment-confirmed webhook and order creation leave the outbox
    as it was, whatever their outcome. *)
Theorem no_mail_when_mail_is_disabled (w : World) :
  EMAIL_ENABLED (env w) = false ->
  (forall pd r w', processPayment pd w = (r, w') -> outbox w' = outbox w) /\
  (forall req r w', payment_confirmed_handler req w = (r, w') -> outbox w' = outbox w) /\
  (forall random req r w',
      create_order_handler random req w = (r, w') -> outbox w' = outbox w).
Proof.
  intros He. repeat split; intros.
  - eapply processPayment_no_mail; eassumption.
  - eapply payment_confirmed_no_mail; eassumption.
  - eapply create_order_no_mail; eassumption.
Qed.

Lemma no_mail_when_mail_is_disabled_witness :
  outbox (snd (processPayment (notification 500000 (Some "bob@example.com"%string) None)
                              (world (db_orders [o1; o2; o3; o5]) None))) = [].
Proof.
  apply (proj1 (no_mail_when_mail_is_disabled
                  (world (db_orders [o1; o2; o3; o5]) None) eq_refl)
               (notification 500000 (Some "bob@example.com"%string) None)
               (fst (processPayment (notification 500000 (Some "bob@example.com"%string) None)
                                    (world (db_orders [o1; o2; o3; o5]) None)))).
  vm_compute. reflexivity.
Defined.

(* ===================================================================== *)
(** ** Daily tasks *)
(* ===================================================================== *)

(** X20.  [cleanupExpiredOrders] never throws.  When the store
    accepts the UPDATE, the orders it cancels are those the store selects:
    the pending orders whose [created_at] the store places before the bound
    of 24 hours ([expired]: by instant on the production store, by calendar
    day on the SQLite store); it returns their number on the SQLite store and
    0 on the production store (whose driver reports no [changes]).  When the
    store rejects the UPDATE it returns 0 and leaves every table as it
    was. *)
Theorem cleanup_count_and_failure (w : World) :
  exists n w',
    cleanupExpiredOrders w = (Ok n, w') /\
    (fuse w <> Some O ->
     n = (if isProduction (env w) then 0
          else Z.of_nat (length (filter (expired (env w) (now w - 86400000))
                                        (orders (db w))))) /\
     length (filter (fun o => status_eqb (status o) cancelled) (orders (db w')))
     = (length (filter (fun o => status_eqb (status o) cancelled) (orders (db w)))
        + length (filter (expired (env w) (now w - 86400000)) (orders (db w))))%nat) /\
    (fuse w = Some O -> n = 0 /\ db w' = db w).
Proof.
  world w.
  unfold cleanupExpiredOrders, try_catch, bind, cancel_expired, store, Date_now,
    read_env, ret.
  cbn [fuse db now env option_map with_db].
  change (24 * 60 * 60 * 1000) with 86400000.
  assert (Hcount : forall l,
    length (filter (fun o => status_eqb (status o) cancelled)
              (map (fun o => if expired e (t - 86400000) o
                             then set_status o cancelled t (paid_at o) else o) l))
    = (length (filter (fun o => status_eqb (status o) cancelled) l)
       + length (filter (expired e (t - 86400000)) l))%nat).
  { induction l as [|o l IH]; [reflexivity|]. cbn [map].
    destruct (expired e (t - 86400000) o) eqn:Ee.
    - assert (Es : status o = pending).
      { unfold expired in Ee. apply andb_prop in Ee as [Ee _].
        destruct (status o); try discriminate; reflexivity. }
      cbn [filter]. rewrite Ee. cbn [set_status status status_eqb length].
      rewrite Es. cbn [status_eqb]. rewrite IH. lia.
    - cbn [filter]. rewrite Ee.
      destruct (status_eqb (status o) cancelled); cbn [length]; rewrite IH; lia. }
  destruct f as [[|k]|]; cbn [option_map].
  - eexists _, _. split; [reflexivity|]. split; [congruence|]. auto.
  - eexists _, _. split; [reflexivity|]. split; [|discriminate].
    intros _. cbn [db orders with_orders with_db env]. split; [reflexivity | apply Hcount].
  - eexists _, _. split; [reflexivity|]. split; [|discriminate].
    intros _. cbn [db orders with_orders with_db env]. split; [reflexivity | apply Hcount].
Qed.

Lemma cleanup_count_and_failure_witness :
  exists w', cleanupExpiredOrders (world (db_orders [o6; o2; o7]) None) = (Ok 1, w').
Proof.
  destruct (cleanup_count_and_failure (world (db_orders [o6; o2; o7]) None))
    as (n & w' & Hrun & Hok & _).
  destruct Hok as [Hn _]; [discriminate|].
  exists w'. rewrite Hrun. do 2 f_equal. exact Hn.
Defined.

(** X21.  [resetDailyLimits] never throws.  When the store accepts the
    UPDATE every alias has a daily total of 0 afterwards and nothing else of
    any alias, of the ring or of the other tables changes; when the store
    rejects it, every table is left as it was. *)
Theorem reset_daily_limits_effect (w : World) :
  exists w',
    resetDailyLimits w = (Ok tt, w') /\
    orders (db w') = orders (db w) /\
    rotation_state (db w') = rotation_state (db w) /\
    payment_events (db w') = payment_events (db w) /\
    (fuse w <> Some O ->
     email_aliases (db w') = map clear_total (email_aliases (db w)) /\
     Forall (fun a => daily_total_cents a = 0) (email_aliases (db w')) /\
     active_ring (db w') = map clear_total (active_ring (db w))) /\
    (fuse w = Some O -> db w' = db w).
Proof.
  world w. unfold resetDailyLimits, try_catch, store, ret.
  cbn [fuse db now env option_map with_db].
  assert (Hz : Forall (fun a => daily_total_cents a = 0) (map clear_total (email_aliases d))).
  { apply Forall_forall. intros a Ha. apply in_map_iff in Ha as (b & <- & _). reflexivity. }
  destruct f as [[|k]|]; cbn [option_map].
  - eexists. split; [reflexivity|]. do 3 (split; [reflexivity|]).
    split; [congruence | reflexivity].
  - eexists. split; [reflexivity|]. cbn [db with_db with_aliases orders rotation_state
                                         payment_events email_aliases].
    do 3 (split; [reflexivity|]).
    split; [|discriminate].
    intros _. split; [reflexivity|]. split; [exact Hz|].
    now apply (active_ring_map clear_total).
  - eexists. split; [reflexivity|]. cbn [db with_db with_aliases orders rotation_state
                                         payment_events email_aliases].
    do 3 (split; [reflexivity|]).
    split; [|discriminate].
    intros _. split; [reflexivity|]. split; [exact Hz|].
    now apply (active_ring_map clear_total).
Qed.

Lemma reset_daily_limits_effect_witness :
  exists w',
    resetDailyLimits (world (db_rotation 2 7) None) = (Ok tt, w') /\
    active_ring (db w') = map clear_total [A; B; C].
Proof.
  destruct (reset_daily_limits_effect (world (db_rotation 2 7) None))
    as (w' & Hrun & _ & _ & _ & Hok & _).
  destruct Hok as (_ & _ & Hring); [discriminate|].
  exists w'. split; [exact Hrun | exact Hring].
Defined.

(* ===================================================================== *)
(** ** What the selection reads of an alias *)
(* ===================================================================== *)

Section SelectionReads.

Variable f : Alias -> Alias.
Hypothesis f_id : forall a, a_id (f a) = a_id a.
Hypothesis f_active : forall a, active (f a) = active a.
Hypothesis f_email : forall a, alias_email (f a) = alias_email a.
Hypothesis f_bank : forall a, bank_name (f a) = bank_name a.
Hypothesis f_slug : forall a, bank_slug (f a) = bank_slug a.

Lemma findIndex_from_map (c : Z) (l : list Alias) (i : Z) :
  findIndex_from (fun a => a_id a =? c) (map f l) i
  = findIndex_from (fun a => a_id a =? c) l i.
Proof.
  revert i. induction l as [|a l IH]; intros i; simpl; [reflexivity|].
  rewrite f_id. now rewrite IH.
Qed.

Lemma find_id_map (c : Z) (l : list Alias) :
  find (fun a => a_id a =? c) (map f l)
  = option_map f (find (fun a => a_id a =? c) l).
Proof.
  induction l as [|a l IH]; simpl; [reflexivity|].
  rewrite f_id. now destruct (a_id a =? c).
Qed.

Lemma selection_reads (d : Db) (t : Z) (e : Env) (al : list AdminAlert) (ob : list Mail) :
  fst (getNextPaymentEmail
         (MkWorld (with_aliases d (map f (email_aliases d))) t e None al ob))
  = fst (getNextPaymentEmail (MkWorld d t e None al ob)).
Proof.
  destruct (isProduction e) eqn:Ep.
  { run_rotation. cbn [rotation_state with_aliases].
    destruct (rotation_state d) as [r0|] eqn:Er;
      unfold store;
      cbn [fuse db now env option_map with_db with_aliases with_rotation rotation_state
           email_aliases fst snd];
      rewrite ?Er, ?Ep;
      cbn [fuse db now env option_map with_db with_aliases with_rotation rotation_state
           email_aliases fst snd];
      rewrite ?Ep; reflexivity. }
  run_rotation.
  cbn [rotation_state with_aliases].
  destruct (rotation_state d) as [r0|] eqn:Er.
  - cbn [fuse db now env option_map with_db with_aliases with_rotation rotation_state
         email_aliases fst snd].
    change (MkDb (orders d) (orders_seq d) (payment_events d) (map f (email_aliases d))
                 (unmatched_payments d) (rotation_state d))
      with (with_aliases d (map f (email_aliases d))).
    rewrite (active_ring_map f f_id f_active), ?Ep.
    destruct (active_ring d) as [|first rest] eqn:Hring; [reflexivity|].
    cbn [map length]. rewrite length_map, !f_id.
    change (f first :: map f rest) with (map f (first :: rest)).
    unfold findIndex. rewrite findIndex_from_map, nth_error_map.
    destruct (ORDERS_PER_ROTATION <=? _);
      [destruct (nth_error (first :: rest) _) as [nxt|]; cbn [option_map]; rewrite ?f_id|];
      cbn [fst snd]; try reflexivity.
    all: rewrite find_id_map;
         match goal with |- context [find ?p ?l] => destruct (find p l) as [hit|] end;
         cbn [option_map map]; unfold store;
         cbn [fuse db now env option_map with_db fst snd];
         rewrite ?f_email, ?f_bank, ?f_slug, ?f_id; reflexivity.
  - unfold store.
    cbn [fuse db now env option_map with_db with_aliases with_rotation rotation_state
         email_aliases fst snd].
    rewrite Er.
    cbn [fuse db now env option_map with_db with_aliases with_rotation rotation_state
         email_aliases fst snd].
    unfold active_ring. cbn [email_aliases with_rotation with_aliases].
    rewrite (filter_active_map f f_active), (sort_by_id_map f f_id), ?Ep.
    destruct (sort_by_id (filter active (email_aliases d))) as [|first rest];
      [reflexivity|].
    cbn [map length]. rewrite !f_id.
    change (ORDERS_PER_ROTATION <=? 0) with false. cbv iota. cbn [fst snd].
    change (f first :: map f rest) with (map f (first :: rest)).
    rewrite find_id_map.
    match goal with |- context [find ?p ?l] => destruct (find p l) as [hit|] end;
      cbn [option_map map]; unfold store;
      cbn [fuse db now env option_map with_db fst snd];
      rewrite ?f_email, ?f_bank, ?f_slug, ?f_id; reflexivity.
Qed.

End SelectionReads.

(** X4.  The assignment returned by [getNextPaymentEmail] depends on no
    column of [email_aliases] other than id, active, alias_email, bank_name
    and bank_slug: changing [daily_total_cents], [daily_cap_cents], [weight]
    or [last_used_at] of any alias changes nothing of it.  So an alias whose
    daily total has reached its cap is selected like any other, and
    [resetDailyLimits] has no influence on the selection. *)
Theorem selection_ignores_caps_and_totals (w : World) (f : Alias -> Alias) :
  fuse w = None ->
  (forall a, a_id (f a) = a_id a /\ active (f a) = active a /\
             alias_email (f a) = alias_email a /\ bank_name (f a) = bank_name a /\
             bank_slug (f a) = bank_slug a) ->
  fst (getNextPaymentEmail
         (with_db w (with_aliases (db w) (map f (email_aliases (db w)))) None))
  = fst (getNextPaymentEmail w) /\
  fst (getNextPaymentEmail (snd (resetDailyLimits w))) = fst (getNextPaymentEmail w).
Proof.
  intros Hf H. world w. split.
  - apply selection_reads; intros a; apply H.
  - unfold resetDailyLimits, try_catch, store, ret.
    cbn [fuse db now env option_map with_db snd].
    apply (selection_reads clear_total); reflexivity.
Qed.

Lemma selection_ignores_caps_and_totals_witness :
  fst (getNextPaymentEmail
         (world (MkDb [] 0 []
                   (map (fun a => MkAlias (a_id a) (alias_email a) (bank_name a)
                                          (bank_slug a) (active a) (daily_cap_cents a)
                                          (daily_cap_cents a + 1) (weight a)
                                          (last_used_at a))
                        [A; B; C; D])
                   [] (Some (MkRotationState (Some 2) (Some 7) 0 0))) None))
  = fst (getNextPaymentEmail (world (db_rotation 2 7) None)).
Proof.
  apply (proj1 (selection_ignores_caps_and_totals
                  (world (db_rotation 2 7) None)
                  (fun a => MkAlias (a_id a) (alias_email a) (bank_name a)
                                    (bank_slug a) (active a) (daily_cap_cents a)
                                    (daily_cap_cents a + 1) (weight a)
                                    (last_used_at a))
                  eq_refl
                  (fun a => conj eq_refl (conj eq_refl (conj eq_refl
                                                          (conj eq_refl eq_refl)))))).
Defined.

(* ===================================================================== *)
(** ** Deleting an order *)
(* ===================================================================== *)

(** X25.  [DELETE /api/orders/:id] answers 200 only for an order that
    was pending or cancelled, and then exactly the rows with that id are gone;
    it answers 404 when no order has the id and 400 when the order is in any
    other status, and in both cases, as on a 500, the ledger is left as it
    was.  The events of a deleted order stay in [payment_events]. *)
Theorem delete_is_guarded (w w' : World) (id : Z) (r : OrderRoutes.Response) :
  OrderRoutes.delete_order_handler id w = (Ok r, w') ->
  payment_events (db w') = payment_events (db w) /\
  match r with
  | OrderRoutes.Deleted200 =>
      (exists o, In o (orders (db w)) /\ o_id o = id /\
                 (status o = pending \/ status o = cancelled)) /\
      orders (db w') = filter (fun o => negb (o_id o =? id)) (orders (db w)) /\
      (isProduction (env w) = true -> OrderRoutes.referenced id (db w) = false)
  | OrderRoutes.NotFound404 =>
      orders (db w') = orders (db w) /\
      (forall o, In o (orders (db w)) -> o_id o <> id)
  | OrderRoutes.NotDeletable400 =>
      orders (db w') = orders (db w) /\
      exists o, In o (orders (db w)) /\ o_id o = id /\
                status o <> pending /\ status o <> cancelled
  | OrderRoutes.Error500 => orders (db w') = orders (db w)
  end.
Proof.
  world w. intros H.
  unfold OrderRoutes.delete_order_handler, OrderRoutes.delete_order, try_catch, bind,
    select, read_env, ret, store in H.
  cbn [fuse db now env alerts outbox option_map with_db] in H.
  match goal with |- ?G => set (P := G) end.
  brute.
  all: injection H as <- <-; subst P;
       cbn [db with_db with_orders payment_events orders env].
  all: split; [reflexivity|].
  all: try reflexivity.
  all: try match goal with
       | E : find _ _ = Some ?o |- _ =>
           apply find_some in E as [Hin Hid]; apply Z.eqb_eq in Hid
       end.
  all: try match goal with
       | E : find _ _ = None |- _ /\ (forall _, _) =>
           split; [reflexivity|];
           intros o Hin Hid; apply (find_none _ _ E) in Hin;
           apply Z.eqb_neq in Hin; contradiction
       end.
  all: try match goal with
       | E : negb _ && negb _ = true |- _ =>
           split; [reflexivity|]; eexists; split; [eassumption|]; split; [assumption|];
           apply andb_prop in E as [E1 E2];
           split; intros Es; rewrite Es in *; discriminate
       end.
  all: split; [exists o; split; [exact Hin|]; split; [exact Hid|];
                destruct (status o); try discriminate; auto|].
  all: split; [reflexivity|].
  all: intros Hp; rewrite Hp in *; exact Heqb0.
Qed.

Lemma delete_is_guarded_witness :
  exists w',
    OrderRoutes.delete_order_handler 4 (world (db_orders [o1; o4]) None)
    = (Ok OrderRoutes.Deleted200, w') /\
    orders (db w') = [o1].
Proof.
  eexists. split; [vm_compute; reflexivity|].
  apply (delete_is_guarded (world (db_orders [o1; o4]) None) _ 4 OrderRoutes.Deleted200).
  vm_compute. reflexivity.
Defined.

(* ===================================================================== *)
(** ** Creating an order *)
(* ===================================================================== *)



(** X23.  The order stored by a successful [POST /api/orders] is
    pending, carries the next id of the sequence, the generated reference,
    the request's customer and currency (CAD by default), is created at the
    time of the request and expires 15 minutes later.  Its payment e-mail is
    the one given in the request, in which case the rotation is left as it
    was, and otherwise the one the rotation selects.  One [order_created]
    event is appended; it refers to the order on the SQLite store and to no
    order on the production store, whose INSERT reports no id. *)
Theorem created_order_record
        (w w' : World) (random : string) (req : CreateRequest)
        (id : option Z) (ref : string) (cents : Z) :
  create_order_handler random req w = (Ok (Created201 id ref cents), w') ->
  exists o,
    orders (db w') = orders (db w) ++ [o] /\
    o_id o = orders_seq (db w) + 1 /\
    id = (if isProduction (env w) then None else Some (o_id o)) /\
    reference_number o = generateReferenceNumber (now w) random /\
    status o = pending /\
    customer_email o = body_customer_email req /\
    currency o = match body_currency req with Some c => c | None => "CAD"%string end /\
    created_at o = now w /\
    expires_at o = Some (now w + 900000) /\
    paid_at o = None /\
    payment_events (db w')
    = payment_events (db w) ++ [MkEvent id order_created (EvCreated "api")] /\
    (forall x, In x (orders (db w)) -> reference_number x <> reference_number o) /\
    if truthy_str (body_payment_email req)
    then payment_email o = body_payment_email req /\
         rotation_state (db w') = rotation_state (db w) /\
         email_aliases (db w') = email_aliases (db w)
    else payment_email o = email (match fst (getNextPaymentEmail w) with
                                  | Ok a => a
                                  | Throw _ => default_assignment (env w)
                                  end) /\
         rotation_state (db w') = rotation_state (db (snd (getNextPaymentEmail w))) /\
         email_aliases (db w') = email_aliases (db (snd (getNextPaymentEmail w))).
Proof.
  intros H.
  unfold create_order_handler, try_catch, bind, Date_now, ret in H.
  destruct (body_amount req) as [amount|]; [|discriminate].
  destruct (negb (truthy_str (body_customer_email req)) || Qeq_bool (fl amount) 0);
    [discriminate|].
  change (15 * 60 * 1000) with 900000 in H.
  assert (Hfresh : forall (l : list Order) (r : string),
             existsb (fun o => String.eqb (reference_number o) r) l = false ->
             forall x, In x l -> reference_number x <> r).
  { intros l r E x Hx Hr.
    assert (existsb (fun o => String.eqb (reference_number o) r) l = true); [|congruence].
    apply existsb_exists. exists x. split; [exact Hx|]. now apply String.eqb_eq. }
  destruct (truthy_str (body_payment_email req)).
  - world w.
    unfold insert_order, insert_event, sendOrderConfirmation, sendEmail, read_env,
      ret, store, bind in H.
    cbn [fuse db now env alerts outbox option_map with_db with_mail] in H.
    brute.
    all: injection H as <- <- <- <-.
    all: eexists;
      cbn [db orders with_db with_event with_new_order with_mail payment_events
           rotation_state email_aliases o_id reference_number status customer_email
           currency created_at expires_at paid_at payment_email env];
      rewrite ?Heqb; repeat split; try reflexivity.
    all: eapply Hfresh; eassumption.
  - destruct (getNextPaymentEmail w) as [[a|err] w1] eqn:Hrot; [|discriminate].
    cbn [fst snd].
    pose proof (getNextPaymentEmail_quiet _ _ _ Hrot) as (_ & _ & Hev & _).
    apply getNextPaymentEmail_frame in Hrot as (Ho & Hs & Hn & He).
    world w. world w1.
    unfold insert_order, insert_event, sendOrderConfirmation, sendEmail, read_env,
      ret, store, bind in H.
    cbn [fuse db now env alerts outbox option_map with_db with_mail] in H.
    brute.
    all: injection H as <- <- <- <-.
    all: eexists;
      cbn [db orders with_db with_event with_new_order with_mail payment_events
           rotation_state email_aliases o_id reference_number status customer_email
           currency created_at expires_at paid_at payment_email env] in *;
      rewrite ?Heqb, ?Ho, ?Hs, ?Hev; repeat split; try reflexivity.
    all: rewrite Ho in *; eapply Hfresh; eassumption.
Qed.

Lemma created_order_record_witness :
  exists o w',
    create_order_handler "AB12" (create_request 99) (world (db_rotation 1 19) None)
    = (Ok (Created201 (Some 1) "ORD-LOYW3V28AB12" 9900), w') /\
    orders (db w') = [o] /\
    expires_at o = Some (T0 + 900000) /\
    payment_email o = Some (alias_email A).
Proof.
  destruct (created_order_record
              (world (db_rotation 1 19) None)
              (snd (create_order_handler "AB12" (create_request 99)
                      (world (db_rotation 1 19) None)))
              "AB12" (create_request 99) (Some 1) "ORD-LOYW3V28AB12" 9900)
    as (o & H1 & _ & _ & _ & _ & _ & _ & _ & H2 & _ & _ & _ & H3).
  - vm_compute. reflexivity.
  - exists o, (snd (create_order_handler "AB12" (create_request 99)
                      (world (db_rotation 1 19) None))).
    split; [vm_compute; reflexivity|]. split; [exact H1|]. split; [exact H2|].
    exact (proj1 H3).
Defined.



(* ===================================================================== *)
(** ** The payment-confirmed webhook: rejections *)
(* ===================================================================== *)

Ltac never_401 H :=
  exfalso; revert H;
  unfold mark_paid, insert_event, insert_unmatched, sendPaymentConfirmation,
    sendEmail, select, store, bind, ret;
  cbn [fuse db now env alerts outbox option_map with_db with_alert with_mail];
  intros H; brute.

(** X19.  The webhook answers 401 exactly when a non-empty
    [WEBHOOK_SECRET] is configured and the [x-webhook-secret] header is not
    that secret; it then reads and writes nothing.  With no secret configured
    (or an empty one) no request is refused as unauthorized. *)
Theorem webhook_authentication (w w' : World) (req : ConfirmRequest)
        (r : outcome Webhooks.Response) :
  payment_confirmed_handler req w = (r, w') ->
  (r = Ok Unauthorized401 <->
   exists s, WEBHOOK_SECRET (env w) = Some s /\ s <> EmptyString /\
             x_webhook_secret req <> Some s) /\
  (r = Ok Unauthorized401 -> w' = w).
Proof.
  world w. intros H.
  unfold payment_confirmed_handler, try_catch, bind, read_env, ret in H.
  cbn [env] in H. unfold verifyWebhookSecret in H.
  destruct (WEBHOOK_SECRET e) as [s|] eqn:Es; cbn [truthy_str andb] in H.
  - destruct (String.eqb_spec s EmptyString) as [Hs|Hs]; cbn [negb andb] in H.
    + split; [split|].
      * intros ->. never_401 H.
      * intros (s' & E & Hne & _). congruence.
      * intros ->. never_401 H.
    + destruct (x_webhook_secret req) as [x|] eqn:Ex.
      * destruct (String.eqb_spec x s) as [Hx|Hx]; cbn [negb] in H.
        -- subst x. split; [split|].
           ++ intros ->. never_401 H.
           ++ intros (s' & E & _ & Hne). congruence.
           ++ intros ->. never_401 H.
        -- injection H as <- <-. split; [split|]; auto.
           intros _. exists s. repeat split; auto. congruence.
      * cbn [negb] in H. injection H as <- <-. split; [split|]; auto.
        intros _. exists s. repeat split; auto. discriminate.
  - split; [split|].
    + intros ->. never_401 H.
    + intros (s' & E & _). discriminate.
    + intros ->. never_401 H.
Qed.

Lemma webhook_authentication_witness :
  snd (payment_confirmed_handler (confirm_by_reference "ORD-AB12CD")
         (MkWorld (db_orders [o1]) T0
                  (MkEnv None None false None (Some "s3cret"%string) false) None [] []))
  = MkWorld (db_orders [o1]) T0
            (MkEnv None None false None (Some "s3cret"%string) false) None [] [].
Proof.
  destruct (webhook_authentication
              (MkWorld (db_orders [o1]) T0
                       (MkEnv None None false None (Some "s3cret"%string) false) None [] [])
              (snd (payment_confirmed_handler (confirm_by_reference "ORD-AB12CD")
                      (MkWorld (db_orders [o1]) T0
                         (MkEnv None None false None (Some "s3cret"%string) false)
                         None [] [])))
              (confirm_by_reference "ORD-AB12CD")
              (Ok Unauthorized401)) as [_ H].
  - vm_compute. reflexivity.
  - apply H. reflexivity.
Defined.

(** X18.  An authorized confirmation that names no order of the
    ledger (by its reference, or by its id when no reference is given) is
    answered 404 and logged: one row with reason 'Order not found' and the
    request's reference (null for an empty or missing one) is appended to
    [unmatched_payments], and orders and events are left as they were. *)
Theorem unknown_order_is_logged (w : World) (req : ConfirmRequest) :
  fuse w = None ->
  truthy_str (WEBHOOK_SECRET (env w)) && negb (verifyWebhookSecret (env w) req) = false ->
  (forall o, In o (orders (db w)) ->
             if truthy_str (req_reference_number req)
             then req_reference_number req <> Some (reference_number o)
             else req_order_id req <> Some (o_id o)) ->
  exists u w',
    payment_confirmed_handler req w = (Ok NotFound404, w') /\
    unmatched_payments (db w') = unmatched_payments (db w) ++ [u] /\
    u_reason u = ReasonOrderNotFound /\
    u_reference_code u = or_null (req_reference_number req) /\
    orders (db w') = orders (db w) /\
    payment_events (db w') = payment_events (db w) /\
    outbox w' = outbox w.
Proof.
  intros Hf. world w. intros Hauth Hnone.
  unfold payment_confirmed_handler, try_catch, bind, read_env, ret.
  cbn [env]. rewrite Hauth.
  assert (Hfound :
    (if truthy_str (req_reference_number req)
     then select (fun d0 =>
            match req_reference_number req with
            | Some ref => find (fun o => String.eqb (reference_number o) ref) (orders d0)
            | None => None
            end)
     else match req_order_id req with
          | Some i => if i =? 0 then ret None
                      else select (fun d0 => find (fun o => o_id o =? i) (orders d0))
          | None => ret None
          end)
      (MkWorld d t e None al ob)
    = (Ok None, MkWorld d t e None al ob)).
  { destruct (truthy_str (req_reference_number req)) eqn:Et.
    - unfold select, store. cbn [fuse db option_map with_db].
      destruct (req_reference_number req) as [ref|]; [|reflexivity].
      destruct (find _ (orders d)) as [o|] eqn:Ef; [|reflexivity].
      apply find_some in Ef as [Hin Href]. apply String.eqb_eq in Href.
      exfalso. apply (Hnone o Hin). now rewrite Href.
    - destruct (req_order_id req) as [i|]; [|reflexivity].
      destruct (i =? 0); [reflexivity|].
      unfold select, store. cbn [fuse db option_map with_db].
      destruct (find _ (orders d)) as [o|] eqn:Ef; [|reflexivity].
      apply find_some in Ef as [Hin Hid]. apply Z.eqb_eq in Hid.
      exfalso. apply (Hnone o Hin). now rewrite Hid. }
  unfold ret in Hfound. unfold ret. rewrite Hfound.
  unfold insert_unmatched, store.
  cbn [fuse db now env option_map with_db u_amount_cents].
  destruct (req_amount req) as [a|]; [destruct (Qeq_bool (fl a) 0)|].
  all: eexists _, _; (split; [reflexivity|]);
       cbn [db with_db with_unmatched unmatched_payments orders payment_events outbox
            u_reason u_reference_code];
       repeat split; reflexivity.
Qed.

Lemma unknown_order_is_logged_witness :
  exists u w',
    payment_confirmed_handler (confirm_by_reference "ORD-NONE")
                              (world (db_orders [o1; o4]) None)
    = (Ok NotFound404, w') /\
    unmatched_payments (db w') = [u] /\ u_reason u = ReasonOrderNotFound.
Proof.
  destruct (unknown_order_is_logged (world (db_orders [o1; o4]) None)
              (confirm_by_reference "ORD-NONE") eq_refl eq_refl)
    as (u & w' & Hrun & Hu & Hr & _).
  - intros o [<-|[<-|[]]]; discriminate.
  - exists u, w'. auto.
Defined.

(* ===================================================================== *)
(** ** From the parser to the matching engine *)
(* ===================================================================== *)

Lemma lower_not_upper (a : ascii) : Regex.is_upper (Regex.lower a) = false.
Proof. destruct a as [[] [] [] [] [] [] [] []]; vm_compute; reflexivity. Qed.

Lemma parsed_sender_lower_case (text s : string) :
  senderEmail (Parser.parseInteracEmail text) = Some s ->
  forallb (fun a => negb (Regex.is_upper a)) (list_ascii_of_string s) = true.
Proof.
  unfold Parser.parseInteracEmail.
  destruct (negb _); [discriminate|].
  destruct (Parser.first_some _ Parser.amountPatterns) as [m|];
    [destruct (Parser.parseFloat _)|];
    cbn [senderEmail];
    (destruct (Regex.search Parser.emailPattern (str text)) as [m'|]; [|discriminate]);
    intros H; injection H as <-;
    rewrite list_ascii_of_string_of_list_ascii;
    unfold Parser.toLowerCase; apply forallb_forall; intros a Ha;
    apply in_map_iff in Ha as (b & <- & _); now rewrite lower_not_upper.
Qed.

(** X12.  The parser lower-cases the sender address it extracts, and
    the e-mail tier compares it with the stored [customer_email] as it is.
    So an order matched at that tier from a parsed notification has a
    customer e-mail without upper-case letters: an order stored with an
    address such as [Bob@Example.com] is never matched by sender e-mail. *)
Theorem email_tier_needs_lower_case_address
        (w w1 : World) (text : string) (mr : MatchResult) (o : Order) :
  fuse w = None ->
  matchPaymentToOrder (Parser.parseInteracEmail text) w = (Ok mr, w1) ->
  matchType mr = email_and_amount ->
  order mr = Some o ->
  exists s, customer_email o = Some s /\
            forallb (fun a => negb (Regex.is_upper a)) (list_ascii_of_string s) = true.
Proof.
  intros Hf H Ht Ho.
  pose proof (matchPaymentToOrder_shapes _ _ _ _ Hf H) as Hs.
  rewrite Ht in Hs. destruct Hs as (_ & _ & o' & Ho' & _ & _ & Ha & Hnz & He & _).
  assert (o' = o) by congruence. subst o'.
  pose proof (matchPaymentToOrder_total w (Parser.parseInteracEmail text) Hf) as _.
  destruct (senderEmail (Parser.parseInteracEmail text)) as [s|] eqn:Es.
  - exists s. split; [exact He|]. eapply parsed_sender_lower_case; eassumption.
  - exfalso. revert H. world w. run_match. rewrite Es. cbn [truthy_str andb].
    intros H. brute.
    all: injection H as <- _; cbn [matchType] in Ht; discriminate.
Qed.

Lemma email_tier_needs_lower_case_address_witness :
  exists s,
    customer_email (order_row 1 "ORD-X1" "bob@example.com" 5000 pending (T0 - 600000))
    = Some s /\
    forallb (fun a => negb (Regex.is_upper a)) (list_ascii_of_string s) = true.
Proof.
  apply (email_tier_needs_lower_case_address
           (world (db_orders [order_row 1 "ORD-X1" "bob@example.com" 5000 pending
                                        (T0 - 600000)]) None)
           (world (db_orders [order_row 1 "ORD-X1" "bob@example.com" 5000 pending
                                        (T0 - 600000)]) None)
           "INTERAC e-Transfer: you received $50.00 from: Bob@Example.com"
           (MkMatchResult
              (Some (order_row 1 "ORD-X1" "bob@example.com" 5000 pending (T0 - 600000)))
              90 email_and_amount None)).
  - reflexivity.
  - vm_compute. reflexivity.
  - reflexivity.
  - reflexivity.
Defined.

(* ===================================================================== *)
(** ** Placeholders of the production store *)
(* ===================================================================== *)

Section Placeholders.

Import Database.

Lemma digits_no_qmark (u : Decimal.uint) :
  includes_qmark (list_ascii_of_string (NilEmpty.string_of_uint u)) = false.
Proof. induction u; simpl; auto. Qed.

Lemma dollar_no_qmark (k : nat) : includes_qmark (dollar k) = false.
Proof. unfold dollar. cbn [includes_qmark existsb]. apply digits_no_qmark. Qed.

Lemma includes_qmark_app (p s : list ascii) :
  includes_qmark (p ++ s) = includes_qmark p || includes_qmark s.
Proof. apply existsb_app. Qed.

Lemma replace_first_skip (r p s : list ascii) :
  includes_qmark p = false -> replace_first r (p ++ s) = p ++ replace_first r s.
Proof.
  induction p as [|a p IH]; intros H; [reflexivity|].
  cbn [includes_qmark existsb] in H. apply orb_false_elim in H as [Ha Hp].
  cbn [app replace_first]. rewrite Ha. f_equal. now apply IH.
Qed.

Lemma number_placeholders_none (s : list ascii) (k : nat) :
  includes_qmark s = false -> number_placeholders s k = s.
Proof.
  induction s as [|a s IH]; intros H; [reflexivity|].
  cbn [includes_qmark existsb] in H. apply orb_false_elim in H as [Ha Hs].
  cbn [number_placeholders]. rewrite Ha. f_equal. now apply IH.
Qed.

Lemma first_qmark (s : list ascii) :
  includes_qmark s = true ->
  exists s1 s2, s = s1 ++ "?"%char :: s2 /\ includes_qmark s1 = false.
Proof.
  induction s as [|a s IH]; intros H; [discriminate|].
  cbn [includes_qmark existsb] in H.
  destruct (is_char "?" a) eqn:Ea.
  - exists [], s. split; [|reflexivity].
    unfold is_char in Ea. apply Ascii.eqb_eq in Ea. now subst a.
  - destruct (IH H) as (s1 & s2 & -> & H1).
    exists (a :: s1), s2. split; [reflexivity|].
    cbn [includes_qmark existsb]. now rewrite Ea.
Qed.

Lemma number_placeholders_first (s1 s2 : list ascii) (k : nat) :
  includes_qmark s1 = false ->
  number_placeholders (s1 ++ "?"%char :: s2) k
  = s1 ++ dollar k ++ number_placeholders s2 (S k).
Proof.
  induction s1 as [|a s1 IH]; intros H; [reflexivity|].
  cbn [includes_qmark existsb] in H. apply orb_false_elim in H as [Ha Hs].
  cbn [app number_placeholders]. rewrite Ha. f_equal. now apply IH.
Qed.

Lemma placeholders_loop_spec (fuel : nat) :
  forall (p s : list ascii) (k : nat),
    includes_qmark p = false ->
    (length (filter (is_char "?") s) <= fuel)%nat ->
    placeholders_loop fuel (p ++ s) k = p ++ number_placeholders s k.
Proof.
  induction fuel as [|fuel IH]; intros p s k Hp Hc.
  - cbn [placeholders_loop]. f_equal. symmetry. apply number_placeholders_none.
    assert (Hnil : filter (is_char "?") s = []) by (destruct (filter _ s); [reflexivity | simpl in Hc; lia]).
    destruct (includes_qmark s) eqn:E; [|reflexivity].
    apply existsb_exists in E as (a & Hin & Ha).
    assert (Hf : In a (filter (is_char "?") s)) by (apply filter_In; auto).
    rewrite Hnil in Hf. contradiction.
  - cbn [placeholders_loop]. rewrite includes_qmark_app, Hp. cbn [orb].
    destruct (includes_qmark s) eqn:E.
    + destruct (first_qmark s E) as (s1 & s2 & -> & H1).
      rewrite replace_first_skip by exact Hp.
      rewrite replace_first_skip by exact H1.
      cbn [replace_first]. change (is_char "?" "?") with true. cbv iota.
      rewrite number_placeholders_first by exact H1.
      replace (p ++ s1 ++ dollar k ++ s2) with ((p ++ s1 ++ dollar k) ++ s2)
        by (now rewrite <- !app_assoc).
      rewrite IH.
      * now rewrite <- !app_assoc.
      * rewrite !includes_qmark_app, Hp, H1, dollar_no_qmark. reflexivity.
      * rewrite filter_app in Hc. cbn [filter] in Hc.
        change (is_char "?" "?") with true in Hc. cbv iota in Hc.
        rewrite length_app in Hc. cbn [length] in Hc. lia.
    + f_equal. symmetry. now apply number_placeholders_none.
Qed.

Lemma number_placeholders_clean (s : list ascii) (k : nat) :
  includes_qmark (number_placeholders s k) = false.
Proof.
  revert k. induction s as [|a s IH]; intros k; [reflexivity|].
  cbn [number_placeholders]. destruct (is_char "?" a) eqn:Ea.
  - now rewrite includes_qmark_app, dollar_no_qmark, IH.
  - cbn [includes_qmark existsb]. rewrite Ea. apply IH.
Qed.

End Placeholders.

(** X27.  The conversion loop of the production store (search
    the statement for a [?], replace the first one, search again) ends with
    a statement without [?] in which the [k]-th placeholder of the original
    has become [$k], everything else being kept: what a single pass from
    left to right gives. *)
Theorem to_pg_numbers_placeholders (sql : list ascii) :
  Database.to_pg sql = number_placeholders sql 1 /\
  Database.includes_qmark (Database.to_pg sql) = false.
Proof.
  assert (E : Database.to_pg sql = number_placeholders sql 1).
  { unfold Database.to_pg.
    apply (placeholders_loop_spec (length sql) [] sql 1 eq_refl).
    apply filter_length_le. }
  split; [exact E|]. rewrite E. apply number_placeholders_clean.
Qed.

(* ===================================================================== *)
(** ** The amount shown in the payment instructions *)
(* ===================================================================== *)

Lemma Qfloor_between (y : Q) (c : Z) :
  (inject_Z c <= y)%Q -> (y < inject_Z (c + 1))%Q -> Qfloor y = c.
Proof.
  intros Hlo Hhi.
  pose proof (Qfloor_le y) as H1. pose proof (Qlt_floor y) as H2.
  assert (A : (inject_Z c < inject_Z (Qfloor y + 1))%Q) by (eapply Qle_lt_trans; eauto).
  assert (B : (inject_Z (Qfloor y) < inject_Z (c + 1))%Q) by (eapply Qle_lt_trans; eauto).
  rewrite <- Zlt_Qlt in A, B. lia.
Qed.

(** The quotient [cents / 100] is rounded to a double, and [toFixed(2)]
    rounds that double to cents again: the result is [cents]. *)
Lemma cents_round_trip (c : Z) :
  0 <= c < 2 ^ 51 ->
  (0 <= fl (fl (inject_Z c) / 100))%Q /\
  Qfloor (Qabs (fl (fl (inject_Z c) / 100)) * 100 + (1 # 2)) = c.
Proof.
  intros Hc.
  assert (P51 : 2 ^ 51 = 2251799813685248) by reflexivity.
  assert (P53 : 2 ^ 53 = 9007199254740992) by reflexivity.
  assert (Sc : safe_integer c) by (unfold safe_integer; lia).
  rewrite (fl_compat (fl (inject_Z c) / 100) (inject_Z c / 100))
    by (now rewrite (fl_int c Sc)).
  destruct (Z.eq_dec c 0) as [->|Hnz]; [split; [discriminate | reflexivity]|].
  set (q := (inject_Z c / 100)%Q).
  assert (Eq : (q == c # 100)%Q).
  { unfold q, Qdiv, Qeq, Qmult, Qinv, inject_Z. cbn [Qnum Qden]. lia. }
  pose proof (Z.div_mod (256 * c) 100 ltac:(lia)) as Ediv.
  pose proof (Z.mod_pos_bound (256 * c) 100 ltac:(lia)) as Hr.
  set (z := 256 * c / 100) in *. set (r := (256 * c) mod 100) in *.
  assert (Hlo : (inject_Z z * (1 # Z.to_pos (2 ^ 8)) <= fl q)%Q).
  { apply fl_ge_dyadic.
    - lia.
    - lia.
    - rewrite Eq. unfold Qlt. cbn [Qnum Qden]. lia.
    - rewrite Eq. change (Z.to_pos (2 ^ 8)) with 256%positive.
      unfold Qle, Qmult, inject_Z. cbn [Qnum Qden]. lia.
    - rewrite Eq. change (2 ^ 8) with 256.
      unfold Qlt, Qmult, inject_Z. cbn [Qnum Qden]. lia. }
  assert (Hhi : (fl q <= inject_Z (z + 1) * (1 # Z.to_pos (2 ^ 8)))%Q).
  { apply fl_le_dyadic.
    - lia.
    - rewrite Eq. unfold Qlt. cbn [Qnum Qden]. lia.
    - rewrite Eq. change (Z.to_pos (2 ^ 8)) with 256%positive.
      unfold Qle, Qmult, inject_Z. cbn [Qnum Qden]. lia.
    - rewrite Eq. change (2 ^ 8) with 256.
      unfold Qlt, Qmult, inject_Z. cbn [Qnum Qden]. lia. }
  change (Z.to_pos (2 ^ 8)) with 256%positive in Hlo, Hhi.
  assert (Hnn : (0 <= fl q)%Q).
  { eapply Qle_trans; [|exact Hlo]. unfold Qle, Qmult, inject_Z. cbn [Qnum Qden]. lia. }
  split; [exact Hnn|].
  rewrite (Qabs_pos _ Hnn).
  apply Qfloor_between.
  - apply Qle_trans with (inject_Z z * (1 # 256) * 100 + (1 # 2))%Q.
    + unfold Qle, Qmult, Qplus, inject_Z. cbn [Qnum Qden]. lia.
    + apply Qplus_le_l. apply Qmult_le_compat_r; [exact Hlo | discriminate].
  - apply Qle_lt_trans with (inject_Z (z + 1) * (1 # 256) * 100 + (1 # 2))%Q.
    + apply Qplus_le_l. apply Qmult_le_compat_r; [exact Hhi | discriminate].
    + unfold Qlt, Qmult, Qplus, inject_Z. cbn [Qnum Qden]. lia.
Qed.

(** X26.  For every amount below 2^51 cents, [formatAmount] shows the
    amount exactly: the dollars, a point, and the cents on two digits.  The
    division by 100 in floating point and the rounding of [toFixed(2)]
    cancel out. *)
Theorem formatAmount_is_exact (n : N) :
  (n < 2 ^ 51)%N ->
  OrderRoutes.formatAmount (Z.of_N n)
  = (OrderRoutes.decimal (n / 100) ++ "."
     ++ (if (n mod 100 <? 10)%N then "0" else "")
     ++ OrderRoutes.decimal (n mod 100))%string.
Proof.
  intros Hn.
  assert (Hc : 0 <= Z.of_N n < 2 ^ 51).
  { split; [lia|]. change (2 ^ 51) with (Z.of_N (2 ^ 51)). lia. }
  destruct (cents_round_trip (Z.of_N n) Hc) as [Hnn Hfloor].
  unfold OrderRoutes.formatAmount, OrderRoutes.toFixed2.
  rewrite Hfloor, N2Z.id.
  destruct (Qlt_le_dec (fl (fl (inject_Z (Z.of_N n)) / 100)) 0) as [Hneg|_].
  - exfalso. apply (Qlt_not_le _ _ Hneg Hnn).
  - reflexivity.
Qed.

Lemma formatAmount_is_exact_witness :
  OrderRoutes.formatAmount 123405 = "1234.05"%string.
Proof.
  apply (formatAmount_is_exact 123405). reflexivity.
Defined.

